(** * Railway seat booking: the [book_seat] stored procedure and its gateway

    A shallow embedding of
    - [supabase/migrations/20250704034457_graceful_firefly.sql]
      (tables [trains] and [bookings], the PL/pgSQL function [book_seat]),
    - [backend/routes/bookings.js] ([POST /bookings], [DELETE /bookings/:id]),
    - [backend/routes/trains.js] ([GET /trains/search], [PUT /trains/:id]).

    Tables are finite maps from the primary key to the remaining columns, so
    the primary-key constraint holds by construction.  Nullable columns are
    [option]s.  The database engine contributes a few values the source
    only names ([gen_random_uuid()], [now()], [SQLERRM]); they are collected
    in the record [engine] and every statement is quantified over it.  The
    routes reach the database through the client of [config/database.js];
    what that client may answer is a parameter of each route.

    Requests are served one at a time: a call of [book_seat] is one
    transaction, and a route runs from its first storage request to its
    last without another request in between.  Strings are sequences of
    ASCII characters. *)

From Stdlib Require Import ZArith Ascii String SpecFloat.
From stdpp Require Import gmap strings list fin_maps sorting pretty.

Local Open Scope Z_scope.

(** ** Column types *)

Abbreviation uuid := N (only parsing).
Abbreviation timestamptz := Z (only parsing).

(** [integer] is PostgreSQL's 32-bit signed type: arithmetic that leaves the
    range raises an error, it does not wrap. *)
Definition int4_min : Z := - 2 ^ 31.
Definition int4_max : Z := 2 ^ 31 - 1.

(** ** Rows *)

(** [trains], without its primary key [id]. [time], [date] and [decimal(10,2)]
    are kept as integers (microseconds, days, hundredths). *)
Record train := {
  train_number : string;
  train_name : string;
  source : string;
  destination : string;
  total_seats : Z;
  available_seats : Z;
  departure_time : Z;
  arrival_time : Z;
  journey_date : Z;
  price : Z;
  created_at : option timestamptz;
  updated_at : option timestamptz
}.

(** [bookings], without its primary key [id]. [user_id], [train_id] and
    [booking_status] carry no NOT NULL in the schema. *)
Record booking := {
  user_id : option uuid;
  train_id : option uuid;
  seat_number : Z;
  booking_status : option string;
  passenger_name : string;
  passenger_age : Z;
  passenger_gender : string;
  booking_date : option timestamptz;
  booking_created_at : option timestamptz
}.

(** The database: the two tables and the ids present in [auth.users], the
    target of the foreign key on [bookings.user_id]. *)
Record db := {
  trains : gmap uuid train;
  bookings : gmap uuid booking;
  auth_users : gset uuid
}.

Definition set_trains (ts : gmap uuid train) (d : db) : db :=
  {| trains := ts; bookings := bookings d; auth_users := auth_users d |}.

Definition set_bookings (bs : gmap uuid booking) (d : db) : db :=
  {| trains := trains d; bookings := bs; auth_users := auth_users d |}.

(** ** Errors and the engine *)

(** The error conditions the statements of [book_seat] can raise, named by
    their PostgreSQL condition names.  [storage_fault] stands for any other
    synchronous failure of a statement (out of disk, I/O error, ...), which
    the engine decides. Asynchronous cancellation of the query is outside
    this sequential model. *)
Inductive sql_error :=
  | numeric_value_out_of_range
  | string_data_right_truncation (limit : nat)
  | not_null_violation (column : string)
  | unique_violation (constraint : string)
  | foreign_key_violation (constraint : string)
  | storage_fault (sqlstate : string).

(** The statements of [book_seat] after the availability check, in program
    order: the seat-number computation, the insert, the counter update. *)
Inductive statement :=
  | stmt_select_max
  | stmt_insert
  | stmt_update.

(** What the engine supplies to one call of [book_seat]. *)
Record engine := {
  gen_random_uuid : uuid;
  now : timestamptz;
  SQLERRM : sql_error → string;
  fault : statement → option sql_error
}.

(** ** A small monad for PL/pgSQL blocks *)

Inductive outcome (A : Type) :=
  | Raise (e : sql_error)
  | Done (a : A) (d : db).
Arguments Raise {A} e.
Arguments Done {A} a d.

Definition plpgsql (A : Type) : Type := db → outcome A.

Definition ret {A} (a : A) : plpgsql A := λ d, Done a d.
Definition raise {A} (e : sql_error) : plpgsql A := λ _, Raise e.
Definition bind {A B} (k : A → plpgsql B) (m : plpgsql A) : plpgsql B :=
  λ d, match m d with
       | Raise e => Raise e
       | Done a d' => k a d'
       end.

#[global] Instance plpgsql_ret : MRet plpgsql := @ret.
#[global] Instance plpgsql_bind : MBind plpgsql := @bind.

(** [BEGIN body EXCEPTION WHEN OTHERS THEN handler END]: an error raised by
    [body] rolls the block back to its entry state, on which the handler
    runs. *)
Definition exception_when_others {A}
    (body : plpgsql A) (handler : sql_error → plpgsql A) : plpgsql A :=
  λ d, match body d with
       | Raise e => handler e d
       | Done a d' => Done a d'
       end.

(** A statement first meets the engine: an injected fault pre-empts it. *)
Definition run_statement {A} (E : engine) (s : statement) (m : plpgsql A)
    : plpgsql A :=
  match fault E s with
  | Some e => raise e
  | None => m
  end.

(** ** SQL helpers *)

(** [a = b] in a WHERE clause: true only when both sides are non-null and
    equal (a NULL comparison is not true). *)
Definition sql_eq (a b : option uuid) : bool :=
  match a, b with
  | Some x, Some y => bool_decide (x = y)
  | _, _ => false
  end.

(** [MAX] over a column: NULL on no rows. *)
Definition sql_max (l : list Z) : option Z :=
  foldr (λ x acc, Some (match acc with
                        | None => x
                        | Some m => Z.max x m
                        end)) None l.

Definition COALESCE (o : option Z) (dflt : Z) : Z :=
  match o with
  | Some z => z
  | None => dflt
  end.

(** [integer + integer], with the range check. *)
Definition int4_add (a b : Z) : plpgsql Z :=
  if bool_decide (int4_min ≤ a + b ≤ int4_max)
  then ret (a + b)
  else raise numeric_value_out_of_range.

Fixpoint all_blank (s : string) : bool :=
  match s with
  | EmptyString => true
  | String c s' => Ascii.eqb c " " && all_blank s'
  end.

Fixpoint string_take (n : nat) (s : string) : string :=
  match n, s with
  | S n', String c s' => String c (string_take n' s')
  | _, _ => EmptyString
  end.

Fixpoint string_drop (n : nat) (s : string) : string :=
  match n, s with
  | S n', String _ s' => string_drop n' s'
  | _, _ => s
  end.

(** What a [varchar(n)] column makes of a string it is assigned: a value
    within the length is stored as it is; a longer one whose excess
    characters are all spaces is cut to [n] characters; any other is
    refused ([None]). *)
Definition coerce_varchar (n : nat) (s : string) : option string :=
  if bool_decide (String.length s ≤ n)%nat then Some s
  else if all_blank (string_drop n s) then Some (string_take n s)
  else None.

(** The value stored for a nullable argument, if the column takes it. *)
Definition stored (n : nat) (v : option string) : option string :=
  v ≫= coerce_varchar n.

(** Storing into a [varchar(n)] column. *)
Definition varchar (n : nat) (v : option string) : plpgsql (option string) :=
  match v with
  | Some s =>
      match coerce_varchar n s with
      | Some s' => ret (Some s')
      | None => raise (string_data_right_truncation n)
      end
  | None => ret v
  end.

Definition not_null {A} (column : string) (v : option A) : plpgsql A :=
  match v with
  | Some a => ret a
  | None => raise (not_null_violation column)
  end.

Definition get : plpgsql db := λ d, Done d d.
Definition modify (f : db → db) : plpgsql unit := λ d, Done tt (f d).

Definition check (ok : bool) (e : sql_error) : plpgsql unit :=
  if ok then ret tt else raise e.

(** The rows of [bookings] seen by [WHERE train_id = p_train_id]. *)
Definition bookings_of (p_train_id : option uuid) (bs : gmap uuid booking)
    : gmap uuid booking :=
  filter (λ kb, sql_eq (train_id kb.2) p_train_id = true) bs.

(** ** The statements of [book_seat] *)

(** [SELECT * INTO v_train_record FROM trains WHERE id = p_train_id FOR UPDATE].
    With no row the record variable is NULL in every field. *)
Definition select_train_for_update (p_train_id : option uuid)
    : plpgsql (option train) :=
  d ← get;
  ret (p_train_id ≫= λ i, trains d !! i).

(** [SELECT COALESCE(MAX(seat_number), 0) + 1 INTO v_seat_number
     FROM bookings WHERE train_id = p_train_id]. *)
Definition max_seat_number (p_train_id : option uuid) (bs : gmap uuid booking)
    : option Z :=
  sql_max (seat_number <$> (map_to_list (bookings_of p_train_id bs)).*2).

Definition next_seat_number (p_train_id : option uuid) : plpgsql Z :=
  d ← get;
  int4_add (COALESCE (max_seat_number p_train_id (bookings d)) 0) 1.

(** The UNIQUE(train_id, seat_number) index: a clash needs a non-null
    [train_id] on both rows. *)
Definition seat_taken (t : option uuid) (n : Z) (bs : gmap uuid booking) : bool :=
  bool_decide (map_Exists (λ _ b, seat_number b = n) (bookings_of t bs)).

(** [INSERT INTO bookings (user_id, train_id, seat_number, passenger_name,
     passenger_age, passenger_gender) VALUES (...) RETURNING id]. The other
    columns take their defaults. Checks run in the engine's order: column
    coercion, NOT NULL, the unique indexes, then the foreign keys. *)
Definition new_booking (E : engine)
    (p_user_id p_train_id : option uuid) (v_seat_number : Z)
    (name : string) (age : Z) (gender : string) : booking :=
  {| user_id := p_user_id;
     train_id := p_train_id;
     seat_number := v_seat_number;
     booking_status := Some "confirmed"%string;
     passenger_name := name;
     passenger_age := age;
     passenger_gender := gender;
     booking_date := Some (now E);
     booking_created_at := Some (now E) |}.

Definition insert_booking (E : engine)
    (p_user_id p_train_id : option uuid) (v_seat_number : Z)
    (p_passenger_name : option string) (p_passenger_age : option Z)
    (p_passenger_gender : option string) : plpgsql uuid :=
  name' ← varchar 100 p_passenger_name;
  gender' ← varchar 10 p_passenger_gender;
  name ← not_null "passenger_name" name';
  age ← not_null "passenger_age" p_passenger_age;
  gender ← not_null "passenger_gender" gender';
  d ← get;
  let id := gen_random_uuid E in
  let row := new_booking E p_user_id p_train_id v_seat_number
               name age gender in
  check (bool_decide (bookings d !! id = None))
        (unique_violation "bookings_pkey");;
  check (negb (seat_taken p_train_id v_seat_number (bookings d)))
        (unique_violation "bookings_train_id_seat_number_key");;
  check (match p_user_id with
         | Some u => bool_decide (u ∈ auth_users d)
         | None => true
         end)
        (foreign_key_violation "bookings_user_id_fkey");;
  check (match p_train_id with
         | Some t => bool_decide (is_Some (trains d !! t))
         | None => true
         end)
        (foreign_key_violation "bookings_train_id_fkey");;
  modify (set_bookings (<[id := row]> (bookings d)));;
  ret id.

(** [UPDATE trains SET available_seats = available_seats - 1,
     updated_at = now() WHERE id = p_train_id]. *)
Definition book_one (E : engine) (t : train) (a : Z) : train :=
  {| train_number := train_number t;
     train_name := train_name t;
     source := source t;
     destination := destination t;
     total_seats := total_seats t;
     available_seats := a;
     departure_time := departure_time t;
     arrival_time := arrival_time t;
     journey_date := journey_date t;
     price := price t;
     created_at := created_at t;
     updated_at := Some (now E) |}.

Definition decrement_available_seats (E : engine) (p_train_id : option uuid)
    : plpgsql unit :=
  d ← get;
  match p_train_id ≫= λ i, pair i <$> trains d !! i with
  | Some (i, t) =>
      a ← int4_add (available_seats t) (-1);
      modify (set_trains (<[i := book_one E t a]> (trains d)))
  | None => ret tt
  end.

(** ** [book_seat] *)

(** A key of a JSON object that an object may leave out: absent, present
    with [null], or present with a value. *)
Inductive json_key (A : Type) :=
  | key_absent
  | key_null
  | key_value (a : A).
Arguments key_absent {A}.
Arguments key_null {A}.
Arguments key_value {A} a.

(** The JSON object [book_seat] returns. Every object it builds has the
    keys [success], [message] and [booking_id] (a [None] is a JSON null);
    the failure objects of this migration have no key [seat_number]. *)
Record book_reply := {
  success : bool;
  message : string;
  booking_id : option uuid;
  seat_number_key : json_key Z
}.

(** [result.seat_number] as a caller reads it: a number, or nothing (the
    key is absent or null). *)
Definition reply_seat_number (r : book_reply) : option Z :=
  match seat_number_key r with
  | key_value n => Some n
  | key_absent | key_null => None
  end.
Arguments reply_seat_number !_ /.

Definition no_seats_available : book_reply :=
  {| success := false;
     message := "No seats available";
     booking_id := None;
     seat_number_key := key_absent |}.

Definition booking_successful (v_booking_id : uuid) (v_seat_number : Z)
    : book_reply :=
  {| success := true;
     message := "Booking successful";
     booking_id := Some v_booking_id;
     seat_number_key := key_value v_seat_number |}.

Definition booking_failed (E : engine) (e : sql_error) : book_reply :=
  {| success := false;
     message := "Booking failed: " +:+ SQLERRM E e;
     booking_id := None;
     seat_number_key := key_absent |}.

(** [IF v_train_record.available_seats <= 0]: on the all-NULL record the
    comparison is NULL and the branch is not taken. *)
Definition seats_exhausted (v_train_record : option train) : bool :=
  match v_train_record with
  | Some t => bool_decide (available_seats t ≤ 0)
  | None => false
  end.

Definition book_seat_body (E : engine)
    (p_train_id p_user_id : option uuid) (p_passenger_name : option string)
    (p_passenger_age : option Z) (p_passenger_gender : option string)
    : plpgsql book_reply :=
  v_train_record ← select_train_for_update p_train_id;
  if seats_exhausted v_train_record then ret no_seats_available
  else
    v_seat_number ← run_statement E stmt_select_max
                      (next_seat_number p_train_id);
    v_booking_id ← run_statement E stmt_insert
                     (insert_booking E p_user_id p_train_id v_seat_number
                        p_passenger_name p_passenger_age p_passenger_gender);
    run_statement E stmt_update (decrement_available_seats E p_train_id);;
    ret (booking_successful v_booking_id v_seat_number).

Definition book_seat (E : engine)
    (p_train_id p_user_id : option uuid) (p_passenger_name : option string)
    (p_passenger_age : option Z) (p_passenger_gender : option string)
    : plpgsql book_reply :=
  exception_when_others
    (book_seat_body E p_train_id p_user_id p_passenger_name p_passenger_age
       p_passenger_gender)
    (λ e, ret (booking_failed E e)).

(** ** The gateway: values and responses *)

(** A field of a parsed JSON request body; [js_undefined] is a missing
    key. A number is an IEEE double. *)
Inductive js_value :=
  | js_undefined
  | js_null
  | js_bool (b : bool)
  | js_number (x : spec_float)
  | js_string (s : string)
  | js_object.

(** JavaScript's ToBoolean. Objects and arrays are truthy. *)
Definition truthy (v : js_value) : bool :=
  match v with
  | js_undefined | js_null => false
  | js_bool b => b
  | js_number (S754_zero _) | js_number S754_nan => false
  | js_number _ => true
  | js_string s => negb (bool_decide (s = EmptyString))
  | js_object => true
  end.

(** The bodies the routes send with [res.json]. *)
Inductive json_body :=
  | error_body (error : string)
  | error_details_body (error details : string)
  | message_body (message : string)
  | booked_body (message : string) (booking_id : option uuid)
      (seat_number : option Z)
  | trains_body (trains : list (uuid * train)) (count : nat)
  | train_body (message : string) (id : uuid) (row : train).

Record response := {
  status : nat;
  body : json_body
}.

Definition res (status : nat) (body : json_body) : response :=
  {| status := status; body := body |}.

(** ** [POST /bookings] *)

Record booking_request := {
  req_train_id : js_value;
  req_passenger_name : js_value;
  req_passenger_age : js_value;
  req_passenger_gender : js_value
}.

(** What [await supabase.rpc('book_seat', ...)] can come back with: the
    function's JSON in [data], an [error], or a rejected promise. The client
    object is created in [config/database.js]; the route is parametric in
    it. *)
Inductive rpc_outcome :=
  | rpc_data (result : book_reply)
  | rpc_error (message : string)
  | rpc_throws.

Definition rpc_client : Type :=
  uuid → booking_request → db → rpc_outcome * db.

Definition post_bookings (rpc : rpc_client) (user : uuid)
    (req : booking_request) (d : db) : response * db :=
  if negb (truthy (req_train_id req)) || negb (truthy (req_passenger_name req))
     || negb (truthy (req_passenger_age req))
     || negb (truthy (req_passenger_gender req))
  then (res 400 (error_body "All passenger details are required"), d)
  else
    match rpc user req d with
    | (rpc_error m, d') => (res 500 (error_body m), d')
    | (rpc_data result, d') =>
        if negb (success result)
        then (res 400 (error_body (message result)), d')
        else (res 201 (booked_body (message result) (booking_id result)
                         (reply_seat_number result)), d')
    | (rpc_throws, d') => (res 500 (error_body "Booking failed"), d')
    end.

(** ** [DELETE /bookings/:id] *)

(** The third request of the route,
    [update({ available_seats: supabase.raw('available_seats + 1') })].
    Its body is built by calling [raw] on the client of
    [config/database.js]. The client that supabase-js makes has no [raw]:
    with it the call throws before anything is sent, the [catch] of the
    route answers, and the counter stays as it was ([update_throws]).
    [update_applied] and [update_error] are the outcomes with a client
    that does provide [raw]: the request is sent and is applied, or comes
    back with an [error]. *)
Inductive update_outcome :=
  | update_applied
  | update_error (message : string)
  | update_throws.

(** How the storage service answers the three requests of one
    cancellation. Each request is a transaction of its own. *)
Record cancel_client := {
  fetch_error : option string;
  delete_error : option string;
  seats_update : update_outcome
}.

(** [.select('train_id').eq('id', id).eq('user_id', user_id).single()] *)
Definition fetch_booking (id user : uuid) (d : db) : option booking :=
  b ← bookings d !! id;
  if bool_decide (user_id b = Some user) then Some b else None.

Definition with_available_seats (a : Z) (t : train) : train :=
  {| train_number := train_number t;
     train_name := train_name t;
     source := source t;
     destination := destination t;
     total_seats := total_seats t;
     available_seats := a;
     departure_time := departure_time t;
     arrival_time := arrival_time t;
     journey_date := journey_date t;
     price := price t;
     created_at := created_at t;
     updated_at := updated_at t |}.

(** [available_seats + 1] on the row [id = booking.train_id]; an
    out-of-range sum is an error of the request, which changes nothing. *)
Definition increment_available_seats (t : option uuid) (d : db) : option db :=
  match t ≫= λ i, pair i <$> trains d !! i with
  | Some (i, tr) =>
      if bool_decide (available_seats tr + 1 ≤ int4_max)
      then Some (set_trains
                   (<[i := with_available_seats (available_seats tr + 1) tr]>
                      (trains d)) d)
      else None
  | None => Some d
  end.

Definition delete_booking (C : cancel_client) (id user : uuid) (d : db)
    : response * db :=
  match fetch_error C, fetch_booking id user d with
  | None, Some booking =>
      match delete_error C with
      | Some e => (res 500 (error_details_body "Failed to delete booking" e), d)
      | None =>
          let d1 := set_bookings (delete id (bookings d)) d in
          match seats_update C with
          | update_throws =>
              (res 500 (error_body "Failed to cancel booking"), d1)
          | update_error _ =>
              (res 200 (message_body "Booking cancelled successfully"), d1)
          | update_applied =>
              (res 200 (message_body "Booking cancelled successfully"),
               default d1 (increment_available_seats (train_id booking) d1))
          end
      end
  | _, _ => (res 404 (error_body "Booking not found"), d)
  end.

(** [GET /bookings/:id]: the re-query of a booking. *)
Definition get_booking (id user : uuid) (d : db) : nat :=
  match fetch_booking id user d with
  | Some _ => 200%nat
  | None => 404%nat
  end.

(** ** [PUT /trains/:id] *)

(** What a request body does to one column: leaves it out, names it with
    [null], or names it with a value. *)
Inductive assignment (A : Type) :=
  | keep
  | set_null
  | set_to (a : A).
Arguments keep {A}.
Arguments set_null {A}.
Arguments set_to {A} a.

(** The request body, which the route hands to [update()] whole, as the
    storage service reads it: an assignment to each column of [trains],
    [id] and the two timestamps among them. A body it cannot read so (a
    key that is no column, a value that is not of the column's type) is
    answered with an error and changes nothing; it has no value here. *)
Record train_updates := {
  upd_id : assignment uuid;
  upd_train_number : assignment string;
  upd_train_name : assignment string;
  upd_source : assignment string;
  upd_destination : assignment string;
  upd_total_seats : assignment Z;
  upd_available_seats : assignment Z;
  upd_departure_time : assignment Z;
  upd_arrival_time : assignment Z;
  upd_journey_date : assignment Z;
  upd_price : assignment Z;
  upd_created_at : assignment timestamptz;
  upd_updated_at : assignment timestamptz
}.

Definition is_keep {A} (a : assignment A) : bool :=
  match a with
  | keep => true
  | _ => false
  end.

(** A body that names no column: the service updates nothing and returns
    no row. *)
Definition names_no_column (u : train_updates) : bool :=
  is_keep (upd_id u) && is_keep (upd_train_number u)
  && is_keep (upd_train_name u) && is_keep (upd_source u)
  && is_keep (upd_destination u) && is_keep (upd_total_seats u)
  && is_keep (upd_available_seats u) && is_keep (upd_departure_time u)
  && is_keep (upd_arrival_time u) && is_keep (upd_journey_date u)
  && is_keep (upd_price u) && is_keep (upd_created_at u)
  && is_keep (upd_updated_at u).

(** The new value of a NOT NULL column ([None]: the constraint refuses
    it), of a NOT NULL [varchar(n)] column, and of a nullable column. *)
Definition assign {A} (old : A) (a : assignment A) : option A :=
  match a with
  | keep => Some old
  | set_null => None
  | set_to v => Some v
  end.

Definition assign_varchar (n : nat) (old : string) (a : assignment string)
    : option string :=
  match a with
  | keep => Some old
  | set_null => None
  | set_to v => coerce_varchar n v
  end.

Definition assign_nullable {A} (old : option A) (a : assignment A)
    : option A :=
  match a with
  | keep => old
  | set_null => None
  | set_to v => Some v
  end.

(** The row with the body's values in place; [None] when a NOT NULL
    column is handed [null] or a [varchar] column refuses its value. *)
Definition apply_updates (u : train_updates) (t : train) : option train :=
  number ← assign_varchar 20 (train_number t) (upd_train_number u);
  name ← assign_varchar 100 (train_name t) (upd_train_name u);
  src ← assign_varchar 100 (source t) (upd_source u);
  dest ← assign_varchar 100 (destination t) (upd_destination u);
  total ← assign (total_seats t) (upd_total_seats u);
  available ← assign (available_seats t) (upd_available_seats u);
  departs ← assign (departure_time t) (upd_departure_time u);
  arrives ← assign (arrival_time t) (upd_arrival_time u);
  day ← assign (journey_date t) (upd_journey_date u);
  rupees ← assign (price t) (upd_price u);
  Some {| train_number := number;
          train_name := name;
          source := src;
          destination := dest;
          total_seats := total;
          available_seats := available;
          departure_time := departs;
          arrival_time := arrives;
          journey_date := day;
          price := rupees;
          created_at := assign_nullable (created_at t) (upd_created_at u);
          updated_at := assign_nullable (updated_at t) (upd_updated_at u) |}.

(** The ranges of [time] (microseconds of the day, 24:00 included), of
    [date] (days from 2000-01-01, from 4713 BC to 5874897 AD) and of
    [decimal(10,2)] (hundredths, below 10^8 in size). *)
Definition time_fits (t : Z) : bool := bool_decide (0 ≤ t ≤ 86400000000).
Definition date_fits (day : Z) : bool :=
  bool_decide (-2451545 ≤ day < 2145031949).
Definition price_fits (hundredths : Z) : bool :=
  bool_decide (- 10 ^ 10 < hundredths < 10 ^ 10).

(** The column types of [trains] the new row has to fit. A row of the
    table fits them to begin with, so to check the whole new row is to
    check the values the body brings. *)
Definition train_fits (t : train) : bool :=
  bool_decide (String.length (train_number t) ≤ 20)%nat
  && bool_decide (String.length (train_name t) ≤ 100)%nat
  && bool_decide (String.length (source t) ≤ 100)%nat
  && bool_decide (String.length (destination t) ≤ 100)%nat
  && bool_decide (int4_min ≤ total_seats t ≤ int4_max)
  && bool_decide (int4_min ≤ available_seats t ≤ int4_max)
  && time_fits (departure_time t) && time_fits (arrival_time t)
  && date_fits (journey_date t) && price_fits (price t).

(** The constraints across rows, for the row [id] rewritten as [t'] under
    the id [j]: the primary key (a new id must be free), the unique index
    on [train_number], and the foreign key of [bookings.train_id], which
    has no [ON UPDATE] action (the id of a train that a booking refers to
    cannot change). *)
Definition update_allowed (d : db) (id j : uuid) (t' : train) : bool :=
  (bool_decide (j = id) || bool_decide (trains d !! j = None))
  && bool_decide (map_Forall
                    (λ k t, k = id ∨ train_number t ≠ train_number t')
                    (trains d))
  && (bool_decide (j = id)
      || bool_decide (map_Forall (λ _ b, train_id b ≠ Some id) (bookings d))).

(** The row [update(updates).eq('id', id)] writes and the id it ends up
    under; [None] when the request comes back with an error: no row with
    that id or no column named (so that [.single()] finds no row), or a
    value or a constraint that refuses the update. The table is the one
    of the first migration, on which no trigger runs. *)
Definition updated_row (id : uuid) (updates : train_updates) (d : db)
    : option (uuid * train) :=
  t ← trains d !! id;
  if names_no_column updates then None
  else
    t' ← apply_updates updates t;
    j ← assign id (upd_id updates);
    if train_fits t' && update_allowed d id j t' then Some (j, t') else None.

(** [supabaseAdmin.from('trains').update(updates).eq('id', id).select()
     .single()]; [error_message] is the text of the error the storage
    service reports. *)
Definition put_train (error_message : string) (id : uuid)
    (updates : train_updates) (d : db) : response * db :=
  match updated_row id updates d with
  | Some (j, t') =>
      (res 200 (train_body "Train updated successfully" j t'),
       set_trains (<[j := t']> (delete id (trains d))) d)
  | None => (res 400 (error_body error_message), d)
  end.

(** ** [GET /trains/search] *)

(** ILIKE. The pattern language of LIKE: [%] matches any run of characters,
    [_] any one character, a backslash makes the next character literal.
    (A pattern ending in a lone backslash is an error in PostgreSQL; the
    patterns of the route end in [%].) *)
Fixpoint like_match (p t : string) {struct p} : bool :=
  match p with
  | EmptyString => bool_decide (t = EmptyString)
  | String c p' =>
      if Ascii.eqb c "%" then
        (fix any (t : string) : bool :=
           like_match p' t
           || match t with
              | EmptyString => false
              | String _ t' => any t'
              end) t
      else if Ascii.eqb c "_" then
        match t with
        | EmptyString => false
        | String _ t' => like_match p' t'
        end
      else if Ascii.eqb c "\" then
        match p', t with
        | String c' p'', String a t' => Ascii.eqb a c' && like_match p'' t'
        | _, _ => false
        end
      else
        match t with
        | EmptyString => false
        | String a t' => Ascii.eqb a c && like_match p' t'
        end
  end.

Definition to_lower (c : ascii) : ascii :=
  let n := nat_of_ascii c in
  if (65 <=? n)%nat && (n <=? 90)%nat then ascii_of_nat (n + 32) else c.

Fixpoint string_map (f : ascii → ascii) (s : string) : string :=
  match s with
  | EmptyString => EmptyString
  | String c s' => String (f c) (string_map f s')
  end.

Definition lower : string → string := string_map to_lower.

(** The request goes through PostgREST, which reads [*] in a LIKE pattern
    as [%]. *)
Definition star (c : ascii) : ascii :=
  if Ascii.eqb c "*" then "%"%char else c.

(** [.ilike(column, pattern)], on ASCII text. *)
Definition ilike (pattern text : string) : bool :=
  like_match (lower (string_map star pattern)) (lower text).

(** A query-string parameter as Express parses it. *)
Inductive query_value :=
  | q_undefined
  | q_string (s : string)
  | q_array (items : list string)
  | q_object.

Definition q_truthy (v : query_value) : bool :=
  match v with
  | q_undefined => false
  | q_string s => negb (bool_decide (s = EmptyString))
  | q_array _ | q_object => true
  end.

Fixpoint join_comma (l : list string) : string :=
  match l with
  | [] => EmptyString
  | [s] => s
  | s :: l' => s +:+ "," +:+ join_comma l'
  end.

(** ToString, as the template literal applies it. *)
Definition q_to_string (v : query_value) : string :=
  match v with
  | q_undefined => "undefined"
  | q_string s => s
  | q_array l => join_comma l
  | q_object => "[object Object]"
  end.

(** What the storage service contributes to one search: a failure of the
    request, if any, and its reading of a date literal. *)
Record search_client := {
  search_error : option string;
  date_in : string → option Z;
  date_error : string
}.

Definition departs_before (a b : uuid * train) : Prop :=
  departure_time a.2 ≤ departure_time b.2.

#[global] Instance departs_before_dec : RelDecision departs_before.
Proof. intros a b. unfold departs_before. apply _. Defined.

(** The rows the query selects, before ordering. *)
Definition search_filter (src dest : string) (date : option Z)
    (kt : uuid * train) : bool :=
  ilike ("%" +:+ src +:+ "%") (source kt.2)
  && ilike ("%" +:+ dest +:+ "%") (destination kt.2)
  && bool_decide (0 < available_seats kt.2)
  && match date with
     | Some day => bool_decide (journey_date kt.2 = day)
     | None => true
     end.

Definition search_rows (src dest : string) (date : option Z)
    (d : db) : list (uuid * train) :=
  merge_sort departs_before
    (filter (λ kt, search_filter src dest date kt = true)
       (map_to_list (trains d))).

Definition search_trains (C : search_client)
    (source destination date : query_value) (d : db) : response :=
  if negb (q_truthy source) || negb (q_truthy destination)
  then res 400 (error_body "Source and destination are required")
  else
    let day := if q_truthy date then Some (date_in C (q_to_string date))
               else None in
    match search_error C, day with
    | Some e, _ => res 500 (error_body e)
    | None, Some None => res 500 (error_body (date_error C))
    | None, Some (Some day) =>
        let rows := search_rows (q_to_string source) (q_to_string destination)
                      (Some day) d in
        res 200 (trains_body rows (length rows))
    | None, None =>
        let rows := search_rows (q_to_string source) (q_to_string destination)
                      None d in
        res 200 (trains_body rows (length rows))
    end.

(** ** The system: requests that change the database *)

(** The two writers of the booking/seat-count pair: a call of [book_seat]
    (under any engine, with any arguments) and a cancellation (with any
    answers of the storage service). *)
Inductive request :=
  | call_book_seat (E : engine) (p_train_id p_user_id : option uuid)
      (p_passenger_name : option string) (p_passenger_age : option Z)
      (p_passenger_gender : option string)
  | call_delete_booking (C : cancel_client) (id user : uuid).

Definition state_of {A} (o : outcome A) (d : db) : db :=
  match o with
  | Done _ d' => d'
  | Raise _ => d
  end.

Definition reply_of {A} (o : outcome A) : option A :=
  match o with
  | Done a _ => Some a
  | Raise _ => None
  end.

Definition after (r : request) (d : db) : db :=
  match r with
  | call_book_seat E t u n a g => state_of (book_seat E t u n a g d) d
  | call_delete_booking C id user => (delete_booking C id user d).2
  end.

(** A run of requests, oldest first. *)
Definition run (rs : list request) (d : db) : db :=
  foldl (λ d r, after r d) d rs.


(** Calls of [book_seat] for one train, served one after the other. *)
Record call := {
  call_engine : engine;
  call_user : option uuid;
  call_name : option string;
  call_age : option Z;
  call_gender : option string
}.

Fixpoint book_in_turn (i : uuid) (cs : list call) (d : db)
    : list book_reply * db :=
  match cs with
  | [] => ([], d)
  | c :: cs' =>
      match book_seat (call_engine c) (Some i) (call_user c) (call_name c)
              (call_age c) (call_gender c) d with
      | Done r d' =>
          let (rs, d'') := book_in_turn i cs' d' in (r :: rs, d'')
      | Raise _ => ([], d)
      end
  end.

(** A database as the migration leaves it: no bookings yet, and every
    train's counter within its capacity. *)
Definition fresh (d : db) : Prop :=
  bookings d = ∅ ∧
  ∀ i t, trains d !! i = Some t → 0 ≤ available_seats t ≤ total_seats t.

Inductive reachable : db → Prop :=
  | reachable_fresh d : fresh d → reachable d
  | reachable_after r d : reachable d → reachable (after r d).

(** The administrator's update is a third writer. *)
Inductive reachable_with_admin : db → Prop :=
  | admin_fresh d : fresh d → reachable_with_admin d
  | admin_after r d : reachable_with_admin d → reachable_with_admin (after r d)
  | admin_put m id u d :
      reachable_with_admin d → reachable_with_admin (put_train m id u d).2.

(** ** Properties of states *)

(** The live bookings of a train: its rows with status [confirmed]. *)
Definition live_bookings (t : uuid) (d : db) : gmap uuid booking :=
  filter (λ kb, booking_status kb.2 = Some "confirmed"%string)
    (bookings_of (Some t) (bookings d)).

Definition seats_distinct (bs : gmap uuid booking) : Prop :=
  ∀ i j b1 b2, bs !! i = Some b1 → bs !! j = Some b2 →
    seat_number b1 = seat_number b2 → i = j.

(** Seat uniqueness, as the schema and the allocator promise it: on every
    train the live bookings hold pairwise distinct seat numbers, and there
    are no more of them than the train has seats. *)
Definition seat_uniqueness (d : db) : Prop :=
  ∀ i t, trains d !! i = Some t →
    seats_distinct (live_bookings i d) ∧
    Z.of_nat (size (live_bookings i d)) ≤ total_seats t.

Definition seats_within_bounds (d : db) : Prop :=
  ∀ i t, trains d !! i = Some t → 0 ≤ available_seats t ≤ total_seats t.

(** The inductive strengthening: the counter is never negative, and live
    bookings plus free seats never exceed the capacity. *)
Definition seats_accounted (d : db) : Prop :=
  ∀ i t, trains d !! i = Some t →
    0 ≤ available_seats t ∧
    Z.of_nat (size (bookings_of (Some i) (bookings d))) + available_seats t
      ≤ total_seats t.

(** The invariant the two operations keep. *)
Definition consistent (d : db) : Prop :=
  seats_accounted d ∧ ∀ t, seats_distinct (bookings_of t (bookings d)).

(** How one request may move the counter of a train. *)
Definition counter_step (r : request) (t t' : train) : Prop :=
  total_seats t' = total_seats t ∧
  match r with
  | call_book_seat _ _ _ _ _ _ =>
      available_seats t' = available_seats t
      ∨ (0 < available_seats t ∧ available_seats t' = available_seats t - 1)
  | call_delete_booking _ _ _ =>
      available_seats t' = available_seats t
      ∨ available_seats t' = available_seats t + 1
  end.

(** ** Properties of calls *)

(** The next seat number in the spec's words: one more than the maximum
    seat number currently assigned on the train, or 1 if the train has no
    bookings yet. *)
Definition is_next_seat_number (i : uuid) (bs : gmap uuid booking) (n : Z)
    : Prop :=
  (n = 1 ∧ ∀ j b, bs !! j = Some b → train_id b ≠ Some i)
  ∨ ((∃ j b, bs !! j = Some b ∧ train_id b = Some i ∧ seat_number b + 1 = n)
     ∧ ∀ j b, bs !! j = Some b → train_id b = Some i → seat_number b + 1 ≤ n).

(** What a successful call of [book_seat] on train [i] has done. *)
Definition book_seat_postcondition (E : engine) (i : uuid)
    (p_user_id : option uuid) (p_passenger_name : option string)
    (p_passenger_age : option Z) (p_passenger_gender : option string)
    (d : db) (r : book_reply) (d' : db) : Prop :=
  ∃ tr name age gender n,
    let id := gen_random_uuid E in
    trains d !! i = Some tr ∧
    p_passenger_name = Some name ∧ p_passenger_age = Some age ∧
    p_passenger_gender = Some gender ∧
    is_next_seat_number i (bookings d) n ∧
    bookings d !! id = None ∧
    bookings d'
    = <[id := {| user_id := p_user_id;
                 train_id := Some i;
                 seat_number := n;
                 booking_status := Some "confirmed"%string;
                 passenger_name := name;
                 passenger_age := age;
                 passenger_gender := gender;
                 booking_date := Some (now E);
                 booking_created_at := Some (now E) |}]> (bookings d) ∧
    trains d'
    = <[i := {| train_number := train_number tr;
                train_name := train_name tr;
                source := source tr;
                destination := destination tr;
                total_seats := total_seats tr;
                available_seats := available_seats tr - 1;
                departure_time := departure_time tr;
                arrival_time := arrival_time tr;
                journey_date := journey_date tr;
                price := price tr;
                created_at := created_at tr;
                updated_at := Some (now E) |}]> (trains d) ∧
    auth_users d' = auth_users d ∧
    r = {| success := true;
           message := "Booking successful";
           booking_id := Some id;
           seat_number_key := key_value n |}.

(** The same, of the name and the gender as their columns store them. *)
Definition book_seat_postcondition_stored (E : engine) (i : uuid)
    (p_user_id : option uuid) (p_passenger_name : option string)
    (p_passenger_age : option Z) (p_passenger_gender : option string)
    (d : db) (r : book_reply) (d' : db) : Prop :=
  ∃ name gender,
    stored 100 p_passenger_name = Some name ∧
    stored 10 p_passenger_gender = Some gender ∧
    book_seat_postcondition E i p_user_id (Some name) p_passenger_age
      (Some gender) d r d'.

(** An error [e] arising in the seat-number computation, the insert or the
    counter update of one call of [book_seat]: the statement that raises
    it, and the state it has reached by then. *)
Definition error_in_steps (E : engine)
    (p_train_id p_user_id : option uuid) (p_passenger_name : option string)
    (p_passenger_age : option Z) (p_passenger_gender : option string)
    (d : db) (e : sql_error) : Prop :=
  seats_exhausted (p_train_id ≫= λ i, trains d !! i) = false ∧
  (run_statement E stmt_select_max (next_seat_number p_train_id) d = Raise e
   ∨ ∃ n d1,
       run_statement E stmt_select_max (next_seat_number p_train_id) d
         = Done n d1 ∧
       (run_statement E stmt_insert
          (insert_booking E p_user_id p_train_id n p_passenger_name
             p_passenger_age p_passenger_gender) d1 = Raise e
        ∨ ∃ id d2,
            run_statement E stmt_insert
              (insert_booking E p_user_id p_train_id n p_passenger_name
                 p_passenger_age p_passenger_gender) d1 = Done id d2 ∧
            run_statement E stmt_update
              (decrement_available_seats E p_train_id) d2 = Raise e)).

(** A call that no statement of its own would reject, the foreign key on
    [train_id] aside: no injected fault, passenger fields present and within
    their columns, a fresh id, a known user, a seat number in range. *)
Definition acceptable_call (E : engine) (t : option uuid)
    (p_user_id : option uuid) (p_passenger_name : option string)
    (p_passenger_age : option Z) (p_passenger_gender : option string)
    (d : db) : Prop :=
  (∀ s, fault E s = None) ∧
  (∃ name, p_passenger_name = Some name ∧ (String.length name ≤ 100)%nat) ∧
  is_Some p_passenger_age ∧
  (∃ gender, p_passenger_gender = Some gender
             ∧ (String.length gender ≤ 10)%nat) ∧
  bookings d !! gen_random_uuid E = None ∧
  (∀ u, p_user_id = Some u → u ∈ auth_users d) ∧
  COALESCE (max_seat_number t (bookings d)) 0 + 1 ≤ int4_max ∧
  int4_min ≤ COALESCE (max_seat_number t (bookings d)) 0 + 1.

(** A reply that reports a missing train: a failure whose message says
    [not found], in any letter case. *)
Definition not_found_reply (r : book_reply) : bool :=
  negb (success r) && ilike "%not found%" (message r).

(** The falsy values of JavaScript that a JSON body can carry, and the
    missing key. *)
Inductive js_falsy : js_value → Prop :=
  | falsy_missing : js_falsy js_undefined
  | falsy_null : js_falsy js_null
  | falsy_false : js_falsy (js_bool false)
  | falsy_zero negative : js_falsy (js_number (S754_zero negative))
  | falsy_nan : js_falsy (js_number S754_nan)
  | falsy_empty : js_falsy (js_string EmptyString).

(** ** Properties of searches *)

(** A search term without pattern characters. *)
Definition pattern_char (c : ascii) : bool :=
  Ascii.eqb c "%" || Ascii.eqb c "_" || Ascii.eqb c "\" || Ascii.eqb c "*".

Fixpoint plain (s : string) : bool :=
  match s with
  | EmptyString => true
  | String c s' => negb (pattern_char c) && plain s'
  end.

(** [needle] occurs in [hay] as a substring; and the same, letter case
    aside. *)
Fixpoint starts_with (needle hay : string) : bool :=
  match needle, hay with
  | EmptyString, _ => true
  | String a needle', String b hay' => Ascii.eqb b a && starts_with needle' hay'
  | String _ _, EmptyString => false
  end.

Fixpoint occurs_in (needle hay : string) : bool :=
  starts_with needle hay
  || match hay with
     | EmptyString => false
     | String _ hay' => occurs_in needle hay'
     end.

Definition contains_ci (needle hay : string) : bool :=
  occurs_in (lower needle) (lower hay).

(** The trains a response carries. *)
Definition trains_found (r : response) : list (uuid * train) :=
  match body r with
  | trains_body rows _ => rows
  | _ => []
  end.

(** The rows the spec expects of a search: seats left, both terms found
    in their columns as substrings, the day if one was asked for. *)
Definition search_expected (C : search_client)
    (src dest date : query_value) (t : train) : Prop :=
  0 < available_seats t ∧
  contains_ci (q_to_string src) (source t) = true ∧
  contains_ci (q_to_string dest) (destination t) = true ∧
  (q_truthy date = true →
   date_in C (q_to_string date) = Some (journey_date t)).

(** ** The sample data of the migration *)

Definition clock (h m : Z) : Z := (h * 60 + m) * 60 * 1000000.

Definition sample_train (number name src dest : string) (seats : Z)
    (departs arrives day rupees : Z) : train :=
  {| train_number := number;
     train_name := name;
     source := src;
     destination := dest;
     total_seats := seats;
     available_seats := seats;
     departure_time := departs;
     arrival_time := arrives;
     journey_date := day;
     price := rupees * 100;
     created_at := Some 0;
     updated_at := Some 0 |}.

Definition jan_15 : Z := 9146.
Definition jan_16 : Z := 9147.

Definition rajdhani : train :=
  sample_train "12345" "Rajdhani Express" "Delhi" "Mumbai" 100
    (clock 6 0) (clock 20 0) jan_15 2500.
Definition shatabdi : train :=
  sample_train "67890" "Shatabdi Express" "Delhi" "Chandigarh" 80
    (clock 7 0) (clock 11 0) jan_15 800.
Definition duronto : train :=
  sample_train "11111" "Duronto Express" "Mumbai" "Kolkata" 120
    (clock 22 0) (clock 18 0) jan_16 3200.
Definition garib_rath : train :=
  sample_train "22222" "Garib Rath" "Delhi" "Kolkata" 90
    (clock 23 0) (clock 17 0) jan_16 1800.
Definition humsafar : train :=
  sample_train "33333" "Humsafar Express" "Mumbai" "Delhi" 100
    (clock 5 30) (clock 19 30) jan_15 2800.

(** The five sample trains under ids 1 to 5, no bookings, users 7 and 8. *)
Definition sample_db : db :=
  {| trains := {[ 1%N := rajdhani; 2%N := shatabdi; 3%N := duronto;
                  4%N := garib_rath; 5%N := humsafar ]};
     bookings := ∅;
     auth_users := {[ 7%N; 8%N ]} |}.

(** PostgreSQL's wording of the primary message of each error. *)
Definition quoted (s : string) : string :=
  String (ascii_of_nat 34) s +:+ String (ascii_of_nat 34) EmptyString.

Definition pg_errm (e : sql_error) : string :=
  match e with
  | numeric_value_out_of_range => "integer out of range"
  | string_data_right_truncation n =>
      "value too long for type character varying(" +:+ pretty n +:+ ")"
  | not_null_violation c =>
      "null value in column " +:+ quoted c +:+ " of relation "
      +:+ quoted "bookings" +:+ " violates not-null constraint"
  | unique_violation c =>
      "duplicate key value violates unique constraint " +:+ quoted c
  | foreign_key_violation c =>
      "insert or update on table " +:+ quoted "bookings"
      +:+ " violates foreign key constraint " +:+ quoted c
  | storage_fault state => state
  end.

(** An engine that draws [id] and injects no fault. *)
Definition pg (id : uuid) : engine :=
  {| gen_random_uuid := id; now := 1; SQLERRM := pg_errm; fault := λ _, None |}.


(** A storage service that answers every request of a cancellation,
    behind a client that provides [raw] and so gets the third request
    sent. *)
Definition storage_ok : cancel_client :=
  {| fetch_error := None; delete_error := None; seats_update := update_applied |}.

(** One whose counter update comes back with an error. *)
Definition storage_update_fails : cancel_client :=
  {| fetch_error := None; delete_error := None;
     seats_update := update_error "connection reset" |}.

(** One behind the client of supabase-js, which throws on the counter
    update. *)
Definition storage_update_throws : cancel_client :=
  {| fetch_error := None; delete_error := None; seats_update := update_throws |}.

Definition asha (E : engine) (t : uuid) : request :=
  call_book_seat E (Some t) (Some 7%N) (Some "Asha"%string) (Some 34)
    (Some "Female"%string).

Definition passenger (id : uuid) (name : string) : call :=
  {| call_engine := pg id;
     call_user := Some 7%N;
     call_name := Some name;
     call_age := Some 30;
     call_gender := Some "Other"%string |}.

Fixpoint string_repeat (c : ascii) (n : nat) : string :=
  match n with
  | O => EmptyString
  | S n' => String c (string_repeat c n')
  end.

(** A name of 100 letters and a space: one character more than the
    column [passenger_name] holds. *)
Definition long_name : string := string_repeat "a" 100 +:+ " ".

(** The sample data after Asha's booking, under id 10, on the Rajdhani
    Express. *)
Definition one_booking_db : db := after (asha (pg 10) 1) sample_db.

(** A body that names no column. *)
Definition no_updates : train_updates :=
  {| upd_id := keep;
     upd_train_number := keep;
     upd_train_name := keep;
     upd_source := keep;
     upd_destination := keep;
     upd_total_seats := keep;
     upd_available_seats := keep;
     upd_departure_time := keep;
     upd_arrival_time := keep;
     upd_journey_date := keep;
     upd_price := keep;
     upd_created_at := keep;
     upd_updated_at := keep |}.

(** An update that names [available_seats] only. *)
Definition only_available_seats (a : Z) : train_updates :=
  {| upd_id := keep;
     upd_train_number := keep;
     upd_train_name := keep;
     upd_source := keep;
     upd_destination := keep;
     upd_total_seats := keep;
     upd_available_seats := set_to a;
     upd_departure_time := keep;
     upd_arrival_time := keep;
     upd_journey_date := keep;
     upd_price := keep;
     upd_created_at := keep;
     upd_updated_at := keep |}.

(** An update that names [total_seats] only. *)
Definition only_total_seats (n : Z) : train_updates :=
  {| upd_id := keep;
     upd_train_number := keep;
     upd_train_name := keep;
     upd_source := keep;
     upd_destination := keep;
     upd_total_seats := set_to n;
     upd_available_seats := keep;
     upd_departure_time := keep;
     upd_arrival_time := keep;
     upd_journey_date := keep;
     upd_price := keep;
     upd_created_at := keep;
     upd_updated_at := keep |}.

(** The Rajdhani Express with no seat left. *)
Definition sold_out_db : db :=
  (put_train "" 1 (only_available_seats 0) sample_db).2.

(** A train with a single seat: the Rajdhani Express cut down to one. *)
Definition one_seat_db : db :=
  (put_train "" 1 (only_available_seats 1)
     (put_train "" 1 (only_total_seats 1) sample_db).2).2.

(** A client that books whatever it is handed. *)
Definition eager_rpc : rpc_client :=
  λ user req d,
    match book_seat (pg 10) (Some 1%N) (Some user) (Some "Asha"%string)
            (Some 34) (Some "Female"%string) d with
    | Done r d' => (rpc_data r, d')
    | Raise _ => (rpc_throws, d)
    end.

Definition age_zero_request : booking_request :=
  {| req_train_id := js_string "1";
     req_passenger_name := js_string "Asha";
     req_passenger_age := js_number (S754_zero false);
     req_passenger_gender := js_string "Female" |}.

(** A storage service that answers the search and reads no dates. *)
Definition search_ok : search_client :=
  {| search_error := None; date_in := λ _, None; date_error := "invalid date" |}.

(** * The rest of the routes and of the migrations *)

(** ** Profiles and the signup trigger *)

(** [profiles], without its primary key [id]. *)
Record profile := {
  full_name : option string;
  phone : option string;
  is_admin : option bool;
  profile_created_at : option timestamptz;
  profile_updated_at : option timestamptz
}.

(** The row [INSERT INTO public.profiles (id, full_name)] writes: the other
    columns take their defaults. *)
Definition signup_profile (now : timestamptz) (name : option string)
    : profile :=
  {| full_name := name;
     phone := None;
     is_admin := Some false;
     profile_created_at := Some now;
     profile_updated_at := Some now |}.

(** [full_name] is a nullable [varchar(100)]: what the column stores for
    the name handed in, [None] when it refuses it. *)
Definition full_name_stored (name : option string) : option (option string) :=
  match name with
  | Some s => Some <$> coerce_varchar 100 s
  | None => Some None
  end.

(** [handle_new_user], run after a row [id] has gone into [auth.users];
    [name] is [new.raw_user_meta_data->>'full_name']. [None] is an error,
    which undoes the signup. *)
Definition handle_new_user (now : timestamptz) (id : uuid)
    (name : option string) (profiles : gmap uuid profile)
    : option (gmap uuid profile) :=
  name' ← full_name_stored name;
  if bool_decide (profiles !! id = None)
  then Some (<[id := signup_profile now name']> profiles)
  else None.

(** ** [book_seat] and the trigger, as the schema-update migration redefines them *)

(** The later migration creates [book_seat] again, with a check that the
    train exists before the check for seats, with [booking_status]
    written out in the insert, and with a key [seat_number] in every
    object it returns. It runs on the tables as the first migration made
    them: its [ADD COLUMN] and [CREATE TABLE] statements apply only where
    a column or table is missing. *)

(** A reply with the key [seat_number] brought in, as [null], where it is
    absent. *)
Definition with_seat_number_key (r : book_reply) : book_reply :=
  {| success := success r;
     message := message r;
     booking_id := booking_id r;
     seat_number_key := match seat_number_key r with
                        | key_absent => key_null
                        | k => k
                        end |}.
Module schema_update.

(** The failure objects of this version carry [seat_number: null]. *)
Definition train_not_found : book_reply :=
  {| success := false;
     message := "Train not found";
     booking_id := None;
     seat_number_key := key_null |}.

Definition no_seats_available : book_reply :=
  {| success := false;
     message := "No seats available";
     booking_id := None;
     seat_number_key := key_null |}.

Definition booking_failed (E : engine) (e : sql_error) : book_reply :=
  {| success := false;
     message := "Booking failed: " +:+ SQLERRM E e;
     booking_id := None;
     seat_number_key := key_null |}.

(** [IF v_train_record.id IS NULL]: no row was selected. *)
Definition book_seat_body (E : engine)
    (p_train_id p_user_id : option uuid) (p_passenger_name : option string)
    (p_passenger_age : option Z) (p_passenger_gender : option string)
    : plpgsql book_reply :=
  v_train_record ← select_train_for_update p_train_id;
  match v_train_record with
  | None => ret train_not_found
  | Some _ =>
      if seats_exhausted v_train_record then ret no_seats_available
      else
        v_seat_number ← run_statement E stmt_select_max
                          (next_seat_number p_train_id);
        v_booking_id ← run_statement E stmt_insert
                         (insert_booking E p_user_id p_train_id v_seat_number
                            p_passenger_name p_passenger_age
                            p_passenger_gender);
        run_statement E stmt_update
          (decrement_available_seats E p_train_id);;
        ret (booking_successful v_booking_id v_seat_number)
  end.

Definition book_seat (E : engine)
    (p_train_id p_user_id : option uuid) (p_passenger_name : option string)
    (p_passenger_age : option Z) (p_passenger_gender : option string)
    : plpgsql book_reply :=
  exception_when_others
    (book_seat_body E p_train_id p_user_id p_passenger_name p_passenger_age
       p_passenger_gender)
    (λ e, ret (booking_failed E e)).

(** [handle_new_user] with [ON CONFLICT (id) DO NOTHING]. The value is
    coerced to the column before the conflict is looked for. *)
Definition handle_new_user (now : timestamptz) (id : uuid)
    (name : option string) (profiles : gmap uuid profile)
    : option (gmap uuid profile) :=
  name' ← full_name_stored name;
  Some (match profiles !! id with
        | Some _ => profiles
        | None => <[id := signup_profile now name']> profiles
        end).

End schema_update.

(** ** [POST /bookings] over the function *)

(** A client that runs [book_seat] in the database, under the engine [E]
    of that call. [args] is the storage service's reading of the JSON
    parameters as SQL values; [p_user_id] is [req.user.id]. A parameter it
    cannot read as the type [book_seat] declares (a [train_id] that is not
    a uuid, an age that is not an integer) is [inl] with the message of
    the error: the function is not called and the message comes back in
    [error]. So does an error that escapes the function. *)
Definition book_seat_rpc (E : engine)
    (args : booking_request
            → string
              + (option uuid * option string * option Z * option string))
    : rpc_client :=
  λ user req d,
    match args req with
    | inl message => (rpc_error message, d)
    | inr (p_train_id, p_passenger_name, p_passenger_age,
           p_passenger_gender) =>
        match book_seat E p_train_id (Some user) p_passenger_name
                p_passenger_age p_passenger_gender d with
        | Done result d' => (rpc_data result, d')
        | Raise e => (rpc_error (SQLERRM E e), d)
        end
    end.

(** ** The read routes of [bookings.js] *)

(** The columns of [trains] that the booking queries embed. *)
Record train_details := {
  details_train_number : string;
  details_train_name : string;
  details_source : string;
  details_destination : string;
  details_departure_time : Z;
  details_arrival_time : Z;
  details_journey_date : Z;
  details_price : Z
}.

Definition details_of (t : train) : train_details :=
  {| details_train_number := train_number t;
     details_train_name := train_name t;
     details_source := source t;
     details_destination := destination t;
     details_departure_time := departure_time t;
     details_arrival_time := arrival_time t;
     details_journey_date := journey_date t;
     details_price := price t |}.

(** A row of [bookings] with its id and the embedded [trains] object, which
    is null when the row has no train. *)
Record booking_view := {
  view_id : uuid;
  view_row : booking;
  view_trains : option train_details
}.

Definition embed_trains (d : db) (kb : uuid * booking) : booking_view :=
  {| view_id := kb.1;
     view_row := kb.2;
     view_trains := details_of <$> (train_id kb.2 ≫= λ i, trains d !! i) |}.

(** How the storage service answers the query of a read route: with the
    rows, with an [error], or not at all (the client throws). *)
Inductive read_answer :=
  | rows_sent
  | error_sent (message : string)
  | read_throws.

(** What the read routes send. *)
Inductive read_body :=
  | read_error (error : string)
  | bookings_list (rows : list booking_view)
  | booking_item (row : booking_view)
  | trains_list (rows : list (uuid * train))
  | train_item (row : uuid * train).

(** [.order('created_at', { ascending: false })]: descending, and in
    descending order PostgreSQL puts NULLs first. *)
Definition newest_first (a b : booking_view) : Prop :=
  match booking_created_at (view_row a), booking_created_at (view_row b) with
  | None, _ => True
  | Some _, None => False
  | Some x, Some y => y ≤ x
  end.

#[global] Instance newest_first_dec : RelDecision newest_first.
Proof.
  intros a b. unfold newest_first.
  destruct (booking_created_at (view_row a)),
    (booking_created_at (view_row b)); apply _.
Defined.

(** [GET /bookings/my-bookings] *)
Definition my_bookings (answer : read_answer) (user : uuid) (d : db)
    : nat * read_body :=
  match answer with
  | read_throws => (500%nat, read_error "Failed to fetch bookings")
  | error_sent e => (500%nat, read_error e)
  | rows_sent =>
      (200%nat,
       bookings_list
         (merge_sort newest_first
            (embed_trains d <$>
               filter (λ kb, user_id kb.2 = Some user)
                 (map_to_list (bookings d)))))
  end.

(** [GET /bookings/:id]: [.single()] reports an error when no row matches,
    and every error is answered 404. *)
Definition booking_by_id (answer : read_answer) (id user : uuid) (d : db)
    : nat * read_body :=
  match answer, fetch_booking id user d with
  | read_throws, _ => (500%nat, read_error "Failed to fetch booking")
  | rows_sent, Some b => (200%nat, booking_item (embed_trains d (id, b)))
  | _, _ => (404%nat, read_error "Booking not found")
  end.

(** ** The read routes of [trains.js] *)

(** [GET /trains] *)
Definition list_trains (answer : read_answer) (d : db) : nat * read_body :=
  match answer with
  | read_throws => (500%nat, read_error "Failed to fetch trains")
  | error_sent e => (500%nat, read_error e)
  | rows_sent =>
      (200%nat, trains_list (merge_sort departs_before (map_to_list (trains d))))
  end.

(** [GET /trains/:id]: every error, a missing row among them, is answered
    404. [id] is [None] when the path segment is not a uuid, which is an
    error of the query. *)
Definition train_by_id (answer : read_answer) (id : option uuid) (d : db)
    : nat * read_body :=
  match answer, id ≫= λ i, pair i <$> trains d !! i with
  | read_throws, _ => (500%nat, read_error "Failed to fetch train")
  | rows_sent, Some row => (200%nat, train_item row)
  | _, _ => (404%nat, read_error "Train not found")
  end.

(** The handler registered for [GET /trains/today]; [today] is the day
    [new Date().toISOString().split('T')[0]] names. *)
Definition trains_today (answer : read_answer) (today : Z) (d : db)
    : nat * read_body :=
  match answer with
  | read_throws => (500%nat, read_error "Failed to fetch today's trains")
  | error_sent e => (500%nat, read_error e)
  | rows_sent =>
      (200%nat,
       trains_list
         (merge_sort departs_before
            (filter (λ kt, journey_date kt.2 = today ∧ 0 < available_seats kt.2)
               (map_to_list (trains d)))))
  end.

(** The rows a response lists. *)
Definition bookings_listed (r : nat * read_body) : list booking_view :=
  match r.2 with
  | bookings_list rows => rows
  | _ => []
  end.

Definition trains_listed (r : nat * read_body) : list (uuid * train) :=
  match r.2 with
  | trains_list rows => rows
  | _ => []
  end.

(** ** Routing *)

Inductive http_method := GET | POST | PUT | DELETE.

#[global] Instance http_method_eq_dec : EqDecision http_method.
Proof. solve_decision. Defined.

(** A segment of a route path: a literal, or a named parameter [:name]. *)
Inductive segment :=
  | literal (s : string)
  | parameter (name : string).

(** A router matches literals without regard to letter case; a parameter
    takes any non-empty segment. *)
Definition segment_match (p : segment) (s : string)
    : option (list (string * string)) :=
  match p with
  | literal l => if bool_decide (lower l = lower s) then Some [] else None
  | parameter name =>
      if bool_decide (s = EmptyString) then None else Some [(name, s)]
  end.

Fixpoint path_match (pattern : list segment) (path : list string)
    : option (list (string * string)) :=
  match pattern, path with
  | [], [] => Some []
  | p :: pattern', s :: path' =>
      params ← segment_match p s;
      rest ← path_match pattern' path';
      Some (params ++ rest)
  | _, _ => None
  end.

Record route (H : Type) := {
  route_method : http_method;
  route_path : list segment;
  route_handler : H
}.
Arguments route_method {H} _.
Arguments route_path {H} _.
Arguments route_handler {H} _.

(** Routes are tried in the order of their registration; the handlers of
    these routers all answer the request, so the first match serves it.
    [path] is the request path below the router's mount point, as its
    segments between the slashes (a closing slash aside). *)
Fixpoint dispatch {H} (routes : list (route H)) (m : http_method)
    (path : list string) : option (H * list (string * string)) :=
  match routes with
  | [] => None
  | r :: routes' =>
      if bool_decide (route_method r = m) then
        match path_match (route_path r) path with
        | Some params => Some (route_handler r, params)
        | None => dispatch routes' m path
        end
      else dispatch routes' m path
  end.

Inductive trains_handler :=
  | search_handler
  | list_handler
  | by_id_handler
  | add_handler
  | update_handler
  | today_handler.

(** [trains.js], in the order of its [router.get], [router.post] and
    [router.put] calls. *)
Definition trains_router : list (route trains_handler) :=
  [ {| route_method := GET; route_path := [literal "search"];
       route_handler := search_handler |};
    {| route_method := GET; route_path := [];
       route_handler := list_handler |};
    {| route_method := GET; route_path := [parameter "id"];
       route_handler := by_id_handler |};
    {| route_method := POST; route_path := [];
       route_handler := add_handler |};
    {| route_method := PUT; route_path := [parameter "id"];
       route_handler := update_handler |};
    {| route_method := GET; route_path := [literal "today"];
       route_handler := today_handler |} ].

Inductive bookings_handler :=
  | book_handler
  | my_bookings_handler
  | booking_by_id_handler
  | cancel_handler.

(** [bookings.js] *)
Definition bookings_router : list (route bookings_handler) :=
  [ {| route_method := POST; route_path := [];
       route_handler := book_handler |};
    {| route_method := GET; route_path := [literal "my-bookings"];
       route_handler := my_bookings_handler |};
    {| route_method := GET; route_path := [parameter "id"];
       route_handler := booking_by_id_handler |};
    {| route_method := DELETE; route_path := [parameter "id"];
       route_handler := cancel_handler |} ].

(** A route that some request reaches. *)
Definition reachable_route {H} (routes : list (route H)) (h : H) : Prop :=
  ∃ m path params, dispatch routes m path = Some (h, params).

(** ** [GET /auth/profile] *)

(** [s.split(sep)] for a one-character separator. *)
Fixpoint js_split (sep : ascii) (s : string) : list string :=
  match s with
  | EmptyString => [EmptyString]
  | String c s' =>
      if Ascii.eqb c sep then EmptyString :: js_split sep s'
      else match js_split sep s' with
           | piece :: pieces => String c piece :: pieces
           | [] => [String c EmptyString]
           end
  end.

Definition nonempty (s : string) : bool :=
  negb (bool_decide (s = EmptyString)).

(** [authHeader && authHeader.split(' ')[1]], when it is truthy; [None] is
    the case the route answers 401. *)
Definition access_token (authorization : option string) : option string :=
  h ← authorization;
  if nonempty h then
    t ← js_split " " h !! 1%nat;
    if nonempty t then Some t else None
  else None.

Inductive profile_body :=
  | profile_error (error : string)
  | profile_found (user : uuid) (row : option profile).

(** What [supabase.auth.getUser] makes of a token: the user it belongs
    to, an error or no user, or a throw. *)
Inductive token_answer :=
  | token_user (user : uuid)
  | token_invalid
  | token_throws.

(** The profile is read with [.single()]; when the read comes back with an
    error its [data] is null, and the route sends that. *)
Definition auth_profile (get_user : string → token_answer)
    (answer : read_answer) (profiles : gmap uuid profile)
    (authorization : option string) : nat * profile_body :=
  match access_token authorization with
  | None => (401%nat, profile_error "Access token required")
  | Some token =>
      match get_user token, answer with
      | token_throws, _ | token_user _, read_throws =>
          (500%nat, profile_error "Failed to get profile")
      | token_invalid, _ => (403%nat, profile_error "Invalid token")
      | token_user user, error_sent _ => (200%nat, profile_found user None)
      | token_user user, rows_sent =>
          (200%nat, profile_found user (profiles !! user))
      end
  end.

(** ** The sample rows of the migration *)

Definition has_train_number (number : string) (ts : gmap uuid train) : bool :=
  bool_decide (map_Exists (λ _ t, train_number t = number) ts).

Definition stamped (now : timestamptz) (t : train) : train :=
  {| train_number := train_number t;
     train_name := train_name t;
     source := source t;
     destination := destination t;
     total_seats := total_seats t;
     available_seats := available_seats t;
     departure_time := departure_time t;
     arrival_time := arrival_time t;
     journey_date := journey_date t;
     price := price t;
     created_at := Some now;
     updated_at := Some now |}.

(** [INSERT INTO trains ... VALUES ... ON CONFLICT (train_number) DO
    NOTHING], row by row: a row whose [train_number] is taken is skipped;
    the others go in under the ids the engine draws ([gen k] for the k-th
    row), and an id that is taken fails the statement. *)
Fixpoint insert_or_skip (now : timestamptz) (gen : nat → uuid) (k : nat)
    (rows : list train) (ts : gmap uuid train) : option (gmap uuid train) :=
  match rows with
  | [] => Some ts
  | t :: rows' =>
      if has_train_number (train_number t) ts
      then insert_or_skip now gen (S k) rows' ts
      else if bool_decide (ts !! gen k = None)
           then insert_or_skip now gen (S k) rows'
                  (<[gen k := stamped now t]> ts)
           else None
  end.

Definition sample_rows : list train :=
  [rajdhani; shatabdi; duronto; garib_rath; humsafar].

(** The statement fails as a whole: [None] leaves the database as it was. *)
Definition seed_trains (now : timestamptz) (gen : nat → uuid) (d : db)
    : option db :=
  ts ← insert_or_skip now gen 0 sample_rows (trains d);
  Some (set_trains ts d).

(** ** The pages: what the forms send *)

(** Strings are sequences of code units below 256. Among those,
    [parseInt] skips the white space and line terminators 9 to 13, 32 and
    160. *)
Definition js_white_space (c : ascii) : bool :=
  let n := nat_of_ascii c in
  ((9 <=? n)%nat && (n <=? 13)%nat) || (n =? 32)%nat || (n =? 160)%nat.

Fixpoint trim_start (s : string) : string :=
  match s with
  | EmptyString => EmptyString
  | String c s' => if js_white_space c then trim_start s' else s
  end.

(** The value of a digit: [0]-[9], then [a]-[z] or [A]-[Z] for 10 to 35. *)
Definition digit_value (c : ascii) : option Z :=
  let n := Z.of_nat (nat_of_ascii c) in
  if (48 <=? n) && (n <=? 57) then Some (n - 48)
  else if (97 <=? n) && (n <=? 122) then Some (n - 87)
  else if (65 <=? n) && (n <=? 90) then Some (n - 55)
  else None.

(** The longest prefix of digits below [radix], read as a number; [acc] is
    what has been read so far, [None] when that is nothing. *)
Fixpoint read_digits (radix : Z) (acc : option Z) (s : string) : option Z :=
  match s with
  | EmptyString => acc
  | String c s' =>
      match digit_value c with
      | Some v =>
          if v <? radix
          then read_digits radix (Some (default 0 acc * radix + v)) s'
          else acc
      | None => acc
      end
  end.

(** What [parseInt] returns: NaN, or an integer with its sign ([-0] has
    the sign and magnitude 0). The JavaScript number is the double nearest
    to this integer; a comparison with 1 or with 120, which are doubles,
    comes out the same on the integer and on the double. *)
Inductive js_int :=
  | int_nan
  | int_val (negative : bool) (magnitude : Z).

Definition strip_sign (s : string) : bool * string :=
  match s with
  | String c s' =>
      if Ascii.eqb c "-" then (true, s')
      else if Ascii.eqb c "+" then (false, s')
      else (false, s)
  | EmptyString => (false, s)
  end.

Definition strip_prefix (s : string) : Z * string :=
  match s with
  | String c (String x s') =>
      if Ascii.eqb c "0" && (Ascii.eqb x "x" || Ascii.eqb x "X")
      then (16, s') else (10, s)
  | _ => (10, s)
  end.

(** [parseInt(string)], with no radix given. *)
Definition parseInt (s : string) : js_int :=
  let (negative, s1) := strip_sign (trim_start s) in
  let (radix, s2) := strip_prefix s1 in
  match read_digits radix None s2 with
  | Some m => int_val negative m
  | None => int_nan
  end.

Definition int_signed (negative : bool) (m : Z) : Z :=
  if negative then - m else m.

(** [a < n] and [a > n]: false when [a] is NaN. *)
Definition int_lt (a : js_int) (n : Z) : bool :=
  match a with
  | int_nan => false
  | int_val negative m => int_signed negative m <? n
  end.

Definition int_gt (a : js_int) (n : Z) : bool :=
  match a with
  | int_nan => false
  | int_val negative m => n <? int_signed negative m
  end.

Definition to_double (a : js_int) : spec_float :=
  match a with
  | int_nan => S754_nan
  | int_val negative m =>
      binary_normalize 53 1024 (int_signed negative m) 0 negative
  end.

(** A number as it arrives in a JSON body: [JSON.stringify] writes NaN
    and the infinities as [null] and [-0] as [0]. *)
Definition json_number (x : spec_float) : js_value :=
  match x with
  | S754_nan | S754_infinity _ => js_null
  | S754_zero _ => js_number (S754_zero false)
  | S754_finite _ _ _ => js_number x
  end.

(** The state of the booking form: three strings. *)
Record booking_form := {
  form_passenger_name : string;
  form_passenger_age : string;
  form_passenger_gender : string
}.

Inductive submission :=
  | toast_error (message : string)
  | api_post (body : booking_request).

(** [handleSubmit] of the booking form, up to the request it sends;
    [train_id] is [train.id]. *)
Definition handleSubmit (train_id : string) (formData : booking_form)
    : submission :=
  if negb (nonempty (form_passenger_name formData))
     || negb (nonempty (form_passenger_age formData))
  then toast_error "Please fill in all passenger details"
  else if int_lt (parseInt (form_passenger_age formData)) 1
          || int_gt (parseInt (form_passenger_age formData)) 120
  then toast_error "Please enter a valid age"
  else api_post
         {| req_train_id := js_string train_id;
            req_passenger_name := js_string (form_passenger_name formData);
            req_passenger_age :=
              json_number (to_double (parseInt (form_passenger_age formData)));
            req_passenger_gender :=
              js_string (form_passenger_gender formData) |}.

(** The state of the search form. *)
Record search_form := {
  form_source : string;
  form_destination : string;
  form_date : string
}.

Inductive search_submission :=
  | search_toast (message : string)
  | api_get (source destination date : query_value).

(** [handleSearch] of the search page, up to the request it sends: the
    three strings travel as query parameters. *)
Definition handleSearch (searchParams : search_form) : search_submission :=
  if negb (nonempty (form_source searchParams))
     || negb (nonempty (form_destination searchParams))
  then search_toast "Please enter both source and destination"
  else api_get (q_string (form_source searchParams))
         (q_string (form_destination searchParams))
         (q_string (form_date searchParams)).

(** A search term without a backslash, the escape character of LIKE. *)
Fixpoint no_backslash (s : string) : bool :=
  match s with
  | EmptyString => true
  | String c s' => negb (Ascii.eqb c "\") && no_backslash s'
  end.

(** A table holding one train, with a source that has an underscore. *)
Definition kalka_shimla : train :=
  sample_train "52451" "Shivalik Deluxe" "Kalka_Shimla" "Shimla" 60
    (clock 5 45) (clock 10 30) jan_15 500.

Definition hill_db : db := set_trains {[ 6%N := kalka_shimla ]} sample_db.

(** The request the booking form posts for Asha, 34. *)
Definition asha_request : booking_request :=
  {| req_train_id := js_string "1";
     req_passenger_name := js_string "Asha";
     req_passenger_age := json_number (to_double (int_val false 34));
     req_passenger_gender := js_string "Female" |}.

(** A reading of the parameters that takes every request for Asha's. *)
Definition asha_args (req : booking_request)
    : string + (option uuid * option string * option Z * option string) :=
  inr (Some 1%N, Some "Asha"%string, Some 34, Some "Female"%string).

(** A request whose [train_id] is no uuid, and a reading of the
    parameters that refuses it as PostgreSQL does. *)
Definition no_uuid_request : booking_request :=
  {| req_train_id := js_string "rajdhani";
     req_passenger_name := js_string "Asha";
     req_passenger_age := json_number (to_double (int_val false 34));
     req_passenger_gender := js_string "Female" |}.

Definition uuid_args (req : booking_request)
    : string + (option uuid * option string * option Z * option string) :=
  match req_train_id req with
  | js_string "1" =>
      inr (Some 1%N, Some "Asha"%string, Some 34, Some "Female"%string)
  | _ => inl "invalid input syntax for type uuid"%string
  end.

(** ** Further properties of states and runs *)

(** What every row of [bookings] looks like once the routes have run. *)
Definition booking_sound (d : db) (b : booking) : Prop :=
  1 ≤ seat_number b ≤ int4_max ∧
  booking_status b = Some "confirmed"%string ∧
  (String.length (passenger_name b) ≤ 100)%nat ∧
  (String.length (passenger_gender b) ≤ 10)%nat ∧
  (∀ i, train_id b = Some i → is_Some (trains d !! i)) ∧
  (∀ u, user_id b = Some u → u ∈ auth_users d).

Definition bookings_sound (d : db) : Prop :=
  ∀ id b, bookings d !! id = Some b → booking_sound d b.

(** A database before the first booking, counters at capacity. *)
Definition pristine (d : db) : Prop :=
  bookings d = ∅ ∧
  ∀ i t, trains d !! i = Some t →
    available_seats t = total_seats t ∧ 0 ≤ total_seats t ≤ int4_max.

(** A cancellation whose counter update does not go through. *)
Definition update_lost (r : request) : bool :=
  match r with
  | call_delete_booking C _ _ =>
      match seats_update C with
      | update_applied => false
      | update_error _ | update_throws => true
      end
  | call_book_seat _ _ _ _ _ _ => false
  end.

(** By how many seats the counter of train [i] is behind: the seats that
    are neither counted as available nor held by a booking. *)
Definition seats_behind (d : db) (i : uuid) (t : train) : Z :=
  total_seats t - available_seats t
  - Z.of_nat (size (bookings_of (Some i) (bookings d))).

(** The seat numbers a list of replies hands out, in order. *)
Definition issued (rs : list book_reply) : list Z :=
  omap reply_seat_number rs.

(** [m + 1], [m + 2], ..., [m + n]. *)
Definition seats_from (m : Z) (n : nat) : list Z :=
  (λ k, m + Z.of_nat k) <$> seq 1 n.

(** The columns of a train that bookings and cancellations leave alone. *)
Definition same_schedule (t t' : train) : Prop :=
  train_number t' = train_number t ∧
  train_name t' = train_name t ∧
  source t' = source t ∧
  destination t' = destination t ∧
  total_seats t' = total_seats t ∧
  departure_time t' = departure_time t ∧
  arrival_time t' = arrival_time t ∧
  journey_date t' = journey_date t ∧
  price t' = price t ∧
  created_at t' = created_at t.

(** A header that names a scheme and a token. *)
Definition authorization_header (scheme token : string) : string :=
  scheme +:+ " " +:+ token.

Definition no_space (s : string) : Prop :=
  ∀ before rest, s ≠ before +:+ " " +:+ rest.

(** * Proofs *)

(** ** Reasoning about blocks *)

Lemma bind_Done {A B} (m : plpgsql A) (k : A → plpgsql B) d b d' :
  (m ≫= k) d = Done b d' ↔ ∃ a d1, m d = Done a d1 ∧ k a d1 = Done b d'.
Proof.
  unfold mbind, plpgsql_bind, bind. split.
  - destruct (m d) as [e|a d1]; [discriminate|]. eauto.
  - intros (a & d1 & -> & ?). done.
Qed.

Lemma bind_Raise {A B} (m : plpgsql A) (k : A → plpgsql B) d e :
  (m ≫= k) d = Raise e ↔
  m d = Raise e ∨ ∃ a d1, m d = Done a d1 ∧ k a d1 = Raise e.
Proof.
  unfold mbind, plpgsql_bind, bind. split.
  - destruct (m d) as [e'|a d1]; [intros [= ->]; by left|]. eauto.
  - intros [->|(a & d1 & -> & ?)]; done.
Qed.

Lemma ret_Done {A} (a b : A) d d' :
  ret a d = Done b d' ↔ a = b ∧ d = d'.
Proof. unfold ret. naive_solver. Qed.

Lemma get_Done d a d' : get d = Done a d' ↔ a = d ∧ d' = d.
Proof. unfold get. naive_solver. Qed.

Lemma modify_Done f d a d' : modify f d = Done a d' ↔ d' = f d.
Proof. unfold modify. destruct a. naive_solver. Qed.

Lemma check_Done ok e d a d' : check ok e d = Done a d' ↔ ok = true ∧ d' = d.
Proof.
  unfold check. destruct ok; [rewrite ret_Done|]; destruct a; naive_solver.
Qed.

Lemma not_null_Done {A} c (v : option A) d a d' :
  not_null c v d = Done a d' ↔ v = Some a ∧ d' = d.
Proof. unfold not_null. destruct v; [rewrite ret_Done|]; naive_solver. Qed.

Lemma string_take_length n s : (String.length (string_take n s) ≤ n)%nat.
Proof.
  revert s. induction n as [|n IH]; intros [|c s]; simpl; try lia.
  specialize (IH s). lia.
Qed.

Lemma coerce_varchar_length n s s' :
  coerce_varchar n s = Some s' → (String.length s' ≤ n)%nat.
Proof.
  unfold coerce_varchar. case_bool_decide; [by intros [= <-]|].
  destruct (all_blank _); [|done]. intros [= <-]. apply string_take_length.
Qed.

Lemma coerce_varchar_fits n s :
  (String.length s ≤ n)%nat → coerce_varchar n s = Some s.
Proof. intros H. unfold coerce_varchar. by rewrite bool_decide_eq_true_2. Qed.

Lemma varchar_Done n v d a d' :
  varchar n v d = Done a d' ↔
  a = stored n v ∧ d' = d ∧ (is_Some v → is_Some (stored n v)).
Proof.
  unfold varchar, stored. destruct v as [s|]; simpl.
  - destruct (coerce_varchar n s); [rewrite ret_Done|].
    + split; [intros [<- <-]; eauto|naive_solver].
    + split; [done|]. intros (_ & _ & H). destruct H as [? ?]; [eauto|done].
  - rewrite ret_Done. split; [intros [<- <-]; split; [done|]; split; [done|]|naive_solver].
    by intros [? ?].
Qed.

Lemma int4_add_Done a b d c d' :
  int4_add a b d = Done c d' ↔
  c = a + b ∧ d' = d ∧ int4_min ≤ a + b ≤ int4_max.
Proof.
  unfold int4_add. case_bool_decide; [rewrite ret_Done|]; naive_solver.
Qed.

Lemma run_statement_Done {A} E s (m : plpgsql A) d a d' :
  run_statement E s m d = Done a d' ↔ fault E s = None ∧ m d = Done a d'.
Proof. unfold run_statement. destruct (fault E s); naive_solver. Qed.

Ltac block_inv :=
  repeat match goal with
    | H : (_ ≫= _) _ = Done _ _ |- _ =>
        apply bind_Done in H as (? & ? & ? & H)
    | H : ret _ _ = Done _ _ |- _ => apply ret_Done in H as [? ?]
    | H : get _ = Done _ _ |- _ => apply get_Done in H as [? ?]
    | H : modify _ _ = Done _ _ |- _ => apply modify_Done in H
    | H : check _ _ _ = Done _ _ |- _ => apply check_Done in H as [? ?]
    | H : not_null _ _ _ = Done _ _ |- _ => apply not_null_Done in H as [? ?]
    | H : varchar _ _ _ = Done _ _ |- _ => apply varchar_Done in H as (? & ? & ?)
    | H : int4_add _ _ _ = Done _ _ |- _ => apply int4_add_Done in H as (? & ? & ?)
    | H : run_statement _ _ _ _ = Done _ _ |- _ =>
        apply run_statement_Done in H as [? H]
    end; simplify_eq.

(** ** The seat-number computation *)

Lemma sql_max_ge l x : x ∈ l → ∃ m, sql_max l = Some m ∧ x ≤ m.
Proof.
  induction l as [|y l IH]; [by intros ?%elem_of_nil|].
  intros [->|Hx]%elem_of_cons; simpl.
  - destruct (sql_max l); eexists; split; [done|lia|done|lia].
  - destruct (IH Hx) as (m & -> & ?). eexists; split; [done|lia].
Qed.

Lemma sql_max_elem l m : sql_max l = Some m → m ∈ l.
Proof.
  revert m. induction l as [|y l IH]; [done|]. simpl. intros m [= <-].
  destruct (sql_max l) as [m'|]; [|left].
  destruct (Z.max_spec y m') as [[_ ->]|[_ ->]]; [right; by apply IH|left].
Qed.

Lemma bookings_of_lookup t bs i b :
  bookings_of t bs !! i = Some b ↔
  bs !! i = Some b ∧ ∃ k, t = Some k ∧ train_id b = Some k.
Proof.
  unfold bookings_of. rewrite map_lookup_filter_Some. simpl.
  unfold sql_eq. destruct (train_id b), t; try case_bool_decide; naive_solver.
Qed.

Lemma max_seat_number_ge t bs i b :
  bookings_of t bs !! i = Some b →
  ∃ m, max_seat_number t bs = Some m ∧ seat_number b ≤ m.
Proof.
  intros H. apply sql_max_ge, list_elem_of_fmap. exists b. split; [done|].
  apply list_elem_of_fmap. exists (i, b). split; [done|].
  by apply elem_of_map_to_list.
Qed.

Lemma max_seat_number_attained t bs m :
  max_seat_number t bs = Some m →
  ∃ i b, bookings_of t bs !! i = Some b ∧ seat_number b = m.
Proof.
  intros (b & -> & ([i b'] & -> & H)%list_elem_of_fmap)%sql_max_elem%list_elem_of_fmap.
  apply elem_of_map_to_list in H. eauto.
Qed.

(** The seat number [book_seat] computes is above every seat number held on
    the train, so the unique index on (train_id, seat_number) never fires. *)
Lemma next_seat_above t bs i b :
  bookings_of t bs !! i = Some b →
  seat_number b < COALESCE (max_seat_number t bs) 0 + 1.
Proof.
  intros (m & -> & ?)%max_seat_number_ge. simpl. lia.
Qed.

Lemma next_seat_not_taken t bs :
  seat_taken t (COALESCE (max_seat_number t bs) 0 + 1) bs = false.
Proof.
  unfold seat_taken. apply bool_decide_eq_false. intros (i & b & Hb & Hn).
  apply next_seat_above in Hb. lia.
Qed.

(** ** What the statements do *)

Lemma insert_booking_Done E u t n nm ag gd d id d' :
  insert_booking E u t n nm ag gd d = Done id d' →
  ∃ name age gender,
    stored 100 nm = Some name ∧ ag = Some age ∧ stored 10 gd = Some gender ∧
    id = gen_random_uuid E ∧
    bookings d !! id = None ∧
    (∀ k, t = Some k → is_Some (trains d !! k)) ∧
    d' = set_bookings
           (<[id := new_booking E u t n name age gender]> (bookings d)) d.
Proof.
  unfold insert_booking. intros H. block_inv.
  match goal with H : bool_decide (_ = None) = true |- _ =>
    apply bool_decide_eq_true in H end.
  do 3 eexists. repeat split; try done.
  intros k ->. by match goal with H : bool_decide (is_Some _) = true |- _ =>
    apply bool_decide_eq_true in H end.
Qed.

Lemma decrement_available_seats_Done E t d a d' :
  decrement_available_seats E t d = Done a d' →
  match t ≫= λ i, pair i <$> trains d !! i with
  | Some (i, tr) =>
      d' = set_trains
             (<[i := book_one E tr (available_seats tr - 1)]> (trains d)) d
  | None => d' = d
  end.
Proof.
  unfold decrement_available_seats. intros H. block_inv.
  destruct (t ≫= _) as [[i tr]|]; block_inv; [|done].
  by replace (available_seats tr - 1) with (available_seats tr + -1) by lia.
Qed.

(** The two ways the body of [book_seat] returns. *)
Lemma book_seat_body_Done E t u nm ag gd d r d' :
  book_seat_body E t u nm ag gd d = Done r d' →
  (r = no_seats_available ∧ d' = d ∧
   ∃ i tr, t = Some i ∧ trains d !! i = Some tr ∧ available_seats tr ≤ 0)
  ∨
  (∃ name age gender d1,
     let id := gen_random_uuid E in
     let n := COALESCE (max_seat_number t (bookings d)) 0 + 1 in
     stored 100 nm = Some name ∧ ag = Some age ∧ stored 10 gd = Some gender ∧
     r = booking_successful id n ∧
     bookings d !! id = None ∧
     d1 = set_bookings
            (<[id := new_booking E u t n name age gender]> (bookings d)) d ∧
     match t with
     | Some i =>
         ∃ tr, trains d !! i = Some tr ∧ 0 < available_seats tr ∧
           d' = set_trains
                  (<[i := book_one E tr (available_seats tr - 1)]> (trains d))
                  d1
     | None => d' = d1
     end).
Proof.
  unfold book_seat_body, select_train_for_update, next_seat_number.
  intros H. block_inv.
  destruct (seats_exhausted _) eqn:Hex; block_inv.
  - left. repeat split. unfold seats_exhausted in Hex.
    destruct t as [i|]; [|done]. simpl in Hex.
    destruct (trains _ !! i) as [tr|] eqn:Htr; [|done].
    apply bool_decide_eq_true in Hex. eauto.
  - right.
    match goal with H : insert_booking _ _ _ _ _ _ _ _ = _ |- _ =>
      apply insert_booking_Done in H
        as (name & age & gender & Hnm & -> & Hgd & -> & Hid & Hfk & ->) end.
    match goal with H : decrement_available_seats _ _ _ = _ |- _ =>
      apply decrement_available_seats_Done in H; rename H into Hdec end.
    exists name, age, gender. eexists. repeat split; try done.
    destruct t as [i|]; [|done]. simpl in *.
    destruct (Hfk i eq_refl) as [tr Htr]. rewrite Htr in Hex, Hdec. simpl in *.
    apply bool_decide_eq_false in Hex. exists tr. split; [done|]. split; [lia|done].
Qed.

(** [book_seat] always returns a JSON object; it never raises. *)
Lemma book_seat_returns E t u nm ag gd d :
  ∃ r d', book_seat E t u nm ag gd d = Done r d'.
Proof.
  unfold book_seat, exception_when_others.
  destruct (book_seat_body _ _ _ _ _ _ _) as [e|r d']; eauto.
Qed.

Lemma book_seat_Done E t u nm ag gd d r d' :
  book_seat E t u nm ag gd d = Done r d' →
  (success r = false ∧ d' = d) ∨
  (success r = true ∧ book_seat_body E t u nm ag gd d = Done r d').
Proof.
  unfold book_seat, exception_when_others.
  destruct (book_seat_body _ _ _ _ _ _ _) as [e|r0 d0] eqn:Hb.
  - intros [= <- <-]. by left.
  - intros [= <- <-]. destruct (book_seat_body_Done _ _ _ _ _ _ _ _ _ Hb)
      as [(-> & -> & _)|(? & ? & ? & ? & _ & _ & _ & -> & _)]; [by left|by right].
Qed.

(** ** The rows of one train under insert and delete *)

Lemma bookings_of_insert_same t bs id row :
  train_id row = Some t →
  bookings_of (Some t) (<[id := row]> bs)
  = <[id := row]> (bookings_of (Some t) bs).
Proof.
  intros Hrow. unfold bookings_of. apply map_filter_insert_True. simpl.
  rewrite Hrow. simpl. by apply bool_decide_eq_true.
Qed.

Lemma bookings_of_insert_other t bs id row :
  train_id row ≠ t → bs !! id = None →
  bookings_of t (<[id := row]> bs) = bookings_of t bs.
Proof.
  intros Hrow Hid. unfold bookings_of. apply map_filter_insert_not'.
  - simpl. unfold sql_eq. destruct (train_id row), t; try done.
    rewrite bool_decide_eq_true. congruence.
  - intros y. by rewrite Hid.
Qed.

Lemma bookings_of_delete t bs id :
  bookings_of t (delete id bs) = delete id (bookings_of t bs).
Proof. apply map_filter_delete. Qed.

Lemma bookings_of_fresh t bs id :
  bs !! id = None → bookings_of t bs !! id = None.
Proof. intros H. apply map_lookup_filter_None. by left. Qed.

Lemma seats_distinct_delete bs id :
  seats_distinct bs → seats_distinct (delete id bs).
Proof.
  intros H i j b1 b2 [_ H1]%lookup_delete_Some [_ H2]%lookup_delete_Some.
  by apply H.
Qed.

Lemma seats_distinct_insert bs id row :
  seats_distinct bs →
  (∀ j b, bs !! j = Some b → seat_number b < seat_number row) →
  seats_distinct (<[id := row]> bs).
Proof.
  intros H Hlt i j b1 b2.
  rewrite !lookup_insert_Some.
  intros [[<- <-]|[? H1]] [[<- <-]|[? H2]] Heq; try done.
  - apply Hlt in H2. lia.
  - apply Hlt in H1. lia.
  - by eapply H.
Qed.

(** ** The invariant *)

Lemma fresh_consistent d : fresh d → consistent d.
Proof.
  intros [Hb Ht]. split.
  - intros i t Hi. rewrite Hb. unfold bookings_of.
    rewrite map_filter_empty, map_size_empty. specialize (Ht i t Hi). simpl. lia.
  - intros t i j b1 b2. rewrite Hb. unfold bookings_of.
    by rewrite map_filter_empty, lookup_empty.
Qed.

Lemma insert_consistent E u t name age gender d :
  let id := gen_random_uuid E in
  let n := COALESCE (max_seat_number t (bookings d)) 0 + 1 in
  let row := new_booking E u t n name age gender in
  bookings d !! id = None →
  (∀ k, seats_distinct (bookings_of k (bookings d))) →
  ∀ k, seats_distinct (bookings_of k (<[id := row]> (bookings d))).
Proof.
  intros id n row Hid Hd k.
  destruct (decide (train_id row = k)) as [<-|Hne].
  - simpl. destruct t as [i|].
    + rewrite bookings_of_insert_same by done.
      apply seats_distinct_insert; [done|]. intros j b Hb. simpl.
      by eapply next_seat_above.
    + intros ? ? ? ? (_ & ? & ? & _)%bookings_of_lookup. done.
  - by rewrite bookings_of_insert_other.
Qed.

Lemma book_seat_consistent E t u nm ag gd d r d' :
  book_seat E t u nm ag gd d = Done r d' → consistent d → consistent d'.
Proof.
  intros [[_ ->]|[_ H]]%book_seat_Done [Hacc Hdis]; [done|].
  apply book_seat_body_Done in H
    as [(_ & -> & _)|(name & age & gender & d1 & _ & _ & _ & _ & Hid & -> & H)];
    [done|].
  destruct t as [i|].
  - destruct H as (tr & Htr & Hpos & ->). split.
    + intros j t'. simpl. rewrite lookup_insert_Some.
      intros [[<- <-]|[Hne Hj]].
      * destruct (Hacc i tr Htr) as [_ Hsum]. simpl.
        rewrite bookings_of_insert_same by done.
        rewrite map_size_insert_None by by apply bookings_of_fresh.
        simpl. lia.
      * rewrite bookings_of_insert_other; [by apply Hacc| |done].
        simpl. congruence.
    + intros k. simpl. by apply insert_consistent.
  - subst d'. split.
    + intros j t' Hj. simpl in *.
      rewrite bookings_of_insert_other; [by apply Hacc|done|done].
    + intros k. simpl. by apply insert_consistent.
Qed.

Lemma delete_booking_consistent C id user d :
  consistent d → consistent (delete_booking C id user d).2.
Proof.
  intros [Hacc Hdis]. unfold delete_booking.
  destruct (fetch_error C); [done|].
  destruct (fetch_booking id user d) as [b|] eqn:Hb; [|done].
  destruct (delete_error C); [done|].
  unfold fetch_booking in Hb. destruct (bookings d !! id) as [b'|] eqn:Hid; [|done].
  simpl in Hb. case_bool_decide; [|done]. simplify_eq.
  set (d1 := set_bookings (delete id (bookings d)) d).
  assert (Hle : ∀ k, (size (bookings_of k (bookings d1))
                       ≤ size (bookings_of k (bookings d)))%nat).
  { intros k. simpl. rewrite bookings_of_delete, map_size_delete.
    destruct (bookings_of k (bookings d) !! id); simpl; lia. }
  assert (consistent d1) as Hd1.
  { split.
    - intros i t Hi. destruct (Hacc i t Hi). specialize (Hle (Some i)). lia.
    - intros k. simpl. rewrite bookings_of_delete.
      by apply seats_distinct_delete. }
  destruct (seats_update C); try done. simpl.
  unfold increment_available_seats.
  destruct (train_id b) as [i|] eqn:Hti; [|done]. simpl.
  destruct (trains d !! i) as [tr|] eqn:Htr; [|done]. simpl.
  case_bool_decide; [|done]. simpl. split.
  - intros j t'. simpl. rewrite lookup_insert_Some.
    intros [[<- <-]|[Hne Hj]]; simpl.
    + destruct (Hacc i tr Htr) as [? Hsum]. split; [lia|].
      rewrite bookings_of_delete, map_size_delete_Some.
      * assert (size (bookings_of (Some i) (bookings d)) ≠ 0%nat); [|lia].
        intros Hz%map_size_empty_inv.
        assert (bookings_of (Some i) (bookings d) !! id = Some b) as Hin
          by (apply bookings_of_lookup; eauto).
        by rewrite Hz in Hin.
      * exists b. apply bookings_of_lookup; eauto.
    + destruct (Hacc j t' Hj). specialize (Hle (Some j)). simpl in Hle. lia.
  - apply Hd1.
Qed.

Lemma after_consistent r d : consistent d → consistent (after r d).
Proof.
  destruct r as [E t u n a g|C id user]; simpl.
  - destruct (book_seat_returns E t u n a g d) as (r & d' & H). rewrite H. simpl.
    by eapply book_seat_consistent.
  - apply delete_booking_consistent.
Qed.

Lemma reachable_consistent d : reachable d → consistent d.
Proof.
  induction 1; [by apply fresh_consistent|by apply after_consistent].
Qed.

(** ** Seat uniqueness and the bounds of the counter *)

Lemma live_bookings_lookup i d j b :
  live_bookings i d !! j = Some b → bookings_of (Some i) (bookings d) !! j = Some b.
Proof. unfold live_bookings. by intros [? _]%map_lookup_filter_Some. Qed.

Lemma consistent_seat_uniqueness d : consistent d → seat_uniqueness d.
Proof.
  intros [Hacc Hdis] i t Hi. split.
  - intros j k b1 b2 H1%live_bookings_lookup H2%live_bookings_lookup.
    by eapply Hdis.
  - destruct (Hacc i t Hi) as [? ?].
    pose proof (map_size_filter
      (λ kb : N * booking, booking_status kb.2 = Some "confirmed"%string)
      (bookings_of (Some i) (bookings d))) as Hle.
    unfold live_bookings. lia.
Qed.

Lemma consistent_within_bounds d : consistent d → seats_within_bounds d.
Proof.
  intros [Hacc _] i t Hi. destruct (Hacc i t Hi). lia.
Qed.

Lemma book_seat_counter E t u nm ag gd d i tr :
  trains d !! i = Some tr →
  ∃ tr', trains (after (call_book_seat E t u nm ag gd) d) !! i = Some tr' ∧
         counter_step (call_book_seat E t u nm ag gd) tr tr'.
Proof.
  intros Hi. simpl.
  destruct (book_seat_returns E t u nm ag gd d) as (r & d' & H). rewrite H.
  simpl. apply book_seat_Done in H as [[_ ->]|[_ H]].
  { exists tr. repeat split; auto. }
  apply book_seat_body_Done in H
    as [(_ & -> & _)|(name & age & gender & d1 & _ & _ & _ & _ & _ & -> & H)].
  { exists tr. repeat split; auto. }
  destruct t as [k|]; [|subst d'; exists tr; repeat split; auto].
  destruct H as (tk & Hk & Hpos & ->). simpl.
  destruct (decide (k = i)) as [->|Hne].
  - rewrite lookup_insert_eq. eexists. split; [done|]. simplify_eq.
    split; [done|]. right. done.
  - rewrite lookup_insert_ne by done. exists tr. repeat split; auto.
Qed.

Lemma delete_booking_counter C id user d i tr :
  trains d !! i = Some tr →
  ∃ tr', trains (after (call_delete_booking C id user) d) !! i = Some tr' ∧
         counter_step (call_delete_booking C id user) tr tr'.
Proof.
  intros Hi. simpl. unfold delete_booking.
  assert (∃ tr', trains d !! i = Some tr' ∧
            counter_step (call_delete_booking C id user) tr tr') as Hsame
    by (exists tr; repeat split; auto).
  destruct (fetch_error C); [done|].
  destruct (fetch_booking id user d) as [b|]; [|done].
  destruct (delete_error C); [done|].
  destruct (seats_update C); try done. simpl.
  unfold increment_available_seats.
  destruct (train_id b) as [k|]; [|done]. simpl.
  destruct (trains d !! k) as [tk|] eqn:Hk; [|done]. simpl.
  case_bool_decide; [|done]. simpl.
  destruct (decide (k = i)) as [->|Hne].
  - rewrite lookup_insert_eq. eexists. split; [done|]. simplify_eq.
    split; [done|]. by right.
  - by rewrite lookup_insert_ne.
Qed.

Lemma reachable_with_admin_distinct d :
  reachable_with_admin d → ∀ t, seats_distinct (bookings_of t (bookings d)).
Proof.
  induction 1 as [d Hd|r d _ IH|m id u d _ IH].
  - by apply fresh_consistent.
  - destruct r as [E t u n a g|C id user]; simpl.
    + destruct (book_seat_returns E t u n a g d) as (r & d' & H). rewrite H.
      simpl. apply book_seat_Done in H as [[_ ->]|[_ H]]; [done|].
      apply book_seat_body_Done in H
        as [(_ & -> & _)|(name & age & gender & d1 & _ & _ & _ & _ & Hid & -> & H)];
        [done|].
      intros k.
      destruct t as [i|]; [destruct H as (tr & _ & _ & ->)|subst d'];
        simpl; by apply insert_consistent.
    + unfold delete_booking.
      destruct (fetch_error C); [done|].
      destruct (fetch_booking id user d) as [b|]; [|done].
      destruct (delete_error C); [done|].
      assert (∀ t, seats_distinct (bookings_of t (delete id (bookings d))))
        as Hdel.
      { intros t. rewrite bookings_of_delete. by apply seats_distinct_delete. }
      destruct (seats_update C); try done. simpl.
      unfold increment_available_seats.
      destruct (_ ≫= _) as [[k tk]|]; [|done]. by case_bool_decide.
  - unfold put_train. by destruct (updated_row id u d) as [[j t']|].
Qed.

(** C1. In every state reachable from the migration's database through
    calls of [book_seat] and cancellations, the live bookings of each
    train hold pairwise distinct seat numbers and are no more than the
    train's [total_seats]; and whichever of the two operations comes next,
    the same holds after it. The seat numbers stay pairwise distinct when
    the administrator's updates are counted in as well. *)
Theorem seat_uniqueness_invariant d :
  (reachable d → seat_uniqueness d ∧ ∀ r, seat_uniqueness (after r d)) ∧
  (reachable_with_admin d → ∀ i, seats_distinct (live_bookings i d)).
Proof.
  split.
  - intros Hd%reachable_consistent. split.
    + by apply consistent_seat_uniqueness.
    + intros r. by apply consistent_seat_uniqueness, after_consistent.
  - intros Hd i. pose proof (reachable_with_admin_distinct d Hd (Some i)) as H.
    intros j k b1 b2 H1%live_bookings_lookup H2%live_bookings_lookup.
    by eapply H.
Qed.

Lemma seat_uniqueness_invariant_witness :
  let d := run [asha (pg 10) 1; asha (pg 11) 1;
                call_delete_booking storage_update_throws 10 7] sample_db in
  seat_uniqueness d ∧ ∀ r, seat_uniqueness (after r d).
Proof.
  apply (proj1 (seat_uniqueness_invariant
                  (run [asha (pg 10) 1; asha (pg 11) 1;
                        call_delete_booking storage_update_throws 10 7]
                     sample_db))).
  do 3 apply reachable_after. apply reachable_fresh.
  split; [reflexivity|].
  apply (bool_decide_unpack
           (map_Forall (λ _ t, 0 ≤ available_seats t ≤ total_seats t)
              (trains sample_db))).
  vm_compute. exact I.
Defined.

(** The bound by [total_seats] is an invariant of allocation and
    cancellation only. The administrator's update, a third writer of
    [trains], rewrites [total_seats] (and [available_seats]) without
    regard to the bookings: on the sample data, after Asha's booking on
    the Rajdhani Express, [PUT /trains/1] with body [{ total_seats: 0 }]
    leaves one live booking on a train of no seats. *)
Lemma put_train_lowers_total_seats :
  let d := (put_train "" 1 (only_total_seats 0) one_booking_db).2 in
  reachable_with_admin d ∧
  size (live_bookings 1 d) = 1%nat ∧
  total_seats <$> trains d !! 1%N = Some 0 ∧
  ¬ seat_uniqueness d.
Proof.
  split; [|split; [|split]].
  - apply admin_put, admin_after, admin_fresh. split; [reflexivity|].
    apply (bool_decide_unpack
             (map_Forall (λ _ t, 0 ≤ available_seats t ≤ total_seats t)
                (trains sample_db))).
    vm_compute. exact I.
  - vm_compute. reflexivity.
  - vm_compute. reflexivity.
  - intros H. destruct (H 1%N _ eq_refl) as [_ Hle].
    vm_compute in Hle. by apply Hle.
Qed.

(** C7, as the code has it. In every state reachable from the migration's
    database through calls of [book_seat] and cancellations,
    [0 <= available_seats <= total_seats] holds for every train; a call of
    [book_seat] leaves a train's counter alone or takes exactly one from a
    positive counter, a cancellation leaves it alone or adds exactly one,
    and neither touches [total_seats]. (The administrator's update is a
    further writer, outside this statement.) *)
Theorem available_seats_bounds d :
  reachable d →
  seats_within_bounds d ∧
  ∀ r i t, trains d !! i = Some t →
    ∃ t', trains (after r d) !! i = Some t' ∧ counter_step r t t'.
Proof.
  intros Hd%reachable_consistent. split.
  - by apply consistent_within_bounds.
  - intros [E t u nm ag gd|C id user] i tr Hi.
    + by apply book_seat_counter.
    + by apply delete_booking_counter.
Qed.

Lemma available_seats_bounds_witness :
  let d := run [asha (pg 10) 1; asha (pg 11) 1;
                call_delete_booking storage_update_fails 10 7] sample_db in
  seats_within_bounds d ∧
  ∀ r i t, trains d !! i = Some t →
    ∃ t', trains (after r d) !! i = Some t' ∧ counter_step r t t'.
Proof.
  apply (available_seats_bounds
           (run [asha (pg 10) 1; asha (pg 11) 1;
                 call_delete_booking storage_update_fails 10 7] sample_db)).
  do 3 apply reachable_after. apply reachable_fresh.
  split; [reflexivity|].
  apply (bool_decide_unpack
           (map_Forall (λ _ t, 0 ≤ available_seats t ≤ total_seats t)
              (trains sample_db))).
  vm_compute. exact I.
Defined.

(** C7, as the spec words it, fails: the administrator's update writes
    [available_seats] too, and with any value. On the sample data,
    [PUT /trains/1] with body [{ available_seats: -1 }] leaves the Rajdhani
    Express with a counter of -1. *)
Lemma available_seats_admin_counterexample :
  let d := (put_train "" 1 (only_available_seats (-1)) sample_db).2 in
  reachable_with_admin d ∧
  available_seats <$> trains d !! 1%N = Some (-1) ∧
  ¬ seats_within_bounds d.
Proof.
  split; [|split].
  - apply admin_put, admin_fresh. split; [reflexivity|].
    apply (bool_decide_unpack
             (map_Forall (λ _ t, 0 ≤ available_seats t ≤ total_seats t)
                (trains sample_db))).
    vm_compute. exact I.
  - vm_compute. reflexivity.
  - intros H. specialize (H 1%N _ eq_refl). vm_compute in H.
    destruct H as [H _]. by apply H.
Qed.

(** ** The postcondition of a successful call *)

Lemma next_seat_is_next i bs :
  is_next_seat_number i bs (COALESCE (max_seat_number (Some i) bs) 0 + 1).
Proof.
  destruct (max_seat_number (Some i) bs) as [m|] eqn:Hm; simpl.
  - right. split.
    + apply max_seat_number_attained in Hm as (j & b & Hb & <-).
      apply bookings_of_lookup in Hb as (Hb & k & [= <-] & Hk). eauto.
    + intros j b Hb Hi.
      destruct (max_seat_number_ge (Some i) bs j b) as (m' & Hm' & ?);
        [apply bookings_of_lookup; eauto|].
      rewrite Hm in Hm'. simplify_eq. lia.
  - left. split; [done|]. intros j b Hb Hi.
    destruct (max_seat_number_ge (Some i) bs j b) as (m' & Hm' & ?);
      [apply bookings_of_lookup; eauto|].
    by rewrite Hm in Hm'.
Qed.

(** C3, as the code has it. A call of [book_seat] on train [i] that
    reports success has added exactly one row to [bookings], under a fresh
    id, with status [confirmed], the age supplied, the name and the gender
    as their columns store them, and the next seat number of the train
    (its maximum plus one, or 1); has taken exactly one from the train's
    [available_seats] and set its [updated_at] to [now()], leaving every
    other train as it was; and returns that id and seat number. The name
    and the gender are stored as supplied when they are within 100 and 10
    characters. *)
Theorem book_seat_success E i u nm ag gd d r d' :
  book_seat E (Some i) u nm ag gd d = Done r d' →
  success r = true →
  book_seat_postcondition_stored E i u nm ag gd d r d' ∧
  ((∀ s, nm = Some s → (String.length s ≤ 100)%nat) →
   (∀ s, gd = Some s → (String.length s ≤ 10)%nat) →
   book_seat_postcondition E i u nm ag gd d r d').
Proof.
  intros [[Hr _]|[_ H]]%book_seat_Done Hs; [congruence|].
  apply book_seat_body_Done in H
    as [(-> & _)
       |(name & age & gender & d1 & Hnm & -> & Hgd & -> & Hid & -> & H)];
    [done|].
  destruct H as (tr & Htr & Hpos & ->).
  assert (book_seat_postcondition E i u (Some name) (Some age) (Some gender)
            d (booking_successful (gen_random_uuid E)
                 (COALESCE (max_seat_number (Some i) (bookings d)) 0 + 1))
            (set_trains
               (<[i := book_one E tr (available_seats tr - 1)]> (trains d))
               (set_bookings
                  (<[gen_random_uuid E
                     := new_booking E u (Some i)
                          (COALESCE (max_seat_number (Some i) (bookings d)) 0
                           + 1) name age gender]> (bookings d)) d))) as Hpost.
  { exists tr, name, age, gender. eexists. simpl.
    repeat split; try done. apply next_seat_is_next. }
  split; [by exists name, gender|].
  intros Hname Hgender.
  destruct nm as [s|]; [|done]. destruct gd as [g|]; [|done].
  unfold stored in Hnm, Hgd. simpl in Hnm, Hgd.
  rewrite coerce_varchar_fits in Hnm by by apply Hname.
  rewrite coerce_varchar_fits in Hgd by by apply Hgender.
  by simplify_eq.
Qed.

Lemma book_seat_success_witness :
  book_seat_postcondition_stored (pg 10) 1 (Some 7%N) (Some "Asha"%string)
    (Some 34) (Some "Female"%string) sample_db (booking_successful 10 1)
    (after (asha (pg 10) 1) sample_db) ∧
  ((∀ s, Some "Asha"%string = Some s → (String.length s ≤ 100)%nat) →
   (∀ s, Some "Female"%string = Some s → (String.length s ≤ 10)%nat) →
   book_seat_postcondition (pg 10) 1 (Some 7%N) (Some "Asha"%string) (Some 34)
     (Some "Female"%string) sample_db (booking_successful 10 1)
     (after (asha (pg 10) 1) sample_db)).
Proof.
  apply (book_seat_success (pg 10) 1 (Some 7%N) (Some "Asha"%string) (Some 34)
           (Some "Female"%string) sample_db (booking_successful 10 1)
           (after (asha (pg 10) 1) sample_db)).
  - vm_compute. reflexivity.
  - reflexivity.
Defined.

(** C3, as the spec words it, fails: a [varchar] column cuts an
    over-length value whose excess is spaces instead of refusing it. On
    the sample data a call for the Rajdhani Express with a name of 100
    letters and a space succeeds, and the row it has written holds the 100
    letters, not the name supplied. *)
Lemma book_seat_trims_counterexample :
  let d' := after (call_book_seat (pg 10) (Some 1%N) (Some 7%N)
                     (Some long_name) (Some 34) (Some "Female"%string))
              sample_db in
  book_seat (pg 10) (Some 1%N) (Some 7%N) (Some long_name) (Some 34)
    (Some "Female"%string) sample_db
  = Done (booking_successful 10 1) d' ∧
  passenger_name <$> bookings d' !! 10%N = Some (string_repeat "a" 100) ∧
  ¬ book_seat_postcondition (pg 10) 1 (Some 7%N) (Some long_name) (Some 34)
      (Some "Female"%string) sample_db (booking_successful 10 1) d'.
Proof.
  split; [vm_compute; reflexivity|]. split; [vm_compute; reflexivity|].
  intros (tr & name & age & gender & n & _ & [= <-] & _ & _ & _ & _ & Hb & _).
  apply (f_equal (λ bs, passenger_name <$> bs !! 10%N)) in Hb.
  simpl in Hb. rewrite lookup_insert_eq in Hb. vm_compute in Hb.
  discriminate.
Qed.

(** ** Failures of [book_seat] *)

Lemma select_train_for_update_Done t d :
  select_train_for_update t d = Done (t ≫= λ i, trains d !! i) d.
Proof. reflexivity. Qed.

Lemma book_seat_body_exhausted E i u nm ag gd d tr :
  trains d !! i = Some tr → available_seats tr ≤ 0 →
  book_seat_body E (Some i) u nm ag gd d = Done no_seats_available d.
Proof.
  intros Hi Hle. unfold book_seat_body. apply bind_Done.
  eexists _, d. split; [apply select_train_for_update_Done|].
  simpl. rewrite Hi. simpl. by rewrite bool_decide_eq_true_2.
Qed.

Lemma error_in_steps_Raise E t u nm ag gd d e :
  error_in_steps E t u nm ag gd d e ↔
  book_seat_body E t u nm ag gd d = Raise e.
Proof.
  unfold error_in_steps, book_seat_body. rewrite bind_Raise.
  rewrite select_train_for_update_Done. split.
  - intros [Hex H]. right. eexists _, d. split; [done|]. rewrite Hex.
    apply bind_Raise. destruct H as [H|(n & d1 & Hn & H)]; [by left|].
    right. exists n, d1. split; [done|]. apply bind_Raise.
    destruct H as [H|(id & d2 & Hid & H)]; [by left|].
    right. exists id, d2. split; [done|]. apply bind_Raise. by left.
  - intros [[=]|(v & d0 & [= <- <-] & H)].
    destruct (seats_exhausted _); [done|]. split; [done|].
    apply bind_Raise in H as [H|(n & d1 & Hn & H)]; [by left|].
    right. exists n, d1. split; [done|].
    apply bind_Raise in H as [H|(id & d2 & Hid & H)]; [by left|].
    right. exists id, d2. split; [done|].
    apply bind_Raise in H as [H|(? & ? & _ & [=])]. done.
Qed.

Lemma book_seat_Raise E t u nm ag gd d e :
  book_seat_body E t u nm ag gd d = Raise e →
  book_seat E t u nm ag gd d = Done (booking_failed E e) d.
Proof. intros H. unfold book_seat, exception_when_others. by rewrite H. Qed.

(** On a train that does not exist the body runs into the foreign key of
    [bookings.train_id], unless an earlier check stops it first. *)
Lemma book_seat_body_missing_train E i u nm ag gd d :
  trains d !! i = None →
  ∃ e, book_seat_body E (Some i) u nm ag gd d = Raise e.
Proof.
  intros Hi.
  destruct (book_seat_body E (Some i) u nm ag gd d) as [e|r d'] eqn:H; [eauto|].
  apply book_seat_body_Done in H
    as [(_ & _ & ? & tr & [= <-] & Htr & _)|(? & ? & ? & ? & _ & _ & _ & _ & _ & _ & H)].
  - congruence.
  - destruct H as (tr & Htr & _). congruence.
Qed.

Lemma insert_booking_foreign_key E i u nm ag gd d n :
  trains d !! i = None →
  acceptable_call E (Some i) u nm ag gd d →
  insert_booking E u (Some i) n nm ag gd d
  = (if seat_taken (Some i) n (bookings d)
     then Raise (unique_violation "bookings_train_id_seat_number_key")
     else Raise (foreign_key_violation "bookings_train_id_fkey")).
Proof.
  intros Hi (_ & (name & -> & Hname) & [age ->] & (gender & -> & Hgender)
             & Hid & Hu & _).
  unfold insert_booking, varchar, check, mbind, plpgsql_bind, bind. simpl.
  rewrite !coerce_varchar_fits by done. simpl.
  rewrite (bool_decide_eq_true_2 (bookings d !! _ = None)) by done. simpl.
  destruct (seat_taken _ _ _); simpl; [done|].
  rewrite (bool_decide_eq_false_2 (is_Some (trains d !! i)))
    by (rewrite Hi; by intros [? ?]).
  destruct u as [k|]; simpl; [|done].
  by rewrite bool_decide_eq_true_2 by auto.
Qed.

(** [book_seat] checks availability, not existence. Called for a train
    id that is not in [trains], it goes on to the insert, which an error
    stops (in an otherwise acceptable call: the foreign key
    [bookings_train_id_fkey]); the handler turns the error into the reply
    [Booking failed: ...] and the database is as before. Called for a train
    whose [available_seats <= 0], it replies [No seats available] and the
    database is as before. *)
Lemma book_seat_precondition_failures E i u nm ag gd d :
  (trains d !! i = None →
   (∃ e, book_seat E (Some i) u nm ag gd d = Done (booking_failed E e) d) ∧
   (acceptable_call E (Some i) u nm ag gd d →
    book_seat E (Some i) u nm ag gd d
    = Done (booking_failed E (foreign_key_violation "bookings_train_id_fkey"))
        d)) ∧
  (∀ tr, trains d !! i = Some tr → available_seats tr ≤ 0 →
   book_seat E (Some i) u nm ag gd d = Done no_seats_available d).
Proof.
  split.
  - intros Hi. split.
    + destruct (book_seat_body_missing_train E i u nm ag gd d Hi) as [e He].
      exists e. by apply book_seat_Raise.
    + intros Hok. apply book_seat_Raise, error_in_steps_Raise.
      pose proof Hok as (Hf & _ & _ & _ & _ & _ & Hmax & Hmin).
      split; [by simpl; rewrite Hi|]. right.
      exists (COALESCE (max_seat_number (Some i) (bookings d)) 0 + 1), d.
      unfold run_statement. rewrite !Hf. split.
      * unfold next_seat_number, int4_add, mbind, plpgsql_bind, bind. simpl.
        by rewrite bool_decide_eq_true_2.
      * left. rewrite insert_booking_foreign_key by done.
        by rewrite next_seat_not_taken.
  - intros tr Hi Hle. unfold book_seat, exception_when_others.
    by rewrite (book_seat_body_exhausted E i u nm ag gd d tr).
Qed.

Lemma book_seat_precondition_failures_witness :
  book_seat (pg 10) (Some 99%N) (Some 7%N) (Some "Asha"%string) (Some 34)
    (Some "Female"%string) sample_db
  = Done (booking_failed (pg 10)
            (foreign_key_violation "bookings_train_id_fkey")) sample_db
  ∧ book_seat (pg 10) (Some 1%N) (Some 7%N) (Some "Asha"%string) (Some 34)
      (Some "Female"%string) sold_out_db
    = Done no_seats_available sold_out_db.
Proof.
  split.
  - apply (book_seat_precondition_failures (pg 10) 99 (Some 7%N)
             (Some "Asha"%string) (Some 34) (Some "Female"%string) sample_db).
    + reflexivity.
    + repeat split; try (vm_compute; congruence).
      * exists "Asha"%string. split; [reflexivity|vm_compute; lia].
      * by exists 34.
      * exists "Female"%string. split; [reflexivity|vm_compute; lia].
      * intros k [= <-]. vm_compute. reflexivity.
  - apply (book_seat_precondition_failures (pg 10) 1 (Some 7%N)
             (Some "Asha"%string) (Some 34) (Some "Female"%string) sold_out_db)
      with (tr := with_available_seats 0 rajdhani).
    + vm_compute. reflexivity.
    + vm_compute. congruence.
Defined.

(** The [book_seat] of the schema-update migration makes both checks:
    a train id that selects no row of [trains], NULL included, is answered
    [Train not found], a train without free seats [No seats available],
    and the database is as before. *)
Lemma schema_update_book_seat_checks E t u nm ag gd d :
  ((t ≫= λ i, trains d !! i) = None →
   schema_update.book_seat E t u nm ag gd d
   = Done schema_update.train_not_found d) ∧
  (∀ i tr, t = Some i → trains d !! i = Some tr → available_seats tr ≤ 0 →
   schema_update.book_seat E t u nm ag gd d
   = Done schema_update.no_seats_available d).
Proof.
  unfold schema_update.book_seat, exception_when_others,
    schema_update.book_seat_body, select_train_for_update.
  unfold mbind, plpgsql_bind, mret, plpgsql_ret, bind, get, ret.
  split.
  - destruct t as [i|]; simpl; [|done]. by intros ->.
  - intros i tr -> Hi Hle. simpl. rewrite Hi. simpl.
    by rewrite bool_decide_eq_true_2 by done.
Qed.

(** C4, what the code does at the failing input. On the sample data a
    call of [book_seat] for train 99, which is not in [trains], is not
    answered [not found]: the function of the first migration makes no
    existence check, goes on to the insert, and replies with the
    foreign-key error of the insert, leaving the database as it was. A
    call with a NULL train id, which selects no train either, books a row.
    The [book_seat] of the schema-update migration answers both calls
    [Train not found] and changes nothing. *)
Lemma book_seat_no_existence_check :
  let first := book_seat (pg 10) in
  let later := schema_update.book_seat (pg 10) in
  let call_for t f :=
    f t (Some 7%N) (Some "Asha"%string) (Some 34) (Some "Female"%string)
      sample_db in
  let fkey :=
    booking_failed (pg 10) (foreign_key_violation "bookings_train_id_fkey") in
  trains sample_db !! 99%N = None ∧
  call_for (Some 99%N) first = Done fkey sample_db ∧
  not_found_reply fkey = false ∧
  reply_of (call_for None first) = Some (booking_successful 10 1) ∧
  train_id <$> bookings (state_of (call_for None first) sample_db) !! 10%N
  = Some None ∧
  call_for (Some 99%N) later = Done schema_update.train_not_found sample_db ∧
  call_for None later = Done schema_update.train_not_found sample_db ∧
  not_found_reply schema_update.train_not_found = true.
Proof. repeat split; vm_compute; reflexivity. Qed.



(** ** Issuance of seat numbers *)







(** The scenario of the spec: seats 1, 2, 3 are held, seat 2 is cancelled,
    the next booking gets 4. *)
Example cancel_below_the_maximum :
  let d := run [asha (pg 10) 1; asha (pg 11) 1; asha (pg 12) 1;
                call_delete_booking storage_ok 11 7] sample_db in
  available_seats <$> trains d !! 1%N = Some 98 ∧
  reply_of (book_seat (pg 13) (Some 1%N) (Some 8%N) (Some "Ravi"%string)
              (Some 41) (Some "Male"%string) d)
  = Some (booking_successful 13 4).
Proof. split; vm_compute; reflexivity. Qed.

(** A call with a NULL train id is not rejected: the row goes in without a
    train and no counter moves. *)
Example book_seat_null_train :
  let o := book_seat (pg 10) None (Some 7%N) (Some "Asha"%string) (Some 34)
             (Some "Female"%string) sample_db in
  reply_of o = Some (booking_successful 10 1) ∧
  train_id <$> bookings (state_of o sample_db) !! 10%N = Some None ∧
  trains (state_of o sample_db) = trains sample_db.
Proof. repeat split; vm_compute; reflexivity. Qed.

(** ** Cancellation *)

Lemma delete_booking_not_found C id user d :
  fetch_booking id user d = None →
  delete_booking C id user d = (res 404 (error_body "Booking not found"), d).
Proof.
  intros H. unfold delete_booking. rewrite H. by destruct (fetch_error C).
Qed.

(** When the storage service answers all three requests, the row is gone,
    the train's counter is one higher, and the booking is no longer found. *)
Lemma delete_booking_applied id user d b i tr :
  bookings d !! id = Some b → user_id b = Some user →
  train_id b = Some i → trains d !! i = Some tr →
  available_seats tr + 1 ≤ int4_max →
  let d' := (delete_booking storage_ok id user d).2 in
  (delete_booking storage_ok id user d).1
  = res 200 (message_body "Booking cancelled successfully") ∧
  bookings d' = delete id (bookings d) ∧
  trains d' = <[i := with_available_seats (available_seats tr + 1) tr]> (trains d) ∧
  get_booking id user d' = 404%nat.
Proof.
  intros Hb Hu Hi Htr Hmax. unfold delete_booking, fetch_booking. simpl.
  rewrite Hb. simpl. rewrite bool_decide_eq_true_2 by done.
  unfold increment_available_seats. simpl. rewrite Hi. simpl. rewrite Htr. simpl.
  rewrite bool_decide_eq_true_2 by done. simpl. repeat split.
  unfold get_booking, fetch_booking. simpl. by rewrite lookup_delete_eq.
Qed.

(** When the third request comes back with an error, or throws, the row is
    gone all the same and the counter has not moved. *)
Lemma delete_booking_without_increment C id user d b :
  fetch_error C = None → delete_error C = None →
  seats_update C ≠ update_applied →
  bookings d !! id = Some b → user_id b = Some user →
  let d' := (delete_booking C id user d).2 in
  bookings d' = delete id (bookings d) ∧ trains d' = trains d.
Proof.
  intros Hf Hd Hs Hb Hu. unfold delete_booking, fetch_booking.
  rewrite Hf, Hd, Hb. simpl. rewrite bool_decide_eq_true_2 by done.
  by destruct (seats_update C).
Qed.

(** C6, what the code does at the failing input. Asha's booking (id 10,
    user 7, train 1) is cancelled while the update of [trains] comes back
    with an error: the route answers 200 [Booking cancelled successfully],
    the booking row is deleted, and the Rajdhani Express still counts 99
    free seats of 100, with no booking on it. When the client throws on the
    update instead, the answer is 500 and the database ends the same. *)
Lemma delete_booking_not_atomic :
  let out := delete_booking storage_update_fails 10 7 one_booking_db in
  let out' := delete_booking storage_update_throws 10 7 one_booking_db in
  is_Some (fetch_booking 10 7 one_booking_db) ∧
  out.1 = res 200 (message_body "Booking cancelled successfully") ∧
  out'.1 = res 500 (error_body "Failed to cancel booking") ∧
  out'.2 = out.2 ∧
  bookings out.2 = ∅ ∧
  get_booking 10 7 out.2 = 404%nat ∧
  available_seats <$> trains out.2 !! 1%N = Some 99 ∧
  total_seats <$> trains out.2 !! 1%N = Some 100.
Proof. repeat split; try (vm_compute; reflexivity). by eexists. Qed.

(** ** Validation at the booking gateway *)

Lemma truthy_false v : truthy v = false ↔ js_falsy v.
Proof.
  split.
  - destruct v as [ | | b | x | s | ]; simpl; try done; try constructor.
    + destruct b; [done|constructor].
    + destruct x; try done; constructor.
    + destruct s; [constructor|done].
  - by destruct 1.
Qed.

(** C10. Whatever client the route is given, a [POST /bookings] whose
    [train_id], [passenger_name], [passenger_age] or [passenger_gender] is
    missing or falsy is answered 400 [All passenger details are required]
    and the database is untouched: the client is not called. An age of 0 is
    such a request. *)
Theorem post_bookings_rejects_falsy rpc user req d :
  (js_falsy (req_train_id req) ∨ js_falsy (req_passenger_name req)
   ∨ js_falsy (req_passenger_age req) ∨ js_falsy (req_passenger_gender req) →
   post_bookings rpc user req d
   = (res 400 (error_body "All passenger details are required"), d)) ∧
  (∀ negative, req_passenger_age req = js_number (S754_zero negative) →
   post_bookings rpc user req d
   = (res 400 (error_body "All passenger details are required"), d)).
Proof.
  assert (js_falsy (req_train_id req) ∨ js_falsy (req_passenger_name req)
          ∨ js_falsy (req_passenger_age req)
          ∨ js_falsy (req_passenger_gender req) →
          post_bookings rpc user req d
          = (res 400 (error_body "All passenger details are required"), d))
    as Hguard.
  { rewrite <- !truthy_false. unfold post_bookings.
    intros [-> | [-> | [-> | ->]]]; simpl; by rewrite ?orb_true_r. }
  split; [done|].
  intros negative Hage. apply Hguard. right. right. left. rewrite Hage.
  constructor.
Qed.

Lemma post_bookings_rejects_falsy_witness :
  post_bookings eager_rpc 7 age_zero_request sample_db
  = (res 400 (error_body "All passenger details are required"), sample_db).
Proof.
  apply (post_bookings_rejects_falsy eager_rpc 7 age_zero_request sample_db)
    with (negative := false).
  reflexivity.
Defined.

(** ** Search *)

#[local] Arguments String.append !_ _ / : simpl nomatch.

Lemma string_app_nil_r (s : string) : s +:+ EmptyString = s.
Proof. induction s; simpl; congruence. Qed.

Lemma string_map_app f (a b : string) :
  string_map f (a +:+ b) = string_map f a +:+ string_map f b.
Proof. induction a; simpl; congruence. Qed.

Lemma starts_with_spec needle hay :
  starts_with needle hay = true ↔ ∃ rest, hay = needle +:+ rest.
Proof.
  revert hay. induction needle as [|a needle IH]; intros hay; simpl.
  - split; [eauto|done].
  - destruct hay as [|b hay]; [split; [done|by intros [? ?]]|].
    rewrite andb_true_iff, Ascii.eqb_eq, IH. split.
    + intros [-> [rest ->]]. eauto.
    + intros [rest [= -> ->]]. eauto.
Qed.

Lemma occurs_in_spec needle hay :
  occurs_in needle hay = true ↔
  ∃ before rest, hay = before +:+ needle +:+ rest.
Proof.
  induction hay as [|b hay IH]; simpl.
  - rewrite orb_false_r, starts_with_spec. split.
    + intros [rest ->]. by exists EmptyString, rest.
    + intros ([|? ?] & rest & H); [eauto|done].
  - rewrite orb_true_iff, starts_with_spec, IH. split.
    + intros [[rest ->]|(before & rest & ->)].
      * by exists EmptyString, rest.
      * by exists (String b before), rest.
    + intros ([|c before] & rest & H); simpl in H.
      * left. eauto.
      * right. injection H as -> ->. eauto.
Qed.

Lemma like_match_percent_unfold p t :
  like_match (String "%" p) t
  = like_match p t
    || match t with
       | EmptyString => false
       | String _ t' => like_match (String "%" p) t'
       end.
Proof. by destruct t. Qed.

Lemma like_match_percent p t :
  like_match (String "%" p) t = true ↔
  ∃ before rest, t = before +:+ rest ∧ like_match p rest = true.
Proof.
  induction t as [|c t IH]; rewrite like_match_percent_unfold.
  - rewrite orb_false_r. split.
    + intros H. by exists EmptyString, EmptyString.
    + intros ([|? ?] & rest & H & Hm); [by simpl in H; subst|done].
  - rewrite orb_true_iff, IH. split.
    + intros [H|(before & rest & -> & H)].
      * by exists EmptyString, (String c t).
      * by exists (String c before), rest.
    + intros ([|c' before] & rest & H & Hm); simpl in H.
      * left. by subst.
      * right. injection H as -> ->. eauto.
Qed.

Lemma like_match_literal c p t :
  pattern_char c = false →
  like_match (String c p) t
  = match t with
    | EmptyString => false
    | String a t' => Ascii.eqb a c && like_match p t'
    end.
Proof.
  unfold pattern_char. intros H.
  apply orb_false_iff in H as [H _]. apply orb_false_iff in H as [H H3].
  apply orb_false_iff in H as [H1 H2]. simpl. by rewrite H1, H2, H3.
Qed.

Lemma like_match_plain s p t :
  plain s = true →
  like_match (s +:+ p) t = true ↔ ∃ rest, t = s +:+ rest ∧ like_match p rest = true.
Proof.
  revert t. induction s as [|c s IH]; intros t Hs.
  - simpl. split; [eauto|by intros (? & -> & ?)].
  - simpl in Hs. apply andb_true_iff in Hs as [Hc Hs].
    apply negb_true_iff in Hc.
    change (String c s +:+ p)%string with (String c (s +:+ p)).
    rewrite like_match_literal by done. destruct t as [|a t].
    + split; [done|by intros (? & ? & _)].
    + rewrite andb_true_iff, Ascii.eqb_eq, (IH _ Hs). split.
      * intros [-> (rest & -> & ?)]. eauto.
      * intros (rest & [= -> ->] & ?). eauto.
Qed.

Lemma like_match_contains s t :
  plain s = true →
  like_match ("%" +:+ s +:+ "%") t = occurs_in s t.
Proof.
  intros Hs. apply eq_true_iff_eq.
  change ("%" +:+ s +:+ "%")%string with (String "%" (s +:+ "%")).
  rewrite like_match_percent, occurs_in_spec. split.
  - intros (before & rest & -> & (rest' & -> & _)%like_match_plain); eauto.
  - intros (before & rest & ->). exists before, (s +:+ rest). split; [done|].
    apply like_match_plain; [done|]. exists rest. split; [done|].
    apply like_match_percent. exists rest, EmptyString.
    by rewrite string_app_nil_r.
Qed.

Lemma to_lower_plain c :
  pattern_char c = false → pattern_char (to_lower c) = false.
Proof.
  destruct c as [[] [] [] [] [] [] [] []]; vm_compute; congruence.
Qed.

Lemma lower_plain s : plain s = true → plain (lower s) = true.
Proof.
  induction s as [|c s IH]; [done|]. simpl.
  intros [Hc Hs]%andb_true_iff. apply negb_true_iff in Hc.
  apply andb_true_iff. split; [|by apply IH].
  apply negb_true_iff. by apply to_lower_plain.
Qed.

Lemma star_plain s : plain s = true → string_map star s = s.
Proof.
  induction s as [|c s IH]; [done|]. simpl.
  intros [Hc Hs]%andb_true_iff. rewrite (IH Hs). f_equal.
  unfold star. destruct (Ascii.eqb c "*") eqn:Hstar; [|done].
  unfold pattern_char in Hc. rewrite Hstar, !orb_true_r in Hc. done.
Qed.

(** For a term without pattern characters, the filter of the route is the
    substring test, letter case aside. *)
Lemma ilike_contains s text :
  plain s = true → ilike ("%" +:+ s +:+ "%") text = contains_ci s text.
Proof.
  intros Hs. unfold ilike, contains_ci, lower.
  change ("%" +:+ s +:+ "%")%string with (String "%" (s +:+ "%")).
  simpl. rewrite !string_map_app. simpl. rewrite (star_plain s Hs).
  apply (like_match_contains (lower s)). by apply lower_plain.
Qed.

#[global] Instance departs_before_total : Total departs_before.
Proof. intros a b. unfold departs_before. lia. Qed.

Lemma search_rows_spec src dest date d i t :
  (i, t) ∈ search_rows src dest date d ↔
  trains d !! i = Some t ∧ search_filter src dest date (i, t) = true.
Proof.
  unfold search_rows. rewrite merge_sort_Permutation.
  rewrite list_elem_of_filter, elem_of_map_to_list. naive_solver.
Qed.

Lemma search_trains_cases C src dest date d :
  (∃ code msg, search_trains C src dest date d = res code (error_body msg)
               ∧ code ≠ 200%nat)
  ∨ (∃ day,
       search_trains C src dest date d
       = res 200 (trains_body
                    (search_rows (q_to_string src) (q_to_string dest) day d)
                    (length (search_rows (q_to_string src) (q_to_string dest)
                               day d))) ∧
       (if q_truthy date then date_in C (q_to_string date) = day ∧ is_Some day
        else day = None)).
Proof.
  unfold search_trains.
  destruct (negb (q_truthy src) || negb (q_truthy dest));
    [left; by eexists _, _|].
  destruct (q_truthy date).
  - destruct (search_error C); [left; by eexists _, _|].
    destruct (date_in C (q_to_string date)) as [day|];
      [|left; by eexists _, _].
    right. exists (Some day). eauto.
  - destruct (search_error C); [left; by eexists _, _|].
    right. by exists None.
Qed.

#[global] Instance departs_before_trans : Transitive departs_before.
Proof. intros a b c. unfold departs_before. lia. Qed.

Lemma search_filter_expected C src dest date day i t :
  plain (q_to_string src) = true → plain (q_to_string dest) = true →
  (if q_truthy date then date_in C (q_to_string date) = day ∧ is_Some day
   else day = None) →
  search_filter (q_to_string src) (q_to_string dest) day (i, t) = true ↔
  search_expected C src dest date t.
Proof.
  intros Hs Hd Hday. unfold search_filter, search_expected. cbn [snd].
  rewrite !andb_true_iff, !ilike_contains, bool_decide_eq_true by done.
  destruct (q_truthy date).
  - destruct Hday as [-> [day' ->]]. rewrite bool_decide_eq_true.
    split; [intros [[[? ?] ?] ->]|intros (? & ? & ? & H)]; repeat split; auto.
    specialize (H eq_refl). congruence.
  - subst day. naive_solver.
Qed.

(** C9, as the code has it. The trains a search returns are rows of
    [trains] with [available_seats > 0], in ascending order of
    [departure_time]. When the source and destination terms carry none of
    the pattern characters of ILIKE and PostgREST, the trains returned are
    exactly those with seats left whose source and destination contain the
    terms as substrings, letter case aside (and whose day is the one asked
    for, if any). *)
Theorem search_trains_result C src dest date d :
  let r := search_trains C src dest date d in
  StronglySorted departs_before (trains_found r) ∧
  (∀ i t, (i, t) ∈ trains_found r →
     trains d !! i = Some t ∧ 0 < available_seats t) ∧
  (plain (q_to_string src) = true → plain (q_to_string dest) = true →
   (∀ i t, (i, t) ∈ trains_found r → search_expected C src dest date t) ∧
   (status r = 200%nat →
    ∀ i t, trains d !! i = Some t → search_expected C src dest date t →
           (i, t) ∈ trains_found r)).
Proof.
  intros r. subst r.
  destruct (search_trains_cases C src dest date d)
    as [(code & msg & -> & Hcode)|(day & -> & Hday)].
  { unfold trains_found. cbn [body res status]. split; [constructor|].
    split; [by intros ? ? ?%elem_of_nil|]. intros _ _.
    split; [by intros ? ? ?%elem_of_nil|done]. }
  unfold trains_found. cbn [body res status].
  split; [apply StronglySorted_merge_sort; apply _|]. split.
  - intros i t [Hi Hf]%search_rows_spec. split; [done|].
    unfold search_filter in Hf. cbn [snd] in Hf.
    rewrite !andb_true_iff in Hf. destruct Hf as [[[_ _] Hf] _].
    by apply bool_decide_eq_true in Hf.
  - intros Hs Hd. split.
    + intros i t [Hi Hf]%search_rows_spec.
      by eapply search_filter_expected.
    + intros _ i t Hi He. apply search_rows_spec. split; [done|].
      by eapply search_filter_expected.
Qed.

Lemma search_trains_result_witness :
  let r := search_trains search_ok (q_string "delhi") (q_string "MUM")
             q_undefined sample_db in
  status r = 200%nat ∧
  (∀ i t, (i, t) ∈ trains_found r →
     search_expected search_ok (q_string "delhi") (q_string "MUM")
       q_undefined t) ∧
  (1%N, rajdhani) ∈ trains_found r.
Proof.
  pose proof (search_trains_result search_ok (q_string "delhi")
                (q_string "MUM") q_undefined sample_db) as (_ & _ & H).
  destruct (H eq_refl eq_refl) as [Hsound Hcomplete].
  split; [reflexivity|]. split; [exact Hsound|].
  apply Hcomplete; [reflexivity|reflexivity|].
  repeat split; vm_compute; congruence.
Defined.

(** C9, as the spec words it, fails: the terms are spliced into an ILIKE
    pattern, where [_] and [%] are wildcards. On the sample data a search
    from [D_lhi] to [Mumbai] returns the Rajdhani Express, whose source
    [Delhi] does not contain [D_lhi]. *)
Lemma search_wildcard_counterexample :
  search_trains search_ok (q_string "D_lhi") (q_string "Mumbai") q_undefined
    sample_db
  = res 200 (trains_body [(1%N, rajdhani)] 1) ∧
  contains_ci "D_lhi" (source rajdhani) = false.
Proof. split; vm_compute; reflexivity. Qed.

(** ** Selling out, one call after the other *)

Lemma booking_failed_not_exhausted E e : booking_failed E e ≠ no_seats_available.
Proof. unfold booking_failed, no_seats_available. intros [= H]. Qed.

Lemma book_seat_exhausted_reply E i u nm ag gd d d' tr :
  trains d !! i = Some tr →
  book_seat E (Some i) u nm ag gd d = Done no_seats_available d' →
  available_seats tr ≤ 0 ∧ d' = d.
Proof.
  intros Hi. unfold book_seat, exception_when_others.
  destruct (book_seat_body _ _ _ _ _ _ _) as [e|r0 d0] eqn:Hb.
  { intros [Hf _]%ret_Done. by apply booking_failed_not_exhausted in Hf. }
  intros [= -> ->].
  apply book_seat_body_Done in Hb
    as [(_ & -> & k & tk & [= <-] & Hk & Hle)|(? & ? & ? & ? & _ & _ & _ & [=] & _)].
  split; [|done]. congruence.
Qed.

Lemma book_seat_success_counter E i u nm ag gd d r d' tr :
  book_seat E (Some i) u nm ag gd d = Done r d' → success r = true →
  trains d !! i = Some tr →
  0 < available_seats tr ∧
  trains d' !! i = Some (book_one E tr (available_seats tr - 1)).
Proof.
  intros [[Hr _]|[_ H]]%book_seat_Done Hs Hi; [congruence|].
  apply book_seat_body_Done in H
    as [(-> & _)|(? & ? & ? & d1 & _ & _ & _ & _ & _ & -> & tr' & Htr & Hpos & ->)];
    [done|].
  simplify_eq. split; [done|]. simpl. by rewrite lookup_insert_eq.
Qed.

(** Calls for one train served in turn, none of which runs into an error:
    as many succeed as the counter allowed, all before the first refusal;
    every later one is refused with [No seats available]; and the counter
    ends lower by the number of successes. *)
Lemma sell_out_in_turn i cs d tr :
  trains d !! i = Some tr → 0 ≤ available_seats tr →
  Forall (λ r, success r = true ∨ r = no_seats_available)
    (book_in_turn i cs d).1 →
  length (book_in_turn i cs d).1 = length cs ∧
  (∀ k r, (book_in_turn i cs d).1 !! k = Some r →
     if bool_decide (Z.of_nat k < available_seats tr)
     then success r = true else r = no_seats_available) ∧
  available_seats <$> trains (book_in_turn i cs d).2 !! i
  = Some (available_seats tr - Z.min (available_seats tr) (Z.of_nat (length cs))).
Proof.
  revert d tr. induction cs as [|c cs IH]; intros d tr Hi Hpos Hall.
  { simpl. rewrite Hi. simpl. split; [done|]. split; [done|].
    f_equal. lia. }
  simpl in *.
  destruct (book_seat_returns (call_engine c) (Some i) (call_user c)
              (call_name c) (call_age c) (call_gender c) d) as (r & d' & H).
  rewrite H in *.
  destruct (book_in_turn i cs d') as [rs d''] eqn:Hrest. simpl in *.
  apply Forall_cons in Hall as [Hr Hall].
  assert (∃ tr', trains d' !! i = Some tr' ∧
            ((success r = true ∧ 0 < available_seats tr
              ∧ available_seats tr' = available_seats tr - 1)
             ∨ (r = no_seats_available ∧ available_seats tr = 0
                ∧ tr' = tr))) as (tr' & Hi' & Hstep).
  { destruct Hr as [Hs | ->].
    - destruct (book_seat_success_counter _ _ _ _ _ _ _ _ _ tr H Hs Hi)
        as [Hlt Hi1].
      eexists. split; [done|]. left. by repeat split.
    - apply (book_seat_exhausted_reply _ _ _ _ _ _ _ _ tr Hi) in H as [? ->].
      exists tr. split; [done|]. right. repeat split. lia. }
  specialize (IH d' tr' Hi'). rewrite Hrest in IH. simpl in IH.
  destruct IH as (Hlen & Hk & Hend); [destruct Hstep as [(_ & ? & ?)|(_ & ? & ->)]; lia|done|].
  split; [by rewrite Hlen|]. split.
  - intros [|k] r0 Hr0; simpl in Hr0.
    + simplify_eq. destruct Hstep as [(? & ? & _)|(? & ? & _)].
      * by rewrite bool_decide_eq_true_2 by lia.
      * by rewrite bool_decide_eq_false_2 by lia.
    + specialize (Hk k r0 Hr0).
      destruct Hstep as [(_ & ? & Heq)|(_ & ? & ->)].
      * rewrite Heq in Hk. do 2 case_bool_decide; try done; lia.
      * do 2 case_bool_decide; try done; lia.
  - rewrite Hend. f_equal.
    destruct Hstep as [(_ & ? & Heq)|(_ & ? & ->)]; lia.
Qed.

(** The scenario of the spec, with the two calls in either order: one seat,
    two calls; the first gets seat 1, the second is refused, the counter
    ends at 0 with one booking. *)
Example last_seat_scenario :
  let out := book_in_turn 1 [passenger 10 "Asha"; passenger 11 "Ravi"]
               one_seat_db in
  let out' := book_in_turn 1 [passenger 11 "Ravi"; passenger 10 "Asha"]
                one_seat_db in
  out.1 = [booking_successful 10 1; no_seats_available] ∧
  out'.1 = [booking_successful 11 1; no_seats_available] ∧
  available_seats <$> trains out.2 !! 1%N = Some 0 ∧
  seat_number <$> bookings out.2 = {[ 10%N := 1 ]}.
Proof. repeat split; vm_compute; reflexivity. Qed.

(** * Further properties of the routes and the migrations *)

(** ** All that a call of [book_seat] does *)

Lemma insert_booking_checks E u t n nm ag gd d id d' :
  insert_booking E u t n nm ag gd d = Done id d' →
  ∃ name age gender,
    stored 100 nm = Some name ∧ ag = Some age ∧ stored 10 gd = Some gender ∧
    (String.length name ≤ 100)%nat ∧ (String.length gender ≤ 10)%nat ∧
    (∀ k, u = Some k → k ∈ auth_users d).
Proof.
  unfold insert_booking. intros H. block_inv.
  match goal with
  | H1 : stored 100 nm = Some ?name, H2 : stored 10 gd = Some ?gender |- _ =>
      exists name; eexists; exists gender; pose proof H1 as Hn;
      pose proof H2 as Hg
  end.
  unfold stored in Hn, Hg.
  destruct nm as [s|]; [|done]. destruct gd as [g|]; [|done]. simpl in *.
  apply coerce_varchar_length in Hn, Hg.
  repeat split; try done.
  intros k ->.
  by match goal with H : bool_decide (_ ∈ _) = true |- _ =>
    apply bool_decide_eq_true in H end.
Qed.

(** A call either leaves the database as it was and hands out nothing, or
    has written the one row and taken the one seat. *)
Lemma book_seat_effect E t u nm ag gd d r d' :
  book_seat E t u nm ag gd d = Done r d' →
  (d' = d ∧ success r = false ∧ booking_id r = None
   ∧ reply_seat_number r = None)
  ∨ (∃ name age gender,
       let id := gen_random_uuid E in
       let n := COALESCE (max_seat_number t (bookings d)) 0 + 1 in
       r = booking_successful id n ∧
       bookings d !! id = None ∧
       n ≤ int4_max ∧
       (String.length name ≤ 100)%nat ∧ (String.length gender ≤ 10)%nat ∧
       (∀ k, u = Some k → k ∈ auth_users d) ∧
       bookings d' = <[id := new_booking E u t n name age gender]> (bookings d) ∧
       auth_users d' = auth_users d ∧
       match t with
       | Some i =>
           ∃ tr, trains d !! i = Some tr ∧ 0 < available_seats tr ∧
             trains d'
             = <[i := book_one E tr (available_seats tr - 1)]> (trains d)
       | None => trains d' = trains d
       end).
Proof.
  unfold book_seat, exception_when_others.
  destruct (book_seat_body _ _ _ _ _ _ _) as [e|r0 d0] eqn:Hb.
  { intros [<- <-]%ret_Done. by left. }
  intros [= <- <-]. pose proof Hb as Hb'.
  apply book_seat_body_Done in Hb
    as [(-> & -> & _)
       |(name & age & gender & d1 & Hnm & -> & Hgd & -> & Hid & -> & H)];
    [by left|].
  right. exists name, age, gender.
  unfold book_seat_body, select_train_for_update, next_seat_number in Hb'.
  block_inv. destruct (seats_exhausted _); block_inv.
  match goal with H : insert_booking _ _ _ _ _ _ _ _ = _ |- _ =>
    apply insert_booking_checks in H
      as (? & ? & ? & ? & ? & ? & ? & ? & ?) end.
  simplify_eq. repeat split; try done; try lia.
  - destruct t as [i|]; [by destruct H as (tr & _ & _ & ->)|by subst].
  - destruct t as [i|]; [by destruct H as (tr & _ & _ & ->)|by subst].
  - destruct t as [i|]; [|by subst].
    destruct H as (tr & ? & ? & ->). by exists tr.
Qed.

Lemma max_seat_number_after_insert t bs id row :
  bs !! id = None → train_id row = t → is_Some t →
  seat_number row = COALESCE (max_seat_number t bs) 0 + 1 →
  COALESCE (max_seat_number t (<[id := row]> bs)) 0 = seat_number row.
Proof.
  intros Hid Ht [i ->] Hn.
  assert (bookings_of (Some i) (<[id := row]> bs) !! id = Some row) as Hrow.
  { apply bookings_of_lookup. rewrite lookup_insert_eq. eauto. }
  destruct (max_seat_number_ge _ _ _ _ Hrow) as (m & Hm & Hle).
  rewrite Hm. simpl.
  apply max_seat_number_attained in Hm as (j & b & Hb & <-).
  apply bookings_of_lookup in Hb as [Hb (k & [= <-] & Hk)].
  apply lookup_insert_Some in Hb as [[_ <-]|[_ Hb]]; [done|].
  assert (seat_number b < COALESCE (max_seat_number (Some i) bs) 0 + 1).
  { apply (next_seat_above _ _ j). apply bookings_of_lookup. eauto. }
  lia.
Qed.

(** ** Cancelling *)

(** X1. A cancellation touches no booking but the one it names, and that
    one only if it is the caller's: the row is either still there or is
    gone and was the caller's. Asked for a booking that is missing or is
    someone else's, the route answers 404 and changes nothing, whatever
    the storage service answers; and an answer of 404 or of
    [Failed to delete booking] always means that nothing changed. *)
Theorem cancel_only_own C id user d :
  let out := delete_booking C id user d in
  (∀ j, j ≠ id → bookings out.2 !! j = bookings d !! j) ∧
  (bookings out.2 !! id = bookings d !! id
   ∨ (bookings out.2 !! id = None
      ∧ ∃ b, bookings d !! id = Some b ∧ user_id b = Some user)) ∧
  (fetch_booking id user d = None →
   out = (res 404 (error_body "Booking not found"), d)) ∧
  (status out.1 = 404%nat
   ∨ (∃ e, body out.1 = error_details_body "Failed to delete booking" e) →
   out.2 = d).
Proof.
  unfold delete_booking.
  destruct (fetch_error C); [simpl; naive_solver|].
  destruct (fetch_booking id user d) as [b|] eqn:Hb; [|simpl; naive_solver].
  destruct (delete_error C); [simpl; naive_solver|].
  unfold fetch_booking in Hb.
  destruct (bookings d !! id) as [b'|] eqn:Hid; [|done].
  simpl in Hb. case_bool_decide; [|done]. simplify_eq.
  assert (∀ j, j ≠ id → delete id (bookings d) !! j = bookings d !! j)
    as Hdel1 by (intros j ?; by rewrite lookup_delete_ne).
  destruct (seats_update C); simpl.
  - unfold increment_available_seats.
    destruct (train_id b) as [k|]; simpl;
      [destruct (trains d !! k) as [tk|]; simpl; [case_bool_decide; simpl|]|];
      (split; [done|]);
      (split; [right; rewrite lookup_delete_eq; by eauto|]);
      (split; [done|]); intros [?|[? ?]]; done.
  - split; [done|]. split; [right; rewrite lookup_delete_eq; by eauto|].
    split; [done|]. intros [?|[? ?]]; done.
  - split; [done|]. split; [right; rewrite lookup_delete_eq; by eauto|].
    split; [done|]. intros [?|[? ?]]; done.
Qed.

(** X3. Booking, then cancelling. After a successful [book_seat] for a
    user on a train, the cancellation of that booking by that user, with
    the storage service answering the look-up and the deletion, leaves
    [bookings] and the users as they were before the booking, every other
    train as it was, and the train with its schedule. The counter of the
    train is back at its old value only if the third request of the route
    is applied; if it comes back with an error the answer is still 200 and
    the counter is one short, and if the client throws on it, as the
    client of supabase-js does, the answer is 500 [Failed to cancel
    booking] and the counter is one short. *)
Theorem book_then_cancel E C i user nm ag gd d r d1 id :
  book_seat E (Some i) (Some user) nm ag gd d = Done r d1 →
  booking_id r = Some id →
  (∀ t, trains d !! i = Some t → available_seats t ≤ int4_max) →
  fetch_error C = None → delete_error C = None →
  let out := delete_booking C id user d1 in
  out.1 = match seats_update C with
          | update_throws => res 500 (error_body "Failed to cancel booking")
          | _ => res 200 (message_body "Booking cancelled successfully")
          end ∧
  bookings out.2 = bookings d ∧
  auth_users out.2 = auth_users d ∧
  (∀ j, j ≠ i → trains out.2 !! j = trains d !! j) ∧
  ∃ t t', trains d !! i = Some t ∧ trains out.2 !! i = Some t' ∧
          same_schedule t t' ∧
          available_seats t' = match seats_update C with
                               | update_applied => available_seats t
                               | _ => available_seats t - 1
                               end.
Proof.
  intros H Hid Hmax Hfetch Hdelete.
  apply book_seat_effect in H
    as [(_ & _ & Hnone & _)|(name & age & gender & -> & Hfresh & _ & _ & _ & _
                              & Hb & Hu & tr & Htr & Hpos & Ht)];
    [congruence|].
  simpl in Hid. simplify_eq. specialize (Hmax tr Htr).
  unfold delete_booking, fetch_booking. rewrite Hfetch, Hdelete. simpl.
  rewrite Hb, lookup_insert_eq. simpl.
  rewrite bool_decide_eq_true_2 by done. simpl.
  destruct (seats_update C); simpl.
  - unfold increment_available_seats. simpl.
    rewrite Ht, lookup_insert_eq. simpl.
    rewrite bool_decide_eq_true_2 by lia. simpl. split; [done|].
    split; [by apply delete_insert_id|]. split; [done|]. split.
    + intros j Hj. by rewrite !lookup_insert_ne.
    + eexists _, _. split; [done|]. rewrite lookup_insert_eq. split; [done|].
      simpl. split; [by repeat split|lia].
  - split; [done|]. split; [by apply delete_insert_id|]. split; [done|].
    rewrite Ht. split.
    + intros j Hj. by rewrite lookup_insert_ne.
    + eexists _, _. split; [done|]. rewrite lookup_insert_eq. split; [done|].
      simpl. split; [by repeat split|done].
  - split; [done|]. split; [by apply delete_insert_id|]. split; [done|].
    rewrite Ht. split.
    + intros j Hj. by rewrite lookup_insert_ne.
    + eexists _, _. split; [done|]. rewrite lookup_insert_eq. split; [done|].
      simpl. split; [by repeat split|done].
Qed.

Lemma book_then_cancel_witness :
  let out := delete_booking storage_update_throws 10 7 one_booking_db in
  out.1 = res 500 (error_body "Failed to cancel booking") ∧
  bookings out.2 = bookings sample_db ∧
  auth_users out.2 = auth_users sample_db ∧
  (∀ j, j ≠ 1%N → trains out.2 !! j = trains sample_db !! j) ∧
  ∃ t t', trains sample_db !! 1%N = Some t ∧ trains out.2 !! 1%N = Some t' ∧
          same_schedule t t' ∧ available_seats t' = available_seats t - 1.
Proof.
  apply (book_then_cancel (pg 10) storage_update_throws 1 7
           (Some "Asha"%string) (Some 34) (Some "Female"%string) sample_db
           (booking_successful 10 1) one_booking_db 10).
  - vm_compute. reflexivity.
  - reflexivity.
  - intros t [= <-]. vm_compute. congruence.
  - reflexivity.
  - reflexivity.
Defined.

Lemma delete_booking_gone C id user d :
  status (delete_booking C id user d).1 = 200%nat →
  bookings (delete_booking C id user d).2 !! id = None.
Proof.
  unfold delete_booking.
  destruct (fetch_error C); [done|].
  destruct (fetch_booking id user d) as [b|]; [|done].
  destruct (delete_error C); [done|].
  destruct (seats_update C); simpl; try done.
  - intros _. unfold increment_available_seats.
    destruct (train_id b ≫= _) as [[k tk]|]; [case_bool_decide|]; simpl;
      by rewrite lookup_delete_eq.
  - intros _. by rewrite lookup_delete_eq.
Qed.

(** X4. A cancellation that was answered 200 is final: the booking is
    gone, looking it up gives 404, and cancelling it again is answered 404
    and changes nothing. *)
Theorem cancel_twice C C' id user d :
  status (delete_booking C id user d).1 = 200%nat →
  let d1 := (delete_booking C id user d).2 in
  bookings d1 !! id = None ∧
  get_booking id user d1 = 404%nat ∧
  delete_booking C' id user d1
  = (res 404 (error_body "Booking not found"), d1).
Proof.
  intros Hok. pose proof (delete_booking_gone C id user d Hok) as Hgone.
  assert (fetch_booking id user (delete_booking C id user d).2 = None) as Hf.
  { unfold fetch_booking. by rewrite Hgone. }
  split; [done|]. split.
  - unfold get_booking. by rewrite Hf.
  - unfold delete_booking at 1. rewrite Hf. by destruct (fetch_error C').
Qed.

Lemma cancel_twice_witness :
  let d1 := (delete_booking storage_update_fails 10 7 one_booking_db).2 in
  bookings d1 !! 10%N = None ∧
  get_booking 10 7 d1 = 404%nat ∧
  delete_booking storage_ok 10 7 d1
  = (res 404 (error_body "Booking not found"), d1).
Proof.
  apply (cancel_twice storage_update_fails storage_ok 10 7 one_booking_db).
  reflexivity.
Defined.

(** ** What bookings and cancellations leave alone *)

Lemma same_schedule_refl t : same_schedule t t.
Proof. by repeat split. Qed.

Lemma same_schedule_trans t1 t2 t3 :
  same_schedule t1 t2 → same_schedule t2 t3 → same_schedule t1 t3.
Proof. unfold same_schedule. intros ? ?. repeat split; naive_solver congruence. Qed.

Lemma lookup_insert_schedule (ts : gmap uuid train) i tr tr' j t :
  ts !! i = Some tr → same_schedule tr tr' → ts !! j = Some t →
  ∃ t', <[i := tr']> ts !! j = Some t' ∧ same_schedule t t'.
Proof.
  intros Hi Hs Hj. destruct (decide (i = j)) as [->|Hne].
  - rewrite lookup_insert_eq. simplify_eq. eauto.
  - rewrite lookup_insert_ne by done. eauto using same_schedule_refl.
Qed.

Lemma lookup_insert_present (ts : gmap uuid train) i tr' j :
  is_Some (ts !! i) → <[i := tr']> ts !! j = None ↔ ts !! j = None.
Proof.
  intros [tr Hi]. destruct (decide (i = j)) as [->|Hne].
  - rewrite lookup_insert_eq, Hi. naive_solver.
  - by rewrite lookup_insert_ne.
Qed.

(** One request: the users stay, no train comes or goes, and a train keeps
    its schedule and its capacity. *)
Lemma after_frame r d :
  auth_users (after r d) = auth_users d ∧
  (∀ i, trains (after r d) !! i = None ↔ trains d !! i = None) ∧
  (∀ i t, trains d !! i = Some t →
     ∃ t', trains (after r d) !! i = Some t' ∧ same_schedule t t').
Proof.
  assert (auth_users d = auth_users d ∧
          (∀ i, trains d !! i = None ↔ trains d !! i = None) ∧
          (∀ i t, trains d !! i = Some t →
             ∃ t', trains d !! i = Some t' ∧ same_schedule t t')) as Hsame
    by (repeat split; eauto using same_schedule_refl).
  destruct r as [E t u nm ag gd|C id user]; simpl.
  - destruct (book_seat_returns E t u nm ag gd d) as (r & d' & H). rewrite H.
    simpl. apply book_seat_effect in H
      as [(-> & _)|(name & age & gender & _ & _ & _ & _ & _ & _ & _ & Hu & Ht)];
      [done|].
    split; [done|]. destruct t as [i|].
    + destruct Ht as (tr & Hi & _ & ->). split.
      * intros j. by apply lookup_insert_present.
      * intros j tj Hj. eapply lookup_insert_schedule; [done| |done].
        by repeat split.
    + rewrite Ht. split; [done|]. eauto using same_schedule_refl.
  - unfold delete_booking.
    destruct (fetch_error C); [done|].
    destruct (fetch_booking id user d) as [b|]; [|done].
    destruct (delete_error C); [done|].
    destruct (seats_update C); try done. simpl.
    unfold increment_available_seats.
    destruct (train_id b) as [k|]; [|done]. simpl.
    destruct (trains d !! k) as [tk|] eqn:Hk; [|done]. simpl.
    case_bool_decide; [|done]. simpl. split; [done|]. split.
    + intros j. by apply lookup_insert_present.
    + intros j tj Hj. eapply lookup_insert_schedule; [done| |done].
      by repeat split.
Qed.

(** X2. Whatever bookings and cancellations are served, and however the
    engine and the storage service behave in them: the set of users is the
    same afterwards, no train has been added or removed, and every train
    has its number, name, route, times, day, price and [total_seats] as
    before. Only the counters and the bookings move. *)
Theorem run_frame rs d :
  auth_users (run rs d) = auth_users d ∧
  (∀ i, trains (run rs d) !! i = None ↔ trains d !! i = None) ∧
  (∀ i t, trains d !! i = Some t →
     ∃ t', trains (run rs d) !! i = Some t' ∧ same_schedule t t').
Proof.
  revert d. induction rs as [|r rs IH]; intros d.
  { simpl. repeat split; eauto using same_schedule_refl. }
  change (run (r :: rs) d) with (run rs (after r d)).
  destruct (IH (after r d)) as (Hu & Hn & Hs).
  destruct (after_frame r d) as (Hu1 & Hn1 & Hs1).
  split; [congruence|]. split.
  - intros i. by rewrite Hn, Hn1.
  - intros i t Hi. destruct (Hs1 i t Hi) as (t1 & Hi1 & Hs1').
    destruct (Hs i t1 Hi1) as (t' & Hi' & Hs').
    eauto using same_schedule_trans.
Qed.

(** ** Seat numbers of calls served in turn *)

Lemma seats_from_S m n : seats_from m (S n) = (m + 1) :: seats_from (m + 1) n.
Proof.
  unfold seats_from. simpl. f_equal.
  rewrite <- fmap_S_seq, <- list_fmap_compose.
  apply list_fmap_ext. intros _ k _. simpl. lia.
Qed.

(** X5. Calls of [book_seat] for one train, served one after the other,
    hand out consecutive seat numbers: with [m] the highest seat number
    held on the train before the first call (0 if there is none), the
    successful calls receive [m + 1], [m + 2], ... in the order they were
    served, whatever calls fail in between; and a reply carries a seat
    number exactly when it reports success. *)
Theorem seats_issued_in_turn i cs d :
  let rs := (book_in_turn i cs d).1 in
  issued rs
  = seats_from (COALESCE (max_seat_number (Some i) (bookings d)) 0)
      (length (issued rs)) ∧
  Forall (λ r, success r = true ↔ is_Some (reply_seat_number r)) rs.
Proof.
  revert d. induction cs as [|c cs IH]; intros d; [done|].
  simpl.
  destruct (book_seat_returns (call_engine c) (Some i) (call_user c)
              (call_name c) (call_age c) (call_gender c) d) as (r & d' & H).
  rewrite H. specialize (IH d').
  destruct (book_in_turn i cs d') as [rs d''] eqn:Hrest. simpl in *.
  destruct IH as [IH Hall].
  apply book_seat_effect in H
    as [(-> & Hs & _ & Hn)
       |(name & age & gender & -> & Hid & _ & _ & _ & _ & Hb & _)].
  - unfold issued in *. simpl. rewrite Hn. split; [done|].
    apply Forall_cons. split; [|done]. rewrite Hs, Hn.
    split; [done|by intros []].
  - unfold issued in *. simpl. split.
    + rewrite seats_from_S. f_equal.
      rewrite Hb in IH.
      rewrite max_seat_number_after_insert in IH by (simpl; eauto).
      exact IH.
    + apply Forall_cons. split; [|done]. simpl. naive_solver.
Qed.

(** ** The rows the routes leave in [bookings] *)

Lemma booking_sound_mono d d' b :
  auth_users d' = auth_users d →
  (∀ i, trains d' !! i = None ↔ trains d !! i = None) →
  booking_sound d b → booking_sound d' b.
Proof.
  intros Hu Hn (? & ? & ? & ? & Ht & Hus). repeat split; try done; try lia.
  - intros i Hi. apply Ht in Hi. apply not_eq_None_Some.
    rewrite Hn. by apply not_eq_None_Some.
  - intros u Hb. rewrite Hu. by apply Hus.
Qed.

Lemma delete_booking_bookings C id user d :
  bookings (delete_booking C id user d).2 = bookings d
  ∨ bookings (delete_booking C id user d).2 = delete id (bookings d).
Proof.
  unfold delete_booking.
  destruct (fetch_error C); [by left|].
  destruct (fetch_booking id user d) as [b|]; [|by left].
  destruct (delete_error C); [by left|].
  destruct (seats_update C); simpl; try by right.
  unfold increment_available_seats.
  destruct (train_id b) as [k|]; [|by right]. simpl.
  destruct (trains d !! k) as [tk|]; [|by right]. simpl.
  case_bool_decide; by right.
Qed.

Lemma next_seat_positive t d :
  bookings_sound d → 1 ≤ COALESCE (max_seat_number t (bookings d)) 0 + 1.
Proof.
  intros Hd. destruct (max_seat_number t (bookings d)) as [m|] eqn:Hm; [|done].
  apply max_seat_number_attained in Hm as (j & b & Hb & <-).
  apply bookings_of_lookup in Hb as [Hb _].
  destruct (Hd j b Hb) as [? _]. simpl. lia.
Qed.

Lemma after_sound r d : bookings_sound d → bookings_sound (after r d).
Proof.
  intros Hd. destruct (after_frame r d) as (Hu & Hn & _).
  intros id b Hb.
  assert (bookings d !! id = Some b ∨ booking_sound (after r d) b)
    as [Hold|Hnew]; [|by eapply booking_sound_mono, Hd|done].
  destruct r as [E t u nm ag gd|C j user]; simpl in *.
  - pose proof (next_seat_positive t d Hd) as Hpos.
    destruct (book_seat_returns E t u nm ag gd d) as (r & d' & H).
    rewrite H in *. simpl in *.
    apply book_seat_effect in H
      as [(-> & _)
         |(name & age & gender & _ & _ & Hmax & Hname & Hgender & Huser & Hbs
           & _ & Ht)]; [by left|].
    rewrite Hbs in Hb. apply lookup_insert_Some in Hb as [[_ <-]|[_ Hb]];
      [right|by left].
    repeat split; simpl; try done.
    + intros i ->. destruct Ht as (tr & _ & _ & ->).
      by rewrite lookup_insert_eq.
    + intros k ->. rewrite Hu. by apply Huser.
  - left. destruct (delete_booking_bookings C j user d) as [Heq|Heq];
      rewrite Heq in Hb; [done|].
    by apply lookup_delete_Some in Hb as [_ ?].
Qed.

Lemma updated_row_Some id u d j t' :
  updated_row id u d = Some (j, t') →
  ∃ t, trains d !! id = Some t ∧ names_no_column u = false ∧
       apply_updates u t = Some t' ∧ assign id (upd_id u) = Some j ∧
       train_fits t' = true ∧
       (j = id ∨ (trains d !! j = None
                  ∧ ∀ k b, bookings d !! k = Some b → train_id b ≠ Some id)) ∧
       (∀ k t0, trains d !! k = Some t0 → k ≠ id →
                train_number t0 ≠ train_number t').
Proof.
  unfold updated_row. destruct (trains d !! id) as [t|]; [|done]. simpl.
  destruct (names_no_column u); [done|].
  destruct (apply_updates u t) as [t1|] eqn:Ht1; [|done]. simpl.
  destruct (assign id (upd_id u)) as [j1|]; [|done]. simpl.
  destruct (train_fits t1) eqn:Hfits; [|done]. simpl.
  destruct (update_allowed d id j1 t1) eqn:Hok; [|done]. intros [= <- <-].
  unfold update_allowed in Hok.
  apply andb_true_iff in Hok as [Hok Hfk].
  apply andb_true_iff in Hok as [Hpk Huniq].
  apply bool_decide_eq_true in Huniq.
  exists t. do 5 (split; [done|]). split.
  - apply orb_true_iff in Hpk as [Hpk|Hpk]; apply bool_decide_eq_true in Hpk;
      [by left|].
    apply orb_true_iff in Hfk as [Hfk|Hfk]; apply bool_decide_eq_true in Hfk;
      [by left|].
    right. split; [done|]. intros k b Hb. by apply (Hfk k b).
  - intros k t0 Hk Hne. by destruct (Huniq k t0 Hk).
Qed.

Lemma put_train_sound m id u d :
  bookings_sound d → bookings_sound (put_train m id u d).2.
Proof.
  intros Hd. unfold put_train.
  destruct (updated_row id u d) as [[j t']|] eqn:Hrow; [|done].
  apply updated_row_Some in Hrow as (t & Hid & _ & _ & _ & _ & Hj & _).
  intros k b Hb. simpl in *.
  destruct (Hd k b Hb) as (? & ? & ? & ? & Ht & Hu).
  repeat split; try done; try lia.
  intros i Hi. simpl. destruct (decide (i = j)) as [->|Hij].
  { by rewrite lookup_insert_eq. }
  rewrite lookup_insert_ne by done.
  destruct Hj as [->|[_ Hfk]].
  - rewrite lookup_delete_ne by done. by apply Ht.
  - destruct (decide (i = id)) as [->|Hiid]; [by destruct (Hfk k b Hb)|].
    rewrite lookup_delete_ne by done. by apply Ht.
Qed.

(** X6. Every row the routes leave in [bookings], in any state reached
    from a database without bookings through calls of [book_seat],
    cancellations and the administrator's updates, has a seat number
    between 1 and the top of [integer], the status [confirmed], a name of
    at most 100 and a gender of at most 10 characters, a train that is in
    [trains] if it names one, and a user that is in [auth.users] if it
    names one. *)
Theorem bookings_sound_invariant d :
  reachable_with_admin d → bookings_sound d.
Proof.
  induction 1 as [d [Hd _]|r d _ IH|m id u d _ IH].
  - intros id b. by rewrite Hd, lookup_empty.
  - by apply after_sound.
  - by apply put_train_sound.
Qed.

Lemma bookings_sound_invariant_witness :
  bookings_sound
    (put_train "" 1 (only_total_seats 0)
       (run [asha (pg 10) 1; asha (pg 11) 1;
             call_delete_booking storage_update_fails 10 7] sample_db)).2.
Proof.
  apply (bookings_sound_invariant
           (put_train "" 1 (only_total_seats 0)
              (run [asha (pg 10) 1; asha (pg 11) 1;
                    call_delete_booking storage_update_fails 10 7]
                 sample_db)).2).
  apply admin_put. do 3 apply admin_after. apply admin_fresh.
  split; [reflexivity|].
  apply (bool_decide_unpack
           (map_Forall (λ _ t, 0 ≤ available_seats t ≤ total_seats t)
              (trains sample_db))).
  vm_compute. exact I.
Defined.

(** ** Counters and bookings in balance *)

Lemma bookings_of_delete_other t bs id b :
  bs !! id = Some b → train_id b ≠ t →
  bookings_of t (delete id bs) = bookings_of t bs.
Proof.
  intros Hb Hne. rewrite bookings_of_delete. apply delete_id.
  destruct (bookings_of t bs !! id) as [b'|] eqn:Hb'; [|done].
  apply bookings_of_lookup in Hb' as [Hb' (k & -> & Hk)]. congruence.
Qed.

Lemma size_bookings_of_delete_same j bs id b :
  bs !! id = Some b → train_id b = Some j →
  S (size (bookings_of (Some j) (delete id bs)))
  = size (bookings_of (Some j) bs).
Proof.
  intros Hb Hj. rewrite bookings_of_delete.
  assert (bookings_of (Some j) bs !! id = Some b) as Hin
    by (apply bookings_of_lookup; eauto).
  rewrite <- (insert_delete_id _ _ _ Hin) at 2.
  by rewrite map_size_insert_None by apply lookup_delete_eq.
Qed.

Lemma after_behind r d k :
  (∀ i t, trains d !! i = Some t →
     0 ≤ seats_behind d i t ≤ k ∧ total_seats t ≤ int4_max) →
  ∀ i t, trains (after r d) !! i = Some t →
    0 ≤ seats_behind (after r d) i t ≤ k + (if update_lost r then 1 else 0).
Proof.
  intros Hd. unfold seats_behind in *.
  destruct r as [E t u nm ag gd|C id user]; simpl in *.
  - destruct (book_seat_returns E t u nm ag gd d) as (r & d' & H). rewrite H.
    simpl. apply book_seat_effect in H
      as [(-> & _)|(name & age & gender & _ & Hid & _ & _ & _ & _ & Hbs & _ & Ht)].
    { intros i ti Hi. destruct (Hd i ti Hi). lia. }
    intros j tj. rewrite Hbs. destruct t as [i|].
    + destruct Ht as (tr & Hi & _ & ->).
      rewrite lookup_insert_Some. intros [[<- <-]|[Hne Hj]]; simpl.
      * rewrite bookings_of_insert_same by done.
        rewrite map_size_insert_None by by apply bookings_of_fresh.
        destruct (Hd i tr Hi). lia.
      * rewrite bookings_of_insert_other; [|simpl; congruence|done].
        destruct (Hd j tj Hj). lia.
    + rewrite Ht. intros Hj.
      rewrite bookings_of_insert_other; [|done|done].
      destruct (Hd j tj Hj). lia.
  - assert (∀ i ti, trains d !! i = Some ti →
              0 ≤ total_seats ti - available_seats ti
                  - Z.of_nat (size (bookings_of (Some i) (bookings d)))
                ≤ k + (if match seats_update C with
                          | update_applied => false
                          | _ => true
                          end then 1 else 0)) as Hsame.
    { intros i ti Hi. destruct (Hd i ti Hi). destruct (seats_update C); lia. }
    unfold delete_booking.
    destruct (fetch_error C); [exact Hsame|].
    destruct (fetch_booking id user d) as [b|] eqn:Hb; [|exact Hsame].
    destruct (delete_error C); [exact Hsame|]. clear Hsame.
    unfold fetch_booking in Hb.
    destruct (bookings d !! id) as [b'|] eqn:Hid; [|done].
    simpl in Hb. case_bool_decide; [|done]. simplify_eq.
    assert (∀ j, size (bookings_of (Some j) (bookings d))
                 = (if decide (train_id b = Some j)
                    then S (size (bookings_of (Some j) (delete id (bookings d))))
                    else size (bookings_of (Some j) (delete id (bookings d)))))
      as Hsize.
    { intros j. destruct (decide (train_id b = Some j)) as [Hj|Hj].
      - by rewrite (size_bookings_of_delete_same j _ id b).
      - by rewrite (bookings_of_delete_other _ _ _ b). }
    assert (∀ j tj, trains d !! j = Some tj →
              0 ≤ total_seats tj - available_seats tj
                  - Z.of_nat (size (bookings_of (Some j)
                                      (delete id (bookings d)))) ≤ k + 1)
      as Hlost.
    { intros j tj Hj. destruct (Hd j tj Hj). rewrite (Hsize j) in *.
      destruct (decide (train_id b = Some j)); lia. }
    destruct (seats_update C); simpl; [|done|done].
    unfold increment_available_seats.
    destruct (train_id b) as [i|] eqn:Hi; simpl.
    + destruct (trains d !! i) as [ti|] eqn:Hti; simpl.
      * pose proof (Hd i ti Hti) as [Hbi Hcap]. pose proof (Hsize i) as Hsi.
        rewrite decide_True in Hsi by done.
        rewrite bool_decide_eq_true_2 by lia. simpl.
        intros j tj. simpl. rewrite lookup_insert_Some.
        intros [[<- <-]|[Hne Hj]]; simpl; [lia|].
        destruct (Hd j tj Hj). rewrite (Hsize j) in *.
        rewrite decide_False in * by congruence. lia.
      * intros j tj Hj. simpl in *. destruct (Hd j tj Hj).
        rewrite (Hsize j) in *. rewrite decide_False in * by congruence. lia.
    + intros j tj Hj. simpl in *. destruct (Hd j tj Hj).
      rewrite <- (Hsize j). lia.
Qed.

Lemma run_behind rs d k :
  (∀ i t, trains d !! i = Some t →
     0 ≤ seats_behind d i t ≤ Z.of_nat k ∧ total_seats t ≤ int4_max) →
  ∀ i t, trains (run rs d) !! i = Some t →
    0 ≤ seats_behind (run rs d) i t
      ≤ Z.of_nat (k + length (filter (λ r, update_lost r = true) rs)).
Proof.
  revert d k. induction rs as [|r rs IH]; intros d k Hd i t Hi.
  { simpl in *. destruct (Hd i t Hi). lia. }
  change (run (r :: rs) d) with (run rs (after r d)) in *.
  rewrite filter_cons.
  assert (∀ i t, trains (after r d) !! i = Some t →
            0 ≤ seats_behind (after r d) i t
              ≤ Z.of_nat (k + (if update_lost r then 1 else 0))
            ∧ total_seats t ≤ int4_max) as Hd1.
  { intros j tj Hj. split.
    - pose proof (after_behind r d (Z.of_nat k) Hd j tj Hj).
      destruct (update_lost r); lia.
    - destruct (after_frame r d) as (_ & Hn & Hs).
      destruct (trains d !! j) as [t0|] eqn:Hj0.
      + destruct (Hs j t0 Hj0) as (t' & Hj' & Hsch). simplify_eq.
        destruct Hsch as (_ & _ & _ & _ & -> & _). by destruct (Hd j t0 Hj0).
      + apply Hn in Hj0. congruence. }
  specialize (IH _ _ Hd1 i t Hi).
  destruct (update_lost r) eqn:Hr.
  - rewrite decide_True by done. simpl length. lia.
  - rewrite decide_False by done. lia.
Qed.

(** X7. The counters fall behind by at most one seat for each
    cancellation whose counter update did not go through, and never run
    ahead. Starting from a database with no bookings and every counter at
    its train's capacity, after any run of calls of [book_seat] and
    cancellations, on every train the seats that are neither available
    nor booked are at least 0 and at most the number of such
    cancellations in the run; with none, [available_seats] plus the
    number of the train's bookings is exactly [total_seats]. *)
Theorem seats_behind_bound rs d :
  pristine d →
  ∀ i t, trains (run rs d) !! i = Some t →
    0 ≤ seats_behind (run rs d) i t
      ≤ Z.of_nat (length (filter (λ r, update_lost r = true) rs)).
Proof.
  intros [Hbs Hts]. apply (run_behind rs d 0).
  intros i t Hi. unfold seats_behind. rewrite Hbs. unfold bookings_of.
  rewrite map_filter_empty, map_size_empty. destruct (Hts i t Hi). simpl. lia.
Qed.

Lemma seats_behind_bound_witness :
  0 ≤ seats_behind
        (run [asha (pg 10) 1; asha (pg 11) 2; asha (pg 12) 1;
              call_delete_booking storage_update_fails 10 7;
              call_delete_booking storage_ok 11 7] sample_db)
        1 (book_one (pg 12) (book_one (pg 10) rajdhani 99) 98)
    ≤ 1.
Proof.
  apply (seats_behind_bound
           [asha (pg 10) 1; asha (pg 11) 2; asha (pg 12) 1;
            call_delete_booking storage_update_fails 10 7;
            call_delete_booking storage_ok 11 7] sample_db).
  - split; [reflexivity|].
    apply (bool_decide_unpack
             (map_Forall (λ _ t, available_seats t = total_seats t
                                 ∧ 0 ≤ total_seats t ≤ int4_max)
                (trains sample_db))).
    vm_compute. exact I.
  - vm_compute. reflexivity.
Defined.

(** ** [book_seat] without a train, and in its later version *)

Lemma max_seat_number_null bs : max_seat_number None bs = None.
Proof.
  destruct (max_seat_number None bs) as [m|] eqn:Hm; [|done].
  apply max_seat_number_attained in Hm as (j & b & Hb & _).
  by apply bookings_of_lookup in Hb as [_ (k & ? & _)].
Qed.

(** X8. Called with a NULL [p_train_id], [book_seat] never looks at a
    counter: it leaves [trains] as it is and never answers
    [No seats available]; when it succeeds it has written a booking
    without a train, and the seat number it hands out is 1, every time. *)
Theorem book_seat_without_train E u nm ag gd d :
  ∃ r d', book_seat E None u nm ag gd d = Done r d' ∧
    trains d' = trains d ∧
    r ≠ no_seats_available ∧
    (success r = true →
     r = booking_successful (gen_random_uuid E) 1 ∧
     ∃ name age gender,
       bookings d'
       = <[gen_random_uuid E := new_booking E u None 1 name age gender]>
           (bookings d)).
Proof.
  unfold book_seat, exception_when_others.
  destruct (book_seat_body E None u nm ag gd d) as [e|r d'] eqn:Hb.
  { eexists _, _. split; [done|]. split; [done|].
    split; [apply booking_failed_not_exhausted|done]. }
  eexists _, _. split; [done|].
  apply book_seat_body_Done in Hb
    as [(_ & _ & i & tr & ? & _)
       |(name & age & gender & d1 & _ & _ & _ & -> & _ & -> & ->)]; [done|].
  rewrite max_seat_number_null. simpl. split; [done|]. split; [done|].
  intros _. split; [done|]. by exists name, age, gender.
Qed.

(** X9. The [book_seat] of the schema-update migration differs from the
    first one in two things. Its failure objects carry the key
    [seat_number], as [null], which the first version's leave out; and
    when [p_train_id] names no row of [trains] (an unknown id, or NULL) it
    answers [Train not found] and changes nothing. Apart from that the two
    agree: when the train exists they leave the same database, and the
    later reply is the first one's with the key brought in, which has the
    same [success], [message], [booking_id] and seat number. *)
Theorem schema_update_book_seat E t u nm ag gd d :
  schema_update.book_seat E t u nm ag gd d
  = (if bool_decide (is_Some (t ≫= λ i, trains d !! i))
     then match book_seat E t u nm ag gd d with
          | Done r d' => Done (with_seat_number_key r) d'
          | Raise e => Raise e
          end
     else Done schema_update.train_not_found d) ∧
  ∀ r, success (with_seat_number_key r) = success r ∧
       message (with_seat_number_key r) = message r ∧
       booking_id (with_seat_number_key r) = booking_id r ∧
       reply_seat_number (with_seat_number_key r) = reply_seat_number r ∧
       (with_seat_number_key r = r ↔ seat_number_key r ≠ key_absent).
Proof.
  split.
  - unfold schema_update.book_seat, book_seat, exception_when_others.
    unfold schema_update.book_seat_body, book_seat_body,
      select_train_for_update.
    unfold mbind, plpgsql_bind, mret, plpgsql_ret, bind, get, ret.
    destruct t as [i|]; simpl; [destruct (trains d !! i) as [tr|]; simpl|];
      [|done|done].
    case_bool_decide; [done|].
    destruct (run_statement E stmt_select_max _ d) as [e|n d1]; [done|].
    destruct (run_statement E stmt_insert _ d1) as [e|id d2]; [done|].
    by destruct (run_statement E stmt_update _ d2) as [e|[] d3].
  - intros [s m b k]. unfold with_seat_number_key, reply_seat_number. simpl.
    repeat split; destruct k; try done; by intros [=].
Qed.

(** ** [POST /bookings] over the function *)


(** A [train_id] that is no uuid: the service refuses the parameters,
    the route answers 500 with the service's message, and nothing is
    written. *)
Example post_bookings_no_uuid :
  post_bookings (book_seat_rpc (pg 10) uuid_args) 7 no_uuid_request sample_db
  = (res 500 (error_body "invalid input syntax for type uuid"), sample_db).
Proof. vm_compute. reflexivity. Qed.

(** ** The read routes *)

#[global] Instance newest_first_total : Total newest_first.
Proof.
  intros a b. unfold newest_first.
  destruct (booking_created_at (view_row a)),
    (booking_created_at (view_row b)); auto. lia.
Qed.

#[global] Instance newest_first_trans : Transitive newest_first.
Proof.
  intros a b c. unfold newest_first.
  destruct (booking_created_at (view_row a)),
    (booking_created_at (view_row b)),
    (booking_created_at (view_row c)); auto; try done. lia.
Qed.

Lemma embed_trains_spec d k b v :
  v = embed_trains d (k, b) ↔
  view_id v = k ∧ view_row v = b ∧
  view_trains v = details_of <$> (train_id b ≫= λ i, trains d !! i).
Proof.
  unfold embed_trains. destruct v as [k' b' t']. simpl.
  split; [by intros [= -> -> ->]|by intros (-> & -> & ->)].
Qed.

Lemma bookings_listed_spec user d v :
  v ∈ bookings_listed (my_bookings rows_sent user d) ↔
  bookings d !! view_id v = Some (view_row v) ∧
  user_id (view_row v) = Some user ∧
  view_trains v
  = details_of <$> (train_id (view_row v) ≫= λ i, trains d !! i).
Proof.
  unfold bookings_listed, my_bookings. cbn [snd].
  rewrite merge_sort_Permutation, list_elem_of_fmap. split.
  - intros ([k b] & Hv & [Hu Hb]%list_elem_of_filter).
    apply elem_of_map_to_list in Hb. apply embed_trains_spec in Hv
      as (<- & <- & ->). done.
  - intros (Hb & Hu & Ht). exists (view_id v, view_row v). split.
    + by apply embed_trains_spec.
    + apply list_elem_of_filter. split; [done|].
      by apply elem_of_map_to_list.
Qed.

(** X11. [GET /bookings/my-bookings] lists the caller's bookings, all of
    them and no one else's: a row is in the list exactly when it is a row
    of [bookings] whose [user_id] is the caller, shown with the details of
    its train (null when it has none). Each booking is listed once, and
    the list runs from the newest [created_at] to the oldest. *)
Theorem my_bookings_lists user d :
  let rows := bookings_listed (my_bookings rows_sent user d) in
  my_bookings rows_sent user d = (200%nat, bookings_list rows) ∧
  StronglySorted newest_first rows ∧
  NoDup (view_id <$> rows) ∧
  ∀ v, v ∈ rows ↔
    bookings d !! view_id v = Some (view_row v) ∧
    user_id (view_row v) = Some user ∧
    view_trains v
    = details_of <$> (train_id (view_row v) ≫= λ i, trains d !! i).
Proof.
  split; [done|]. split; [|split].
  - unfold bookings_listed, my_bookings. cbn [snd].
    apply StronglySorted_merge_sort; apply _.
  - unfold bookings_listed, my_bookings. cbn [snd].
    rewrite merge_sort_Permutation, <- list_fmap_compose.
    eapply sublist_NoDup; [apply (NoDup_fst_map_to_list (bookings d))|].
    apply (fmap_sublist fst), sublist_filter.
  - apply bookings_listed_spec.
Qed.

(** X12. [GET /bookings/:id] shows a booking exactly when
    [GET /bookings/my-bookings] lists it for the same caller, and then
    shows the same row. A booking of someone else is not told apart from
    one that does not exist: the answer is the answer the route would give
    with that row gone from the table, which is 404 when the storage
    service answers. *)
Theorem booking_by_id_private answer id user d :
  (∀ v, booking_by_id rows_sent id user d = (200%nat, booking_item v) ↔
        v ∈ bookings_listed (my_bookings rows_sent user d) ∧ view_id v = id) ∧
  (∀ b, bookings d !! id = Some b → user_id b ≠ Some user →
        booking_by_id answer id user d
        = booking_by_id answer id user (set_bookings (delete id (bookings d)) d)
        ∧ (answer ≠ read_throws →
           booking_by_id answer id user d
           = (404%nat, read_error "Booking not found"))).
Proof.
  unfold booking_by_id, fetch_booking. split.
  - intros v. rewrite bookings_listed_spec.
    destruct (bookings d !! id) as [b|] eqn:Hb; simpl.
    + case_bool_decide as Hu.
      * split.
        -- intros [= Hv]. symmetry in Hv.
           apply embed_trains_spec in Hv as (-> & -> & ->). by rewrite Hb.
        -- intros [(Hv & _ & Ht) <-]. do 2 f_equal. symmetry.
           apply embed_trains_spec. rewrite Hb in Hv. by simplify_eq.
      * split; [done|]. intros [(Hv & Hu' & _) <-]. rewrite Hb in Hv.
        by simplify_eq.
    + split; [done|]. intros [(Hv & _) <-]. by rewrite Hb in Hv.
  - intros b Hb Hu. simpl. rewrite Hb, lookup_delete_eq. simpl.
    rewrite bool_decide_eq_false_2 by done. by destruct answer.
Qed.

Lemma trains_listed_spec d i t :
  (i, t) ∈ trains_listed (list_trains rows_sent d) ↔ trains d !! i = Some t.
Proof.
  unfold trains_listed, list_trains. cbn [snd].
  by rewrite merge_sort_Permutation, elem_of_map_to_list.
Qed.

(** X13. [GET /trains] lists the table: every row once, in ascending
    order of [departure_time]. The other reads agree with it:
    [GET /trains/:id] finds a train exactly when the list has it under
    that id, and whatever a search or the handler for today's trains
    returns is in the list; today's trains are those of the day with
    seats left. *)
Theorem list_trains_all d :
  let rows := trains_listed (list_trains rows_sent d) in
  list_trains rows_sent d = (200%nat, trains_list rows) ∧
  StronglySorted departs_before rows ∧
  rows ≡ₚ map_to_list (trains d) ∧
  (∀ i t, train_by_id rows_sent (Some i) d = (200%nat, train_item (i, t))
          ↔ (i, t) ∈ rows) ∧
  (∀ src dest date row, row ∈ search_rows src dest date d → row ∈ rows) ∧
  (∀ today row, row ∈ trains_listed (trains_today rows_sent today d) ↔
     row ∈ rows ∧ journey_date row.2 = today ∧ 0 < available_seats row.2).
Proof.
  split; [done|]. split; [|split; [|split; [|split]]].
  - unfold trains_listed, list_trains. cbn [snd].
    apply StronglySorted_merge_sort; apply _.
  - unfold trains_listed, list_trains. cbn [snd].
    apply merge_sort_Permutation.
  - intros i t. rewrite trains_listed_spec. unfold train_by_id. simpl.
    destruct (trains d !! i) as [t'|]; simpl; [|done].
    split; [by intros [= ->]|by intros [= ->]].
  - intros src dest date [i t] [Hi _]%search_rows_spec.
    by apply trains_listed_spec.
  - intros today [i t]. rewrite trains_listed_spec.
    unfold trains_listed, trains_today. cbn [snd].
    rewrite merge_sort_Permutation, list_elem_of_filter, elem_of_map_to_list.
    simpl. naive_solver.
Qed.

(** ** Routing *)

(** X14. No request reaches the handler registered for
    [GET /trains/today]: [GET /:id] is registered before it and takes
    every path the later route would take, so a request for [/today] (in
    any letter case) is served as the train with id [today]. Every other
    route of [trains.js] and every route of [bookings.js] is reached by
    some request, and [GET /bookings/my-bookings], registered before
    [GET /bookings/:id], is not taken for a booking id. *)
Theorem today_route_shadowed :
  (∀ m path, fst <$> dispatch trains_router m path ≠ Some today_handler) ∧
  (∀ s, lower s = "today"%string →
        dispatch trains_router GET [s] = Some (by_id_handler, [("id"%string, s)])) ∧
  (∀ h, h ≠ today_handler → reachable_route trains_router h) ∧
  (∀ h, reachable_route bookings_router h) ∧
  (∀ s, lower s = "my-bookings"%string →
        dispatch bookings_router GET [s] = Some (my_bookings_handler, [])).
Proof.
  split; [|split; [|split; [|split]]].
  - intros m path. unfold trains_router.
    destruct m, path as [|s [|s' path]]; simpl; try done;
      repeat (case_bool_decide; simpl); try done.
    subst. done.
  - intros s Hs. unfold trains_router. simpl. rewrite Hs.
    rewrite bool_decide_eq_false_2 by done. simpl.
    rewrite bool_decide_eq_false_2; [done|]. by intros ->.
  - intros h Hh. unfold reachable_route.
    destruct h; [| | | | |done].
    + by exists GET, ["search"%string], [].
    + by exists GET, [], [].
    + by exists GET, ["1"%string], [("id"%string, "1"%string)].
    + by exists POST, [], [].
    + by exists PUT, ["1"%string], [("id"%string, "1"%string)].
  - intros h. unfold reachable_route. destruct h.
    + by exists POST, [], [].
    + by exists GET, ["my-bookings"%string], [].
    + by exists GET, ["1"%string], [("id"%string, "1"%string)].
    + by exists DELETE, ["1"%string], [("id"%string, "1"%string)].
  - intros s Hs. unfold bookings_router. simpl. rewrite Hs.
    by rewrite bool_decide_eq_true_2 by done.
Qed.

(** ** Letter case in searches *)

Lemma to_lower_star c : to_lower (star c) = star (to_lower c).
Proof. by destruct c as [[] [] [] [] [] [] [] []]. Qed.

Lemma lower_star s : lower (string_map star s) = string_map star (lower s).
Proof.
  unfold lower. induction s as [|c s IH]; [done|].
  cbn [string_map]. by rewrite to_lower_star, IH.
Qed.

Lemma ilike_lower p p' text : lower p = lower p' → ilike p text = ilike p' text.
Proof. unfold ilike. rewrite !lower_star. by intros ->. Qed.

Lemma lower_empty s : lower s = EmptyString ↔ s = EmptyString.
Proof. by destruct s. Qed.

(** X15. A search does not see the letter case of its terms: two
    requests whose [source] and [destination] strings differ only in
    letter case get the same response, whatever the rest of the request
    and the state of the database. *)
Theorem search_ignores_case C src src' dest dest' date d :
  lower src = lower src' → lower dest = lower dest' →
  search_trains C (q_string src) (q_string dest) date d
  = search_trains C (q_string src') (q_string dest') date d.
Proof.
  intros Hs Hd.
  assert (∀ day, search_rows src dest day d = search_rows src' dest' day d)
    as Hrows.
  { intros day. unfold search_rows. f_equal. apply list_filter_iff.
    intros kt. unfold search_filter.
    rewrite (ilike_lower ("%" +:+ src +:+ "%") ("%" +:+ src' +:+ "%"))
      by (unfold lower; rewrite !string_map_app; by f_equal; f_equal).
    rewrite (ilike_lower ("%" +:+ dest +:+ "%") ("%" +:+ dest' +:+ "%"))
      by (unfold lower; rewrite !string_map_app; by f_equal; f_equal).
    done. }
  assert (bool_decide (src = EmptyString) = bool_decide (src' = EmptyString))
    as Hes.
  { apply bool_decide_ext.
    by rewrite <- (lower_empty src), <- (lower_empty src'), Hs. }
  assert (bool_decide (dest = EmptyString) = bool_decide (dest' = EmptyString))
    as Hed.
  { apply bool_decide_ext.
    by rewrite <- (lower_empty dest), <- (lower_empty dest'), Hd. }
  unfold search_trains. cbn [q_truthy q_to_string].
  rewrite Hes, Hed. destruct (_ || _); [done|].
  destruct (search_error C); [done|].
  destruct (q_truthy date); [destruct (date_in C _)|]; by rewrite ?Hrows.
Qed.

Lemma search_ignores_case_witness :
  search_trains search_ok (q_string "DELHI") (q_string "mumBAI") q_undefined
    sample_db
  = search_trains search_ok (q_string "delhi") (q_string "Mumbai") q_undefined
      sample_db.
Proof.
  apply (search_ignores_case search_ok "DELHI" "delhi" "mumBAI" "Mumbai"
           q_undefined sample_db); reflexivity.
Defined.

(** ** The token of [GET /auth/profile] *)

Lemma no_space_tail c s : no_space (String c s) → no_space s.
Proof. intros H before rest ->. by apply (H (String c before) rest). Qed.

Lemma no_space_head c s : no_space (String c s) → c ≠ " "%char.
Proof. intros H ->. by apply (H EmptyString s). Qed.

Lemma js_split_no_space s : no_space s → js_split " " s = [s].
Proof.
  induction s as [|c s IH]; [done|]. intros H. simpl.
  rewrite (proj2 (Ascii.eqb_neq _ _)) by by eapply no_space_head.
  by rewrite IH by by eapply no_space_tail.
Qed.

Lemma js_split_space a b :
  no_space a → js_split " " (a +:+ " " +:+ b) = a :: js_split " " b.
Proof.
  induction a as [|c a IH]; [done|]. intros H.
  change (String c a +:+ " " +:+ b) with (String c (a +:+ " " +:+ b)).
  cbn [js_split].
  rewrite (proj2 (Ascii.eqb_neq _ _)) by by eapply no_space_head.
  by rewrite IH by by eapply no_space_tail.
Qed.

Lemma js_split_cases s :
  no_space s
  ∨ ∃ a b, no_space a ∧ s = a +:+ " " +:+ b.
Proof.
  induction s as [|c s IH].
  { left. intros [|? ?] ?; done. }
  destruct (Ascii.eqb_spec c " ") as [->|Hc].
  { right. exists EmptyString, s. split; [|done]. intros [|? ?] ?; done. }
  destruct IH as [IH|(a & b & Ha & ->)].
  - left. intros [|c' before] rest; simpl; [congruence|].
    intros [= -> Hs]. by apply (IH before rest).
  - right. exists (String c a), b. split; [|done].
    intros [|c' before] rest; simpl; [congruence|].
    intros [= -> Hs]. by apply (Ha before rest).
Qed.

(** X16. The token [GET /auth/profile] reads is the second of the pieces
    the header falls into at its spaces. A header [scheme token], with no
    space inside either part and a token that is not empty, gets the
    answer the header [Bearer token] gets, whatever the scheme says, and
    when the token is some user's and the profile is read, that is 200
    with the user and the profile. A token that is accepted is never
    empty, holds no space, and sits in the header after the first space,
    up to the next one or the end. A missing header, and a header without
    a space, are answered 401, whatever the token service would say. *)
Theorem profile_token get_user answer profiles :
  (∀ scheme token,
     no_space scheme → no_space token → token ≠ EmptyString →
     auth_profile get_user answer profiles
       (Some (authorization_header scheme token))
     = auth_profile get_user answer profiles
         (Some (authorization_header "Bearer" token))
     ∧ ∀ user, get_user token = token_user user →
         auth_profile get_user rows_sent profiles
           (Some (authorization_header scheme token))
         = (200%nat, profile_found user (profiles !! user))) ∧
  (∀ h t, access_token h = Some t →
     t ≠ EmptyString ∧ no_space t ∧
     ∃ scheme rest,
       no_space scheme ∧ h = Some (scheme +:+ " " +:+ t +:+ rest) ∧
       (rest = EmptyString ∨ ∃ r, rest = " " +:+ r)) ∧
  (∀ h, h = None ∨ (∃ s, h = Some s ∧ no_space s) →
     auth_profile get_user answer profiles h
     = (401%nat, profile_error "Access token required")).
Proof.
  split; [|split].
  - intros scheme token Hs Ht Hne.
    assert (∀ scheme', no_space scheme' →
              access_token (Some (authorization_header scheme' token))
              = Some token) as Htoken.
    { intros scheme' Hs'. unfold access_token, authorization_header.
      cbn [mbind option_bind].
      rewrite js_split_space, js_split_no_space by done. simpl.
      unfold nonempty.
      rewrite (bool_decide_eq_false_2 (token = EmptyString)) by done.
      rewrite bool_decide_eq_false_2; [done|].
      destruct scheme'; done. }
    unfold auth_profile. rewrite !Htoken; [|
      intros before rest Hb;
      by repeat (destruct before as [|? before]; simplify_eq/=) |done].
    split; [done|]. by intros user ->.
  - intros [h|] t; [|done]. unfold access_token. cbn [mbind option_bind].
    destruct (nonempty h); [|done].
    destruct (js_split_cases h) as [Hh|(a & b & Ha & ->)].
    { by rewrite js_split_no_space. }
    rewrite js_split_space by done.
    destruct (js_split_cases b) as [Hb|(a' & b' & Ha' & ->)].
    + rewrite js_split_no_space by done. simpl. unfold nonempty.
      case_bool_decide; [done|]. intros [= <-].
      split; [done|]. split; [done|]. exists a, EmptyString.
      split; [done|]. split; [by rewrite string_app_nil_r|by left].
    + rewrite js_split_space by done. simpl. unfold nonempty.
      case_bool_decide; [done|]. intros [= <-].
      split; [done|]. split; [done|]. exists a, (" " +:+ b').
      split; [done|]. split; [done|by eauto].
  - intros h [->|(s & -> & Hs)]; [done|].
    unfold auth_profile, access_token. cbn [mbind option_bind].
    rewrite js_split_no_space by done. by destruct (nonempty s).
Qed.

(** ** The signup trigger *)

(** X17. The trigger that creates a profile at signup, in its two
    versions. For an id without a profile they do the same. For an id that
    has one, the first version fails (which undoes the signup) and the
    later one, when the column takes the name, succeeds and changes
    nothing. Either way a signup that goes through keeps every profile
    that was there as it was, adds at most the profile of the new id, and
    that profile holds the name as the column stores it (cut to 100
    characters when the excess is spaces), is not an administrator's and
    has no phone. *)
Theorem signup_profiles now id name ps :
  (ps !! id = None →
   schema_update.handle_new_user now id name ps
   = handle_new_user now id name ps) ∧
  (is_Some (ps !! id) →
   handle_new_user now id name ps = None ∧
   (is_Some (full_name_stored name) →
    schema_update.handle_new_user now id name ps = Some ps)) ∧
  (∀ ps', handle_new_user now id name ps = Some ps'
          ∨ schema_update.handle_new_user now id name ps = Some ps' →
     is_Some (ps' !! id) ∧
     (∀ j p, ps !! j = Some p → ps' !! j = Some p) ∧
     (∀ j p, ps' !! j = Some p →
        ps !! j = Some p
        ∨ (j = id ∧ full_name_stored name = Some (full_name p)
           ∧ is_admin p = Some false ∧ phone p = None))) ∧
  (∀ s, name = Some s →
     full_name_stored name
     = if bool_decide (String.length s ≤ 100)%nat then Some (Some s)
       else if all_blank (string_drop 100 s)
            then Some (Some (string_take 100 s))
            else None).
Proof.
  unfold handle_new_user, schema_update.handle_new_user.
  split; [|split; [|split]].
  - intros Hid. rewrite Hid, bool_decide_eq_true_2 by done. done.
  - intros [p Hid]. rewrite Hid, bool_decide_eq_false_2 by done.
    split; [by destruct (full_name_stored name)|]. by intros [n ->].
  - intros ps' H.
    assert (ps' = ps ∧ is_Some (ps !! id)
            ∨ ∃ n, full_name_stored name = Some n
                   ∧ ps' = <[id := signup_profile now n]> ps ∧ ps !! id = None)
      as [[-> Hid]|(n & Hn & -> & Hid)].
    { destruct (full_name_stored name) as [n|]; simpl in H;
        [|by destruct H]. destruct H as [H|H].
      - case_bool_decide; [|done]. right. exists n. by simplify_eq.
      - destruct (ps !! id) eqn:Hid; simplify_eq; eauto. }
    + split; [done|]. split; [done|]. by left.
    + split; [by rewrite lookup_insert_eq|]. split.
      * intros j p Hj. rewrite lookup_insert_ne; [done|]. congruence.
      * intros j p [[<- <-]|[_ Hj]]%lookup_insert_Some; [by right|by left].
  - intros s ->. unfold full_name_stored, coerce_varchar. simpl.
    case_bool_decide; [done|]. by destruct (all_blank _).
Qed.

(** ** The sample rows *)

Lemma has_train_number_mono n (ts ts' : gmap uuid train) :
  ts ⊆ ts' → has_train_number n ts = true → has_train_number n ts' = true.
Proof.
  unfold has_train_number. rewrite !bool_decide_eq_true.
  intros Hsub (i & t & Hi & Ht). exists i, t. split; [|done].
  by eapply lookup_weaken.
Qed.

Lemma insert_or_skip_Some now gen k rows ts ts' :
  insert_or_skip now gen k rows ts = Some ts' →
  ts ⊆ ts' ∧
  (∀ row, row ∈ rows → has_train_number (train_number row) ts' = true) ∧
  (∀ i t, ts' !! i = Some t →
     ts !! i = Some t
     ∨ ∃ row, row ∈ rows ∧ t = stamped now row
              ∧ has_train_number (train_number row) ts = false).
Proof.
  revert k ts. induction rows as [|row rows IH]; intros k ts; simpl.
  { intros [= ->]. split; [done|]. split; [by intros ? ?%elem_of_nil|by left]. }
  destruct (has_train_number (train_number row) ts) eqn:Hrow.
  - intros (Hsub & Hall & Hnew)%IH. split; [done|]. split.
    + intros r [->|Hr]%elem_of_cons; [|by apply Hall].
      by eapply has_train_number_mono.
    + intros i t [Hi|(r & Hr & -> & Hno)]%Hnew; [by left|].
      right. exists r. split; [by right|done].
  - case_bool_decide as Hfresh; [|done].
    assert (ts ⊆ <[gen k := stamped now row]> ts) as Hsub1
      by by apply insert_subseteq.
    intros (Hsub & Hall & Hnew)%IH. split; [by etrans|]. split.
    + intros r [->|Hr]%elem_of_cons; [|by apply Hall].
      eapply has_train_number_mono; [done|].
      unfold has_train_number. apply bool_decide_eq_true.
      exists (gen k), (stamped now row). by rewrite lookup_insert_eq.
    + intros i t [Hi|(r & Hr & -> & Hno)]%Hnew.
      * apply lookup_insert_Some in Hi as [[<- <-]|[_ Hi]]; [|by left].
        right. exists row. split; [by left|done].
      * right. exists r. split; [by right|]. split; [done|].
        destruct (has_train_number (train_number r) ts) eqn:Hr'; [|done].
        by rewrite (has_train_number_mono _ _ _ Hsub1 Hr') in Hno.
Qed.

Lemma insert_or_skip_present now gen k rows ts :
  (∀ row, row ∈ rows → has_train_number (train_number row) ts = true) →
  insert_or_skip now gen k rows ts = Some ts.
Proof.
  revert k. induction rows as [|row rows IH]; intros k Hall; [done|].
  simpl. rewrite Hall by by left. apply IH. intros r Hr. apply Hall. by right.
Qed.

(** X18. The insert of the sample trains, [ON CONFLICT (train_number) DO
    NOTHING]. When it goes through, every row that was in [trains] is
    still there unchanged, every new row is one of the sample rows whose
    number was not taken, all five numbers are present afterwards,
    nothing else in the database has moved, and running the statement
    again, at any time and with any ids drawn, changes nothing. *)
Theorem seed_trains_once now gen d d1 :
  seed_trains now gen d = Some d1 →
  bookings d1 = bookings d ∧ auth_users d1 = auth_users d ∧
  (∀ i t, trains d !! i = Some t → trains d1 !! i = Some t) ∧
  (∀ i t, trains d1 !! i = Some t →
     trains d !! i = Some t
     ∨ ∃ row, row ∈ sample_rows ∧ t = stamped now row
              ∧ has_train_number (train_number row) (trains d) = false) ∧
  (∀ row, row ∈ sample_rows →
     has_train_number (train_number row) (trains d1) = true) ∧
  (∀ now' gen', seed_trains now' gen' d1 = Some d1).
Proof.
  unfold seed_trains.
  destruct (insert_or_skip now gen 0 sample_rows (trains d)) as [ts|] eqn:H;
    [|done].
  intros [= <-]. apply insert_or_skip_Some in H as (Hsub & Hall & Hnew).
  split; [done|]. split; [done|]. split.
  { intros i t Hi. simpl. by eapply lookup_weaken. }
  split; [done|]. split; [done|].
  intros now' gen'. change (trains (set_trains ts d)) with ts.
  by rewrite insert_or_skip_present by done.
Qed.

Lemma seed_trains_once_witness :
  let d := set_trains {[ 9%N := rajdhani ]} sample_db in
  let d1 := set_trains {[ 9%N := rajdhani; 1%N := stamped 5 shatabdi;
                          2%N := stamped 5 duronto;
                          3%N := stamped 5 garib_rath;
                          4%N := stamped 5 humsafar ]} sample_db in
  bookings d1 = bookings d ∧ auth_users d1 = auth_users d ∧
  (∀ i t, trains d !! i = Some t → trains d1 !! i = Some t) ∧
  (∀ i t, trains d1 !! i = Some t →
     trains d !! i = Some t
     ∨ ∃ row, row ∈ sample_rows ∧ t = stamped 5 row
              ∧ has_train_number (train_number row) (trains d) = false) ∧
  (∀ row, row ∈ sample_rows →
     has_train_number (train_number row) (trains d1) = true) ∧
  (∀ now' gen', seed_trains now' gen' d1 = Some d1).
Proof.
  apply (seed_trains_once 5 N.of_nat
           (set_trains {[ 9%N := rajdhani ]} sample_db)).
  vm_compute. reflexivity.
Defined.

(** ** The administrator's update *)

(** X19. [PUT /trains/:id] writes one row of [trains] or nothing. It never
    touches [bookings] or the users, never changes a train other than the
    one it names, and leaves the number of trains as it was. It answers
    200 or 400; on 400 nothing has changed; an id that is not in [trains]
    and a body that names no column are answered 400. On 200 the row it
    wrote is the row the response shows and fits the column types, and no
    other train has its [train_number]; it sits under the id it had, or
    under a new id that was free, and then no booking referred to the
    train. *)
Theorem put_train_frame m id u d :
  let out := put_train m id u d in
  bookings out.2 = bookings d ∧ auth_users out.2 = auth_users d ∧
  size (trains out.2) = size (trains d) ∧
  (status out.1 = 200%nat ∨ status out.1 = 400%nat ∧ out.2 = d) ∧
  (trains d !! id = None ∨ names_no_column u = true → status out.1 = 400%nat) ∧
  (status out.1 = 200%nat →
   ∃ t j t',
     trains d !! id = Some t ∧
     body out.1 = train_body "Train updated successfully" j t' ∧
     trains out.2 = <[j := t']> (delete id (trains d)) ∧
     (j = id ∨ (trains d !! j = None
                ∧ ∀ k b, bookings d !! k = Some b → train_id b ≠ Some id)) ∧
     train_fits t' = true ∧
     (∀ k t0, trains out.2 !! k = Some t0 →
              train_number t0 = train_number t' → k = j) ∧
     (∀ k, k ≠ id → k ≠ j → trains out.2 !! k = trains d !! k)).
Proof.
  unfold put_train.
  destruct (updated_row id u d) as [[j t']|] eqn:Hrow; simpl.
  - pose proof Hrow as (t & Hid & Hcol & _ & _ & Hfits & Hj & Huniq)
      %updated_row_Some.
    split; [done|]. split; [done|]. split; [|split; [by left|split]].
    + rewrite map_size_insert_None.
      * rewrite map_size_delete, Hid. simpl.
        assert (size (trains d) ≠ 0%nat); [|lia].
        intros Hz%map_size_empty_inv. by rewrite Hz in Hid.
      * destruct Hj as [->|[Hfree _]]; [apply lookup_delete_eq|].
        apply lookup_delete_None. by right.
    + intros [Hnone|Hno]; congruence.
    + intros _. exists t, j, t'. do 5 (split; [done|]). split.
      * intros k t0 Hk Heq. destruct (decide (k = j)) as [|Hne]; [done|].
        rewrite lookup_insert_ne in Hk by done.
        apply lookup_delete_Some in Hk as [Hkid Hk].
        by destruct (Huniq k t0 Hk).
      * intros k Hkid Hkj.
        by rewrite lookup_insert_ne, lookup_delete_ne by done.
  - split; [done|]. split; [done|]. split; [done|]. split; [by right|].
    split; [done|done].
Qed.

(** ** The forms and the routes behind them *)

Lemma digit_value_nonneg c v : digit_value c = Some v → 0 ≤ v.
Proof.
  unfold digit_value.
  repeat (case_match; [intros [= <-]; lia|]). done.
Qed.

Lemma read_digits_nonneg radix acc s m :
  0 ≤ radix → (∀ a, acc = Some a → 0 ≤ a) →
  read_digits radix acc s = Some m → 0 ≤ m.
Proof.
  intros Hr. revert acc. induction s as [|c s IH]; intros acc Hacc; simpl.
  { by apply Hacc. }
  destruct (digit_value c) as [v|] eqn:Hv; [|by apply Hacc].
  apply digit_value_nonneg in Hv.
  destruct (v <? radix); [|by apply Hacc].
  apply IH. intros a [= <-].
  destruct acc as [a0|]; simpl; [specialize (Hacc a0 eq_refl); nia|lia].
Qed.

Lemma parseInt_nonneg s negative m : parseInt s = int_val negative m → 0 ≤ m.
Proof.
  unfold parseInt. destruct (strip_sign _) as [neg s1].
  destruct (strip_prefix s1) as [radix s2] eqn:Hp.
  destruct (read_digits radix None s2) as [m'|] eqn:Hm; [|done].
  intros [= <- <-].
  apply (read_digits_nonneg radix None s2); [|by intros ? [=]|done].
  unfold strip_prefix in Hp. repeat case_match; simplify_eq; lia.
Qed.

Lemma age_in_range_truthy n :
  1 ≤ n ≤ 120 → truthy (json_number (to_double (int_val false n))) = true.
Proof.
  intros Hn.
  assert (Forall (λ n, truthy (json_number (to_double (int_val false n)))
                       = true) (seqZ 1 120)) as Hall
    by (apply (bool_decide_unpack
                 (Forall (λ n, truthy (json_number
                                         (to_double (int_val false n))) = true)
                    (seqZ 1 120))); vm_compute; exact I).
  rewrite Forall_forall in Hall. apply Hall, elem_of_seqZ. lia.
Qed.

Lemma nonempty_true s : nonempty s = true ↔ s ≠ EmptyString.
Proof.
  unfold nonempty. rewrite negb_true_iff, bool_decide_eq_false. done.
Qed.

(** X20. What the booking form lets through, and what the route makes of
    it. The form posts only with a name that is not empty and with an age
    that [parseInt] reads as a whole number from 1 to 120, or does not
    read as a number at all: the two comparisons of [handleSubmit] are
    both false on NaN, so an age such as [abc] is posted, as [null]. The
    request the form posts is turned away by [POST /bookings] as
    incomplete, whatever is behind the route, exactly when the train id or
    the gender is empty or the age was not a number. *)
Theorem booking_form_posts train_id form :
  (∀ body, handleSubmit train_id form = api_post body →
     form_passenger_name form ≠ EmptyString ∧
     (parseInt (form_passenger_age form) = int_nan
      ∨ ∃ n, 1 ≤ n ≤ 120
             ∧ parseInt (form_passenger_age form) = int_val false n) ∧
     ((∀ rpc user d,
         post_bookings rpc user body d
         = (res 400 (error_body "All passenger details are required"), d))
      ↔ train_id = EmptyString ∨ form_passenger_gender form = EmptyString
        ∨ parseInt (form_passenger_age form) = int_nan)) ∧
  (form_passenger_name form ≠ EmptyString →
   form_passenger_age form ≠ EmptyString →
   parseInt (form_passenger_age form) = int_nan →
   ∃ body, handleSubmit train_id form = api_post body
           ∧ req_passenger_age body = js_null).
Proof.
  split.
  - intros body. unfold handleSubmit.
    destruct (nonempty (form_passenger_name form)) eqn:Hname; [|done].
    destruct (nonempty (form_passenger_age form)) eqn:Hage; [|done].
    simpl. apply nonempty_true in Hname.
    destruct (parseInt (form_passenger_age form)) as [|negative m] eqn:Hp.
    + simpl. intros [= <-]. split; [done|]. split; [by left|].
      unfold post_bookings. simpl. split; [by eauto|]. intros _ rpc user d.
      by rewrite !orb_true_r.
    + pose proof (parseInt_nonneg _ _ _ Hp) as Hm. simpl.
      destruct (Z.ltb_spec (int_signed negative m) 1); [done|].
      destruct (Z.ltb_spec 120 (int_signed negative m)); [done|].
      destruct negative; simpl in *; [lia|].
      intros [= <-]. split; [done|]. split; [right; exists m; split; [lia|done]|].
      unfold post_bookings. cbn [req_train_id req_passenger_name
        req_passenger_age req_passenger_gender].
      assert (truthy (json_number (binary_normalize 53 1024 m 0 false)) = true)
        as -> by (apply (age_in_range_truthy m); lia).
      cbn [truthy negb orb].
      rewrite (bool_decide_eq_false_2 (form_passenger_name form = _)) by done.
      cbn [negb orb]. rewrite !orb_false_r. split.
      * intros Hall. specialize (Hall (λ _ _ d, (rpc_throws, d)) 0%N sample_db).
        simpl in Hall.
        destruct (decide (train_id = EmptyString)) as [|Ht]; [by left|].
        destruct (decide (form_passenger_gender form = EmptyString))
          as [|Hg]; [by eauto|].
        rewrite (bool_decide_eq_false_2 _ Ht) in Hall.
        rewrite (bool_decide_eq_false_2 _ Hg) in Hall. done.
      * intros [->|[->|?]] rpc user d; [done| |done].
        by rewrite orb_true_r.
  - intros Hname Hage Hp. unfold handleSubmit.
    rewrite (proj2 (nonempty_true _) Hname), (proj2 (nonempty_true _) Hage).
    rewrite Hp. simpl. by eexists.
Qed.

(** X21. The search page and the route check the same thing. The page
    sends a search exactly when the route would not answer it 400; the
    search it sends is answered 200 or, when the storage service fails or
    cannot read the date, 500; and with the date field left empty the
    search is over all days. *)
Theorem search_form_sends C form d :
  let r := search_trains C (q_string (form_source form))
             (q_string (form_destination form)) (q_string (form_date form))
             d in
  ((∃ m, handleSearch form = search_toast m) ↔ status r = 400%nat) ∧
  (handleSearch form
   = api_get (q_string (form_source form))
       (q_string (form_destination form)) (q_string (form_date form))
   ↔ status r = 200%nat ∨ status r = 500%nat) ∧
  (form_date form = EmptyString → search_error C = None →
   status r = 200%nat →
   trains_found r
   = search_rows (form_source form) (form_destination form) None d).
Proof.
  unfold handleSearch, search_trains. cbn [q_truthy q_to_string].
  unfold nonempty.
  destruct (negb (negb (bool_decide (form_source form = EmptyString)))
            || negb (negb (bool_decide (form_destination form = EmptyString))))
    eqn:Hcheck.
  { simpl. split; [split; [done|by eauto]|]. split; [|done].
    split; [done|by intros [|]]. }
  split; [|split].
  - split; [by intros [? ?]|].
    destruct (search_error C); [done|].
    destruct (negb (bool_decide (form_date form = EmptyString)));
      [destruct (date_in C _)|]; done.
  - split; [|done]. intros _.
    destruct (search_error C); [by right|].
    destruct (negb (bool_decide (form_date form = EmptyString)));
      [destruct (date_in C _)|]; auto.
  - intros -> ->. by rewrite bool_decide_eq_true_2 by done.
Qed.

(** ** When [book_seat] succeeds *)

Lemma insert_booking_accepts E i u nm ag gd d tr :
  acceptable_call E (Some i) u nm ag gd d →
  trains d !! i = Some tr →
  ∃ name age gender,
    nm = Some name ∧ ag = Some age ∧ gd = Some gender ∧
    let n := COALESCE (max_seat_number (Some i) (bookings d)) 0 + 1 in
    insert_booking E u (Some i) n nm ag gd d
    = Done (gen_random_uuid E)
        (set_bookings
           (<[gen_random_uuid E := new_booking E u (Some i) n name age gender]>
              (bookings d)) d).
Proof.
  intros (_ & (name & -> & Hname) & [age ->] & (gender & -> & Hgender)
          & Hid & Hu & _) Hi.
  exists name, age, gender. do 3 (split; [done|]).
  unfold insert_booking, varchar, check, mbind, plpgsql_bind, bind. simpl.
  rewrite !coerce_varchar_fits by done. simpl.
  rewrite (bool_decide_eq_true_2 (bookings d !! _ = None)) by done. simpl.
  rewrite next_seat_not_taken. simpl.
  rewrite (bool_decide_eq_true_2 (is_Some (trains d !! i))) by (by rewrite Hi).
  destruct u as [k|]; simpl; [|done].
  by rewrite bool_decide_eq_true_2 by auto.
Qed.

(** X22. [book_seat] does not fail without a cause. A call for a train
    that is in [trains] with seats left succeeds whenever no statement of
    its own has a reason to reject it: the passenger fields are present
    and fit their columns, the id drawn is fresh, the user is known, the
    numbers stay within [integer], and the engine injects no fault. In
    particular the seat number it computes never collides with one that is
    held: the unique index on (train_id, seat_number) never stops a
    call. *)
Theorem book_seat_succeeds E i u nm ag gd d tr :
  acceptable_call E (Some i) u nm ag gd d →
  trains d !! i = Some tr →
  0 < available_seats tr ≤ int4_max →
  ∃ d', book_seat E (Some i) u nm ag gd d
        = Done (booking_successful (gen_random_uuid E)
                  (COALESCE (max_seat_number (Some i) (bookings d)) 0 + 1))
            d'.
Proof.
  intros Hok Hi [Hpos Hmax].
  destruct (insert_booking_accepts E i u nm ag gd d tr Hok Hi)
    as (name & age & gender & -> & -> & -> & Hins).
  destruct Hok as (Hf & _ & _ & _ & _ & _ & Hn & Hn').
  unfold book_seat, exception_when_others, book_seat_body.
  unfold select_train_for_update, run_statement. rewrite !Hf.
  unfold next_seat_number, decrement_available_seats, int4_add.
  unfold mbind, plpgsql_bind, bind, get, mret, plpgsql_ret, ret, modify.
  cbn [option_bind]. rewrite Hi. cbn [seats_exhausted].
  rewrite (bool_decide_eq_false_2 (available_seats tr ≤ 0)) by lia.
  rewrite (bool_decide_eq_true_2 (int4_min ≤ _ + 1 ≤ int4_max)) by done.
  simpl in Hins. rewrite Hins. simpl. rewrite Hi. simpl.
  rewrite bool_decide_eq_true_2; [by eexists|].
  unfold int4_min, int4_max in *. lia.
Qed.

Lemma book_seat_succeeds_witness :
  ∃ d', book_seat (pg 10) (Some 1%N) (Some 7%N) (Some "Asha"%string)
          (Some 34) (Some "Female"%string) sample_db
        = Done (booking_successful 10 1) d'.
Proof.
  apply (book_seat_succeeds (pg 10) 1 (Some 7%N) (Some "Asha"%string)
           (Some 34) (Some "Female"%string) sample_db rajdhani).
  - repeat split; try (vm_compute; congruence).
    + exists "Asha"%string. split; [reflexivity|vm_compute; lia].
    + by exists 34.
    + exists "Female"%string. split; [reflexivity|vm_compute; lia].
    + intros k [= <-]. vm_compute. reflexivity.
  - reflexivity.
  - vm_compute. split; [reflexivity|congruence].
Defined.

(** ** Wildcards in search terms *)

Lemma like_match_self s p t :
  no_backslash s = true → like_match p t = true →
  like_match (lower (string_map star s) +:+ p) (lower s +:+ t) = true.
Proof.
  intros Hs Hp. induction s as [|c s IH]; [done|].
  simpl in Hs. apply andb_true_iff in Hs as [Hc Hs].
  apply negb_true_iff in Hc. specialize (IH Hs).
  unfold lower in *. cbn [string_map].
  change (String ?a ?x +:+ ?y)%string with (String a (x +:+ y)).
  destruct (pattern_char c) eqn:Hpc.
  - unfold pattern_char in Hpc. rewrite Hc, orb_false_r in Hpc.
    apply orb_true_iff in Hpc as [Hpc|Hstar].
    + apply orb_true_iff in Hpc as [->%Ascii.eqb_eq | ->%Ascii.eqb_eq].
      * apply like_match_percent. by eexists (String _ EmptyString), _.
      * done.
    + apply Ascii.eqb_eq in Hstar as ->.
      apply like_match_percent. by eexists (String _ EmptyString), _.
  - assert (star c = c) as ->.
    { unfold star. unfold pattern_char in Hpc.
      apply orb_false_iff in Hpc as [_ ->]. done. }
    rewrite like_match_literal by by apply to_lower_plain.
    by rewrite Ascii.eqb_refl.
Qed.

Lemma ilike_finds s text :
  no_backslash s = true → contains_ci s text = true →
  ilike ("%" +:+ s +:+ "%") text = true.
Proof.
  intros Hs (before & rest & Ht)%occurs_in_spec. unfold ilike, lower in *.
  change ("%" +:+ s +:+ "%")%string with (String "%" (s +:+ "%")).
  cbn [string_map]. rewrite !string_map_app. rewrite Ht.
  change (to_lower (star "%")) with "%"%char.
  apply like_match_percent. exists before, (string_map to_lower s +:+ rest).
  split; [done|]. apply (like_match_self s); [done|].
  apply like_match_percent. exists rest, EmptyString.
  by rewrite string_app_nil_r.
Qed.

(** X23. Wildcards in a search term can only add trains, never hide one.
    When neither term holds a backslash, a search that is answered 200
    returns every train with seats left whose source and destination
    contain the terms as substrings, letter case aside (and whose day is
    the one asked for, if any), also when the terms hold [%], [_] or
    [*]. *)
Theorem search_finds_substrings C src dest date d i t :
  no_backslash (q_to_string src) = true →
  no_backslash (q_to_string dest) = true →
  status (search_trains C src dest date d) = 200%nat →
  trains d !! i = Some t →
  search_expected C src dest date t →
  (i, t) ∈ trains_found (search_trains C src dest date d).
Proof.
  intros Hs Hd Hok Hi (Hseats & Hsrc & Hdest & Hdate).
  destruct (search_trains_cases C src dest date d)
    as [(code & msg & Heq & Hcode)|(day & Heq & Hday)];
    rewrite Heq in *; [done|].
  unfold trains_found. cbn [body res]. apply search_rows_spec.
  split; [done|]. unfold search_filter. cbn [snd].
  rewrite !ilike_finds by done. rewrite bool_decide_eq_true_2 by done.
  simpl. destruct (q_truthy date).
  - destruct Hday as [<- _]. rewrite (Hdate eq_refl).
    by rewrite bool_decide_eq_true_2.
  - by subst day.
Qed.

Lemma search_finds_substrings_witness :
  (6%N, kalka_shimla)
  ∈ trains_found (search_trains search_ok (q_string "KA_sh") (q_string "shimLA")
                    q_undefined hill_db).
Proof.
  apply (search_finds_substrings search_ok (q_string "KA_sh") (q_string "shimLA")
           q_undefined hill_db 6 kalka_shimla).
  - reflexivity.
  - reflexivity.
  - reflexivity.
  - reflexivity.
  - repeat split; vm_compute; congruence.
Defined.

(** ** Routes that agree *)

Lemma ilike_any text : ilike ("%" +:+ "%" +:+ "%") text = true.
Proof.
  unfold ilike. change (lower (string_map star ("%" +:+ "%" +:+ "%")))
    with (String "%" (String "%" (String "%" EmptyString))).
  apply like_match_percent. exists EmptyString, (lower text). split; [done|].
  apply like_match_percent. exists EmptyString, (lower text). split; [done|].
  apply like_match_percent. exists (lower text), EmptyString.
  by rewrite string_app_nil_r.
Qed.

(** X24. The search and [book_seat] draw the line for a sold-out train at
    the same place. A train whose [available_seats] is 0 or less is left
    out of every search and every call of [book_seat] for it is answered
    [No seats available], with nothing changed; a train with a positive
    counter is never answered [No seats available], and the search for
    [%] to [%] on no particular day returns it. *)
Theorem sold_out_agrees d i t :
  trains d !! i = Some t →
  (available_seats t ≤ 0 →
   (∀ E u nm ag gd,
      book_seat E (Some i) u nm ag gd d = Done no_seats_available d) ∧
   (∀ C src dest date,
      (i, t) ∉ trains_found (search_trains C src dest date d))) ∧
  (0 < available_seats t →
   (∀ E u nm ag gd r d',
      book_seat E (Some i) u nm ag gd d = Done r d' →
      r ≠ no_seats_available) ∧
   (∀ C, search_error C = None →
      (i, t) ∈ trains_found
                 (search_trains C (q_string "%") (q_string "%") q_undefined
                    d))).
Proof.
  intros Hi. split.
  - intros Hle. split.
    + intros E u nm ag gd. unfold book_seat, exception_when_others.
      by rewrite (book_seat_body_exhausted E i u nm ag gd d t).
    + intros C src dest date Hin.
      destruct (search_trains_cases C src dest date d)
        as [(code & msg & Heq & _)|(day & Heq & _)]; rewrite Heq in Hin.
      { by apply elem_of_nil in Hin. }
      unfold trains_found in Hin. cbn [body res] in Hin.
      apply search_rows_spec in Hin as [_ Hf].
      unfold search_filter in Hf. cbn [snd] in Hf.
      rewrite !andb_true_iff in Hf. destruct Hf as [[[_ _] Hf] _].
      apply bool_decide_eq_true in Hf. lia.
  - intros Hpos. split.
    + intros E u nm ag gd r d' H ->.
      apply (book_seat_exhausted_reply _ _ _ _ _ _ _ _ t Hi) in H as [? _].
      lia.
    + intros C HC. unfold search_trains. cbn [q_truthy q_to_string].
      rewrite HC. simpl. apply search_rows_spec. split; [done|].
      unfold search_filter. cbn [snd]. rewrite !ilike_any.
      by rewrite bool_decide_eq_true_2.
Qed.

Lemma sold_out_agrees_witness :
  (available_seats (with_available_seats 0 rajdhani) ≤ 0 →
   (∀ E u nm ag gd,
      book_seat E (Some 1%N) u nm ag gd sold_out_db
      = Done no_seats_available sold_out_db) ∧
   (∀ C src dest date,
      (1%N, with_available_seats 0 rajdhani)
      ∉ trains_found (search_trains C src dest date sold_out_db))) ∧
  (0 < available_seats (with_available_seats 0 rajdhani) →
   (∀ E u nm ag gd r d',
      book_seat E (Some 1%N) u nm ag gd sold_out_db = Done r d' →
      r ≠ no_seats_available) ∧
   (∀ C, search_error C = None →
      (1%N, with_available_seats 0 rajdhani)
      ∈ trains_found
          (search_trains C (q_string "%") (q_string "%") q_undefined
             sold_out_db))).
Proof.
  apply (sold_out_agrees sold_out_db 1 (with_available_seats 0 rajdhani)).
  vm_compute. reflexivity.
Defined.

(** X25. A booking made through [POST /bookings] can be read back. After
    a 201, [GET /bookings/my-bookings] of the same caller lists a booking
    with the id and the seat number of the response, and
    [GET /bookings/:id] shows that row; once a cancellation of it has been
    answered 200, the list no longer has it. *)
Theorem booking_then_listed E args user req d :
  let out := post_bookings (book_seat_rpc E args) user req d in
  status out.1 = 201%nat →
  ∃ v, v ∈ bookings_listed (my_bookings rows_sent user out.2) ∧
       body out.1
       = booked_body "Booking successful" (Some (view_id v))
           (Some (seat_number (view_row v))) ∧
       booking_by_id rows_sent (view_id v) user out.2
       = (200%nat, booking_item v) ∧
       ∀ C, status (delete_booking C (view_id v) user out.2).1 = 200%nat →
            ∀ v', v' ∈ bookings_listed
                         (my_bookings rows_sent user
                            (delete_booking C (view_id v) user out.2).2) →
                  view_id v' ≠ view_id v.
Proof.
  unfold post_bookings, book_seat_rpc.
  destruct (_ || _); [done|].
  destruct (args req) as [m|[[[t nm] ag] gd]]; [done|].
  destruct (book_seat_returns E t (Some user) nm ag gd d) as (r & d' & H).
  rewrite H.
  apply book_seat_effect in H
    as [(-> & -> & _)
       |(name & age & gender & -> & Hid & _ & _ & _ & _ & Hbs & _)];
    simpl; [done|].
  intros _.
  set (id := gen_random_uuid E) in *.
  set (row := new_booking E (Some user) t _ name age gender) in *.
  assert (bookings d' !! id = Some row) as Hrow
    by by rewrite Hbs, lookup_insert_eq.
  exists (embed_trains d' (id, row)). split; [|split; [|split]].
  - apply bookings_listed_spec. by simpl.
  - done.
  - unfold booking_by_id, fetch_booking. simpl. rewrite Hrow. simpl.
    by rewrite bool_decide_eq_true_2.
  - simpl. intros C Hok v' Hv' Heq.
    apply bookings_listed_spec in Hv' as (Hv' & _).
    rewrite Heq in Hv'. by rewrite (delete_booking_gone C id user d' Hok) in Hv'.
Qed.

Lemma booking_then_listed_witness :
  let out := post_bookings (book_seat_rpc (pg 10) asha_args) 7 asha_request
               sample_db in
  ∃ v, v ∈ bookings_listed (my_bookings rows_sent 7 out.2) ∧
       body out.1
       = booked_body "Booking successful" (Some (view_id v))
           (Some (seat_number (view_row v))) ∧
       booking_by_id rows_sent (view_id v) 7 out.2
       = (200%nat, booking_item v) ∧
       ∀ C, status (delete_booking C (view_id v) 7 out.2).1 = 200%nat →
            ∀ v', v' ∈ bookings_listed
                         (my_bookings rows_sent 7
                            (delete_booking C (view_id v) 7 out.2).2) →
                  view_id v' ≠ view_id v.
Proof.
  apply (booking_then_listed (pg 10) asha_args 7 asha_request sample_db).
  vm_compute. reflexivity.
Defined.
